(** * DropDeploy deployment pipeline: a shallow embedding

    The TypeScript services of the repository are embedded as Rocq
    functions.  Asynchronous methods run sequentially here (each [await]
    is a sequencing point), exceptions are an explicit [Throw] result, the
    Prisma tables are finite maps keyed by record id, and the outcome of
    every call that leaves the process (git, the container engine, the
    queue, the clock, the id generator) is an input of the model. *)

From Stdlib Require Import ZArith List String Ascii Bool Lia.
From stdpp Require Import base option gmap strings pretty.
Import ListNotations.
Open Scope string_scope.
Open Scope Z_scope.

(** ** JavaScript values shared by all services *)

Module Js.

(** What a [catch (err)] clause can observe of a thrown value in this
    code base: [err instanceof AggregateError], [err.code] and
    [err.message]. *)
Record Thrown := mkThrown {
  isAggregateError : bool;
  code : option string;
  message : option string
}.

(** [new Error(msg)] *)
Definition Error (msg : string) : Thrown :=
  {| isAggregateError := false; code := None; message := Some msg |}.

(** lib/errors.ts: [AppError] carries a [code]; [NotFoundError(resource)]
    is [AppError('NOT_FOUND', `${resource} not found`, 404)]. *)
Definition NotFoundError (resource : string) : Thrown :=
  {| isAggregateError := false;
     code := Some "NOT_FOUND";
     message := Some (resource ++ " not found") |}.

(** The settled state of a promise: fulfilled with a value, or rejected
    with what was thrown. *)
Inductive Settled (E A : Type) : Type :=
| Ok (a : A)
| Throw (e : E).
Arguments Ok {E A} a.
Arguments Throw {E A} e.

Abbreviation Result := (Settled Thrown).

(** A run of a method that talks to the outside: the calls it made, in
    order, and how it settled. *)
Definition Trace (C E A : Type) : Type := list C * Settled E A.

Definition pure {C E A} (a : A) : Trace C E A := ([], Ok a).
Definition fail {C E A} (e : E) : Trace C E A := ([], Throw e).
Definition call {C E A} (c : C) (outcome : Settled E A) : Trace C E A :=
  ([c], outcome).
Definition andThen {C E A B} (m : Trace C E A) (k : A -> Trace C E B)
  : Trace C E B :=
  match snd m with
  | Ok a => let r := k a in ((fst m ++ fst r)%list, snd r)
  | Throw e => (fst m, Throw e)
  end.
(** [try { body } catch { }]: whatever is thrown inside is dropped. *)
Definition swallow {C E} (body : Trace C E unit) : Trace C E unit :=
  (fst body, Ok tt).

(** The double-quote character, for string constants that contain it. *)
Definition dq : string := String (ascii_of_nat 34) EmptyString.
(** The line feed of a template literal that spans lines. *)
Definition nl : string := String (ascii_of_nat 10) EmptyString.

(** [haystack.includes(needle)] *)
Fixpoint includes (haystack needle : string) : bool :=
  if String.prefix needle haystack then true
  else match haystack with
       | EmptyString => false
       | String _ rest => includes rest needle
       end.

(** A value read out of an object literal whose own properties are numbers
    or strings.  Reading a key finds the own property, else the member the
    literal inherits from [Object.prototype] under that name, else
    [undefined]. *)
Inductive JsValue :=
| VUndefined
| VString (s : string)
| VNumber (n : Z)
| VInherited (name : string).

(** The property names every object literal inherits from
    [Object.prototype]. *)
Definition Object_prototype_keys : list string :=
  [ "constructor"; "__defineGetter__"; "__defineSetter__"; "hasOwnProperty";
    "__lookupGetter__"; "__lookupSetter__"; "isPrototypeOf";
    "propertyIsEnumerable"; "toString"; "valueOf"; "__proto__";
    "toLocaleString" ].

Definition inherited (key : string) : bool :=
  existsb (String.eqb key) Object_prototype_keys.

(** [key in obj] for an object literal with own properties [obj]. *)
Definition has_property {A} (obj : gmap string A) (key : string) : bool :=
  match obj !! key with
  | Some _ => true
  | None => inherited key
  end.

(** [obj[key]] for an object literal with own properties [obj]. *)
Definition get_property {A} (inj : A -> JsValue) (obj : gmap string A)
           (key : string) : JsValue :=
  match obj !! key with
  | Some v => inj v
  | None => if inherited key then VInherited key else VUndefined
  end.

(** [v ?? fallback] *)
Definition nullish_or (v fallback : JsValue) : JsValue :=
  match v with
  | VUndefined => fallback
  | _ => v
  end.

(** Truthiness of a [string | null] value: [null] and [''] are falsy. *)
Definition truthy (s : option string) : bool :=
  match s with
  | None => false
  | Some EmptyString => false
  | Some _ => true
  end.

End Js.
Export Js.

(** ** Entities (Prisma models [Project] and [Deployment]) *)

Module Entity.

Inductive DeploymentStatus := QUEUED | BUILDING | DEPLOYED | FAILED.
Inductive BuildStep := CLONING | BUILDING_IMAGE | STARTING.

(** A row of the project table, with the columns the services read
    (types/project.types.ts); the [id] column is the key of the map that
    holds the row. *)
Record Project := mkProject {
  userId : string;
  name : string;
  slug : string;
  githubUrl : option string;
  type : string;
  branch : string
}.

(** Modelled from the spec: the Prisma schema that declares the
    [Deployment] model is not among the sources; the columns are those of
    the data model of the specification (and of the entity diagram in
    docs/HOW-IT-WORKS.md).  The [id] column is the key of the map that
    holds the row.  Timestamps are milliseconds since the epoch. *)
Record Deployment := mkDeployment {
  projectId : string;
  status : DeploymentStatus;
  buildStep : option BuildStep;
  containerPort : option Z;
  subdomain : option string;
  logs : option string;
  startedAt : option Z;
  completedAt : option Z
}.

#[global] Instance DeploymentStatus_eq_dec : EqDecision DeploymentStatus.
Proof. solve_decision. Defined.
#[global] Instance BuildStep_eq_dec : EqDecision BuildStep.
Proof. solve_decision. Defined.

(** The two tables. *)
Record Store := mkStore {
  projects : gmap string Project;
  deployments : gmap string Deployment
}.

End Entity.
Export Entity.


(** ** Sequential effects of a service call

    A computation reads and writes the entity store and leaves a trace:
    the store as it stands after every database write, and every
    [console.warn]. *)

Module Effect.

Inductive Event :=
| EvWrite (after : Store)
| EvWarn (msg : string).

Record Run (A : Type) := mkRun {
  events : list Event;
  final : Store;
  result : Result A
}.
Arguments mkRun {A} events final result.
Arguments events {A} r.
Arguments final {A} r.
Arguments result {A} r.

Definition M (A : Type) : Type := Store -> Run A.

Definition ret {A} (a : A) : M A :=
  fun s => mkRun [] s (Ok a).

Definition throw {A} (e : Thrown) : M A :=
  fun s => mkRun [] s (Throw e).

Definition bind {A B} (m : M A) (k : A -> M B) : M B :=
  fun s =>
    let r := m s in
    match result r with
    | Ok a =>
        let r' := k a (final r) in
        mkRun (events r ++ events r') (final r') (result r')
    | Throw e => mkRun (events r) (final r) (Throw e)
    end.

(** [try { body } catch (err) { handler(err) }] *)
Definition try_catch {A} (body : M A) (handler : Thrown -> M A) : M A :=
  fun s =>
    let r := body s in
    match result r with
    | Ok a => r
    | Throw e =>
        let r' := handler e (final r) in
        mkRun (events r ++ events r') (final r') (result r')
    end.

(** Awaiting a collaborator whose outcome is given. *)
Definition await {A} (outcome : Result A) : M A :=
  fun s => mkRun [] s outcome.

Definition get : M Store :=
  fun s => mkRun [] s (Ok s).

(** A committed database write. *)
Definition write (s' : Store) : M unit :=
  fun _ => mkRun [EvWrite s'] s' (Ok tt).

(** [console.warn(msg)] *)
Definition warn (msg : string) : M unit :=
  fun s => mkRun [EvWarn msg] s (Ok tt).

(** The stores that were ever committed during a run that started in [s],
    in order, [s] itself first. *)
Definition snapshots {A} (s : Store) (r : Run A) : list Store :=
  s :: omap (fun ev => match ev with EvWrite s' => Some s' | EvWarn _ => None end)
            (events r).


End Effect.
Export Effect.

Notation "'let*' x ':=' m 'in' k" := (bind m (fun x => k))
  (at level 10, x name, m at level 100, k at level 200, only parsing).
Notation "m1 '>>' m2" := (bind m1 (fun _ => m2))
  (at level 100, m2 at level 200, right associativity, only parsing).

(** ** repositories/deployment.repository.ts and project.repository.ts *)

Module Repository.

(** The [data] argument of [update]: a partial record.  An absent key
    ([None]) leaves the column as it is; a present key sets it, to [null]
    when the inner value is [None].  The type of the source,
    [Partial<Pick<Deployment, 'status' | 'containerPort' | 'subdomain' |
    'buildStep' | 'startedAt' | 'completedAt'>>], has no [logs] key. *)
Record DeploymentUpdate := mkUpdate {
  set_status : option DeploymentStatus;
  set_containerPort : option (option Z);
  set_subdomain : option (option string);
  set_buildStep : option (option BuildStep);
  set_startedAt : option (option Z);
  set_completedAt : option (option Z)
}.

Definition apply_update (d : Deployment) (data : DeploymentUpdate) : Deployment :=
  {| projectId := projectId d;
     status := default (status d) (set_status data);
     buildStep := default (buildStep d) (set_buildStep data);
     containerPort := default (containerPort d) (set_containerPort data);
     subdomain := default (subdomain d) (set_subdomain data);
     logs := logs d;
     startedAt := default (startedAt d) (set_startedAt data);
     completedAt := default (completedAt d) (set_completedAt data) |}.

(** Prisma's error for an [update] whose [where] matches no row. *)
Definition RecordNotFound : Thrown :=
  {| isAggregateError := false;
     code := Some "P2025";
     message := Some "Record to update not found." |}.

(** Prisma's error for a [create] that violates a unique constraint. *)
Definition UniqueViolation : Thrown :=
  {| isAggregateError := false;
     code := Some "P2002";
     message := Some "Unique constraint failed" |}.

(** [projectRepo.findById(id)] *)
Definition findProjectById (id : string) : M (option Project) :=
  let* s := get in ret (projects s !! id).

(** [deploymentRepo.findByIdWithProject(id)]: the row together with the
    project its [projectId] refers to ([include: { project: true }]); the
    project is returned with its id, which is that [projectId]. *)
Definition findByIdWithProject (id : string)
  : M (option (Deployment * (string * Project))) :=
  let* s := get in
  ret (match deployments s !! id with
       | None => None
       | Some d =>
           match projects s !! projectId d with
           | None => None
           | Some p => Some (d, (projectId d, p))
           end
       end).

(** [deploymentRepo.create({ projectId, status })]; [newId] is the id the
    database generates for the row, every other column takes its default
    ([null]). *)
Definition create (newId : string) (pid : string) (st : DeploymentStatus)
  : M (string * Deployment) :=
  let* s := get in
  match deployments s !! newId with
  | Some _ => throw UniqueViolation
  | None =>
      let d := {| projectId := pid; status := st; buildStep := None;
                  containerPort := None; subdomain := None; logs := None;
                  startedAt := None; completedAt := None |} in
      write {| projects := projects s;
               deployments := <[newId := d]> (deployments s) |} >>
      ret (newId, d)
  end.

(** [deploymentRepo.update(id, data)] *)
Definition update (id : string) (data : DeploymentUpdate) : M Deployment :=
  let* s := get in
  match deployments s !! id with
  | None => throw RecordNotFound
  | Some d =>
      let d' := apply_update d data in
      write {| projects := projects s;
               deployments := <[id := d']> (deployments s) |} >>
      ret d'
  end.

(** The [where] clause of [clearSubdomainForOtherDeployments]:
    [{ projectId, subdomain, id: { not: excludeDeploymentId } }]. *)
Definition clear_matches (pid sub exclude : string) (id : string) (d : Deployment) : bool :=
  bool_decide (projectId d = pid)
  && bool_decide (subdomain d = Some sub)
  && negb (bool_decide (id = exclude)).

Definition clear_subdomain (d : Deployment) : Deployment :=
  {| projectId := projectId d; status := status d; buildStep := buildStep d;
     containerPort := containerPort d; subdomain := None; logs := logs d;
     startedAt := startedAt d; completedAt := completedAt d |}.

(** [deploymentRepo.clearSubdomainForOtherDeployments(projectId, subdomain,
    excludeDeploymentId)]: one [updateMany] with [data: { subdomain: null }]. *)
Definition clearSubdomainForOtherDeployments (pid sub exclude : string) : M unit :=
  let* s := get in
  write {| projects := projects s;
           deployments :=
             map_imap (fun id d =>
                         Some (if clear_matches pid sub exclude id d
                               then clear_subdomain d else d))
                      (deployments s) |}.

End Repository.
Export Repository.

(** ** services/deployment: [DeploymentService] *)

Module DeploymentService.

(** The collaborators injected into [DeploymentService] and the ambient
    sources of values, as they answer during one call of a method. *)
Record Collaborators := mkCollaborators {
  (** [queue.add({ deploymentId, projectId })] *)
  queue_add : string -> string -> Result string;
  (** [git.ensureRepo(repoUrl, slug, branch)] *)
  git_ensureRepo : string -> string -> string -> Result string;
  (** [docker.buildImage(project, workDir)] *)
  docker_buildImage : Project -> string -> Result string;
  (** [docker.runContainer(imageName, projectType, containerName)] *)
  docker_runContainer : string -> string -> string -> Result Z;
  (** [new Date()] evaluated before the [try] block *)
  date_started : Z;
  (** [new Date()] evaluated when the final update is built *)
  date_completed : Z;
  (** the id the database gives to a created row *)
  generated_id : string
}.

(** The test of the [catch] clause of [createDeployment]. *)
Definition isConnectionError (err : Thrown) : bool :=
  bool_decide (code err = Some "ECONNREFUSED")
  || match message err with
     | Some m => includes m "ECONNREFUSED"
     | None => false
     end
  || isAggregateError err.

Definition queue_unavailable_warning (deploymentId : string) : string :=
  "[DeploymentService] Queue unavailable (Redis not running?). Deployment created but not queued: "
  ++ deploymentId.

Definition createDeployment (c : Collaborators) (pid uid : string)
  : M (string * Deployment) :=
  let* project := findProjectById pid in
  match project with
  | None => throw (NotFoundError "Project")
  | Some p =>
      if negb (bool_decide (userId p = uid)) then throw (NotFoundError "Project")
      else
        let* deployment := create (generated_id c) pid QUEUED in
        try_catch
          (let* _ := await (queue_add c (fst deployment) pid) in ret tt)
          (fun err =>
             if isConnectionError err
             then warn (queue_unavailable_warning (fst deployment))
             else throw err) >>
        ret deployment
  end.

Definition stale_job_warning (deploymentId : string) : string :=
  "[DeploymentService] Deployment not found (stale or deleted job): "
  ++ deploymentId.

(** The [try] block of [buildAndDeploy]. *)
Definition pipeline (c : Collaborators) (deploymentId : string)
           (project_id : string) (project : Project) (startedAt : Z) : M unit :=
  update deploymentId
    {| set_status := Some BUILDING; set_containerPort := None;
       set_subdomain := None; set_buildStep := Some (Some CLONING);
       set_startedAt := Some (Some startedAt);
       set_completedAt := None |} >>
  let* workDir :=
    await (git_ensureRepo c (default "" (githubUrl project))
                            (slug project) (branch project)) in
  update deploymentId
    {| set_status := None; set_containerPort := None;
       set_subdomain := None;
       set_buildStep := Some (Some BUILDING_IMAGE);
       set_startedAt := None; set_completedAt := None |} >>
  let* imageName := await (docker_buildImage c project workDir) in
  update deploymentId
    {| set_status := None; set_containerPort := None;
       set_subdomain := None; set_buildStep := Some (Some STARTING);
       set_startedAt := None; set_completedAt := None |} >>
  let* containerPort :=
    await (docker_runContainer c imageName (type project)
                                 ("dropdeploy-" ++ slug project)) in
  clearSubdomainForOtherDeployments project_id (slug project) deploymentId >>
  update deploymentId
    {| set_status := Some DEPLOYED;
       set_containerPort := Some (Some containerPort);
       set_subdomain := Some (Some (slug project));
       set_buildStep := Some None;
       set_startedAt := None;
       set_completedAt := Some (Some (date_completed c)) |} >>
  ret tt.

(** The [catch (err)] block of [buildAndDeploy]. *)
Definition on_failure (c : Collaborators) (deploymentId : string)
           (err : Thrown) : M unit :=
  update deploymentId
    {| set_status := Some FAILED; set_containerPort := None;
       set_subdomain := None; set_buildStep := Some None;
       set_startedAt := None;
       set_completedAt := Some (Some (date_completed c)) |} >>
  throw err.

Definition buildAndDeploy (c : Collaborators) (deploymentId : string) : M unit :=
  let* found := findByIdWithProject deploymentId in
  match found with
  | None => warn (stale_job_warning deploymentId)
  | Some (deployment, (project_id, project)) =>
      if negb (truthy (githubUrl project)) then
        update deploymentId
          {| set_status := Some FAILED; set_containerPort := None;
             set_subdomain := None; set_buildStep := None;
             set_startedAt := None; set_completedAt := None |} >>
        ret tt
      else
        let startedAt := date_started c in
        try_catch (pipeline c deploymentId project_id project startedAt)
                  (on_failure c deploymentId)
  end.

End DeploymentService.
Export DeploymentService.

(** ** services/docker/dockerfile.templates.ts *)

Module Recipes.

(** The lines of a template literal, joined by line feeds. *)
Definition template (lines : list string) : string :=
  String.concat nl lines.

(** A JSON-style array of string literals, as in a [CMD] instruction. *)
Definition cmd_array (args : list string) : string :=
  "[" ++ String.concat ", " (map (fun a => dq ++ a ++ dq) args) ++ "]".

Definition STATIC_TEMPLATE : string :=
  template
    [ "FROM nginx:alpine";
      "COPY . /usr/share/nginx/html";
      "EXPOSE 80";
      "CMD " ++ cmd_array ["nginx"; "-g"; "daemon off;"] ].

Definition NODEJS_TEMPLATE : string :=
  template
    [ "FROM node:22-alpine";
      "WORKDIR /app";
      "COPY package*.json ./";
      "RUN npm install --omit=dev";
      "COPY . .";
      "EXPOSE 3000";
      "CMD " ++ cmd_array ["npm"; "start"] ].

Definition NEXTJS_TEMPLATE : string :=
  template
    [ "FROM node:22-alpine AS builder";
      "WORKDIR /app";
      "COPY package*.json ./";
      "RUN npm install --omit=dev";
      "COPY . .";
      "ENV NEXT_TELEMETRY_DISABLED=1";
      "RUN npm run build";
      "";
      "FROM node:22-alpine AS runner";
      "WORKDIR /app";
      "ENV NODE_ENV=production";
      "COPY --from=builder /app/.next ./.next";
      "COPY --from=builder /app/node_modules ./node_modules";
      "COPY --from=builder /app/package.json ./package.json";
      "COPY --from=builder /app/public ./public";
      "EXPOSE 3000";
      "CMD " ++ cmd_array ["npm"; "start"] ].

Definition DJANGO_TEMPLATE : string :=
  template
    [ "FROM python:3.13-slim";
      "WORKDIR /app";
      "COPY requirements.txt ./";
      "RUN pip install --no-cache-dir -r requirements.txt";
      "COPY . .";
      "EXPOSE 8000";
      "CMD " ++ cmd_array ["python"; "manage.py"; "runserver"; "0.0.0.0:8000"] ].

(** The own properties of the object literal [DOCKERFILE_TEMPLATES]. *)
Definition DOCKERFILE_TEMPLATES : gmap string string :=
  <["STATIC" := STATIC_TEMPLATE]>
  (<["NODEJS" := NODEJS_TEMPLATE]>
  (<["NEXTJS" := NEXTJS_TEMPLATE]>
  (<["DJANGO" := DJANGO_TEMPLATE]> ∅))).

(** The own properties of the object literal [CONTAINER_PORTS]. *)
Definition CONTAINER_PORTS : gmap string Z :=
  <["STATIC" := 80]>
  (<["NODEJS" := 3000]>
  (<["NEXTJS" := 3000]>
  (<["DJANGO" := 8000]> ∅))).

(** The port a recipe declares: the argument of its [EXPOSE] line. *)
Definition exposes (recipe : string) (port : string) : bool :=
  includes (nl ++ recipe ++ nl) (nl ++ "EXPOSE " ++ port ++ nl).

End Recipes.
Export Recipes.

(** ** services/docker/docker.service.ts: [DockerService] *)

Module DockerService.

(** One element of the progress output of an image build:
    [{ stream?, error?, errorDetail?: { message? } }]. *)
Record Chunk := mkChunk {
  chunk_stream : option string;
  chunk_error : option string;
  (** [None]: no [errorDetail]; [Some m]: an [errorDetail] object whose
      [message] is [m] *)
  chunk_errorDetail : option (option string)
}.

(** How [modem.followProgress] finishes: with a stream-level error, or
    with the array of all chunks (each of which was also handed to the
    progress callback as it arrived). *)
Inductive Progress :=
| ProgressError (err : Thrown)
| ProgressDone (output : list Chunk).

(** The key [`${containerPort}/tcp`] of a port map. *)
Inductive PortKey := Tcp (containerPort : JsValue).

(** The argument of [docker.createContainer]. *)
Record ContainerConfig := mkContainerConfig {
  Image : string;
  container_name : option string;
  ExposedPorts : list PortKey;
  (** each key with its array of [{ HostPort }] entries *)
  PortBindings : list (PortKey * list string);
  Memory : Z;
  CpuShares : Z
}.

(** The calls that leave the process, in the order they are made. *)
Inductive Call :=
| WriteFile (path content : string)
| PatchNextConfig (contextPath : string)
| EngineBuild (context tag : string)
| FollowProgress
| ImageInspect (image : string)
| ContainerInspect (container : string)
| ContainerStop (container : string)
| ContainerRemove (container : string)
| CreateContainer (cfg : ContainerConfig)
| ContainerStart.

(** How the file system, the container engine and the random number
    generator answer. *)
Record Host := mkHost {
  fs_writeFile : string -> string -> Result unit;
  patchNextConfig : string -> Result unit;
  engine_buildImage : string -> string -> Result Progress;
  (** [true] when [getImage(name).inspect()] resolves *)
  image_inspect : string -> bool;
  (** [None] when [getContainer(name).inspect()] rejects, else
      [info.State.Running] *)
  container_inspect : string -> option bool;
  container_stop : string -> Result unit;
  container_remove : string -> Result unit;
  (** [Math.random()] is [math_random / 2^53] *)
  math_random : Z;
  engine_createContainer : ContainerConfig -> Result unit;
  container_start : Result unit
}.

(** The service's configuration ([memoryLimitBytes], [cpuShares]). *)
Record Limits := mkLimits {
  memoryLimitBytes : Z;
  cpuShares : Z
}.

(** The defaults of the constructor. *)
Definition default_limits : Limits :=
  {| memoryLimitBytes := 512 * 1024 * 1024; cpuShares := 1024 |}.


(** [path.join(dir, file)] for a directory path and a plain file name. *)
Definition path_join (dir file : string) : string := dir ++ "/" ++ file.

Definition getDockerfileForProject (project : Project) : JsValue :=
  let key :=
    if has_property DOCKERFILE_TEMPLATES (type project)
    then type project else "STATIC" in
  get_property VString DOCKERFILE_TEMPLATES key.

(** The predicate of [output.find((o) => o.error ?? o.errorDetail)]: the
    value of [o.error ?? o.errorDetail] is truthy. *)
Definition is_build_error (o : Chunk) : bool :=
  match chunk_error o with
  | Some e => negb (String.eqb e "")
  | None => match chunk_errorDetail o with
            | Some _ => true
            | None => false
            end
  end.

(** [buildError.error ?? buildError.errorDetail?.message ?? 'Docker build failed'] *)
Definition build_error_message (o : Chunk) : string :=
  match chunk_error o with
  | Some e => e
  | None => match chunk_errorDetail o with
            | Some (Some m) => m
            | _ => "Docker build failed"
            end
  end.

(** [buildLog]: the truthy [stream] fields of the chunks, in order. *)
Definition build_log (output : list Chunk) : list string :=
  omap (fun o => match chunk_stream o with
                 | Some "" => None
                 | other => other
                 end) output.

(** [arr.slice(-n)] *)
Definition slice_last {A} (n : nat) (l : list A) : list A :=
  skipn (length l - n) l.

Definition image_missing_message : string :=
  "Docker build did not produce an image. For Node.js: ensure package.json has a "
  ++ dq ++ "start" ++ dq ++ " script (e.g. " ++ dq ++ "node index.js" ++ dq
  ++ "). Check your repo and try again.".

Definition TypeError_invalid_data : Thrown :=
  {| isAggregateError := false;
     code := Some "ERR_INVALID_ARG_TYPE";
     message := Some "The data argument must be of type string" |}.

Definition buildImage (h : Host) (project : Project) (contextPath : string)
  : Trace Call Thrown string :=
  let imageName := "dropdeploy/" ++ slug project ++ ":latest" in
  let dockerfile := getDockerfileForProject project in
  let dockerfilePath := path_join contextPath "Dockerfile" in
  andThen (match dockerfile with
           | VString content =>
               call (WriteFile dockerfilePath content)
                    (fs_writeFile h dockerfilePath content)
           | _ => fail TypeError_invalid_data
           end) (fun _ =>
  andThen (if String.eqb (type project) "NEXTJS"
           then call (PatchNextConfig contextPath) (patchNextConfig h contextPath)
           else pure tt) (fun _ =>
  andThen (call (EngineBuild contextPath imageName)
                (engine_buildImage h contextPath imageName)) (fun progress =>
  andThen (call FollowProgress
             match progress with
             | ProgressError err => Throw err
             | ProgressDone output =>
                 match find is_build_error output with
                 | Some buildError =>
                     let msg := build_error_message buildError in
                     let tail := String.concat "" (slice_last 20 (build_log output)) in
                     Throw (Error (msg ++ nl ++ nl
                                   ++ "Build output (last 20 lines):" ++ nl ++ tail))
                 | None => Ok tt
                 end
             end) (fun _ =>
  andThen (call (ImageInspect imageName)
                (if image_inspect h imageName then Ok tt
                 else Throw (Error image_missing_message))) (fun _ =>
  pure imageName))))).

(** The double nearest to [p / 2^53] (ties to even), as a numerator over
    [2^53], for an integer [0 <= p < 2^64]: the rounding of a product of
    two doubles whose exact value is [p / 2^53]. *)
Definition round_double (p : Z) : Z :=
  if p <? 2 ^ 53 then p
  else
    let e := Z.log2 p - 52 in
    let ulp := 2 ^ e in
    let q := p / ulp in
    let r := p mod ulp in
    let up := (ulp <? 2 * r) || ((ulp =? 2 * r) && Z.odd q) in
    (if up then q + 1 else q) * ulp.

(** [Math.floor(random * n)] for [random = m / 2^53] and an integer [n]. *)
Definition floor_random_times (m n : Z) : Z :=
  round_double (m * n) / 2 ^ 53.

Definition findAvailablePort (h : Host) : Z :=
  let base := 8000 in
  let range := 2000 in
  base + floor_random_times (math_random h) range.

Definition image_not_found_message (imageName : string) : string :=
  "Image " ++ imageName
  ++ " was not found. The Docker build likely failed. For Node.js: ensure package.json has a "
  ++ dq ++ "start" ++ dq ++ " script (e.g. " ++ dq ++ "node index.js" ++ dq
  ++ ") and that the repo builds. Check deployment logs.".

(** The [try] block that stops and removes an existing container; every
    failure inside it is swallowed by the empty [catch]. *)
Definition remove_existing (h : Host) (containerName : string)
  : Trace Call Thrown unit :=
  swallow (
    andThen (call (ContainerInspect containerName)
               (match container_inspect h containerName with
                | Some running => Ok running
                | None => Throw (Error "no such container")
                end)) (fun running =>
    andThen (if running : bool
             then call (ContainerStop containerName) (container_stop h containerName)
             else pure tt) (fun _ =>
    call (ContainerRemove containerName) (container_remove h containerName)))).

Definition runContainer (h : Host) (cfg : Limits) (imageName projectType : string)
           (containerName : option string) : Trace Call Thrown Z :=
  andThen (call (ImageInspect imageName)
                (if image_inspect h imageName then Ok tt
                 else Throw (Error (image_not_found_message imageName)))) (fun _ =>
  andThen (match containerName with
           | Some n => if truthy containerName then remove_existing h n else pure tt
           | None => pure tt
           end) (fun _ =>
  let containerPort :=
    nullish_or (get_property VNumber CONTAINER_PORTS projectType) (VNumber 3000) in
  let hostPort := findAvailablePort h in
  let config :=
    {| Image := imageName;
       container_name := containerName;
       ExposedPorts := [Tcp containerPort];
       PortBindings := [(Tcp containerPort, [pretty hostPort])];
       Memory := memoryLimitBytes cfg;
       CpuShares := cpuShares cfg |} in
  andThen (call (CreateContainer config) (engine_createContainer h config)) (fun _ =>
  andThen (call ContainerStart (container_start h)) (fun _ =>
  pure hostPort)))).

End DockerService.
Export DockerService.

(** ** services/git/git.service.ts: [GitService] *)

Module GitService.

(** The file-system and git calls of [ensureRepo].  A git call carries the
    directory its [simpleGit] instance is bound to ([None] for
    [simpleGit()] without a base directory). *)
Inductive Call :=
| Mkdir (dir : string)
| Stat (path : string)
| GitRaw (cwd : option string) (args : list string)
| GitFetch (cwd : option string) (args : list string)
| GitCheckout (cwd : option string) (what : string)
| GitCheckoutBranch (cwd : option string) (branchName startPoint : string)
| GitReset (cwd : option string) (args : list string)
| GitClone (cwd : option string) (repoPath localPath : string) (options : list string).

(** How the file system and git answer, and the configured root. *)
Record Host := mkHost {
  PROJECTS_DIR : string;
  (** [fs.promises.mkdir(dir, { recursive: true })] *)
  fs_mkdir : string -> Result unit;
  (** [true] when [fs.promises.stat(path)] resolves *)
  fs_stat : string -> bool;
  (** the outcome of a git call *)
  git : Call -> Result unit
}.

Definition path_join (dir file : string) : string := dir ++ "/" ++ file.



Definition run (h : Host) (c : Call) : Trace Call Thrown unit :=
  call c (git h c).



End GitService.

(** ** services/docker/docker-terminal.service.ts: [DockerTerminalService]

    The command is text typed by an operator, and the service classifies
    its characters ([trim], [/\s+/]); strings are therefore sequences of
    UTF-16 code units here, as JavaScript has them. *)

Module DockerTerminalService.

Definition jsstring : Type := list N.

(** A string literal of the source (all of them are ASCII). *)
Definition lit (s : string) : jsstring :=
  map N_of_ascii (list_ascii_of_string s).

(** ECMAScript [WhiteSpace] and [LineTerminator] code points: what
    [String.prototype.trim] strips and what [\s] matches. *)
Definition isWhiteSpace (c : N) : bool :=
  existsb (N.eqb c)
    [ 9; 10; 11; 12; 13; 32; 160; 5760;
      8192; 8193; 8194; 8195; 8196; 8197; 8198; 8199; 8200; 8201; 8202;
      8232; 8233; 8239; 8287; 12288; 65279 ]%N.

Fixpoint trimStart (s : jsstring) : jsstring :=
  match s with
  | c :: rest => if isWhiteSpace c then trimStart rest else s
  | [] => []
  end.

Definition trimEnd (s : jsstring) : jsstring :=
  rev (trimStart (rev s)).

(** [s.trim()] *)
Definition trim (s : jsstring) : jsstring := trimEnd (trimStart s).

(** [s.split(/\s+/)], reading [s] from the left: [cur] is the piece being
    collected and [in_ws] tells that the previous code unit was part of a
    separator. *)
Fixpoint split_from (in_ws : bool) (cur : jsstring) (s : jsstring)
  : list jsstring :=
  match s with
  | [] => [cur]
  | c :: rest =>
      if isWhiteSpace c then
        if in_ws then split_from true [] rest
        else cur :: split_from true [] rest
      else split_from false (cur ++ [c])%list rest
  end.

Definition split_whitespace (s : jsstring) : list jsstring :=
  split_from false [] s.

(** [a < b] on strings: comparison by code units. *)
Fixpoint js_ltb (a b : jsstring) : bool :=
  match a, b with
  | [], [] => false
  | [], _ :: _ => true
  | _ :: _, [] => false
  | x :: a', y :: b' =>
      if (x <? y)%N then true
      else if (y <? x)%N then false
      else js_ltb a' b'
  end.

Fixpoint insert_sorted (x : jsstring) (l : list jsstring) : list jsstring :=
  match l with
  | [] => [x]
  | y :: rest => if js_ltb y x then y :: insert_sorted x rest else x :: l
  end.

(** [arr.sort()] with the default comparison. *)
Definition sort (l : list jsstring) : list jsstring :=
  fold_right insert_sorted [] l.

(** [arr.join(sep)] *)
Fixpoint join (sep : jsstring) (l : list jsstring) : jsstring :=
  match l with
  | [] => []
  | [x] => x
  | x :: rest => (x ++ sep ++ join sep rest)%list
  end.

Definition jsstring_eqb (a b : jsstring) : bool :=
  bool_decide (a = b).

(** The elements of the [Set] [ALLOWED_COMMANDS], in insertion order. *)
Definition ALLOWED_COMMANDS : list jsstring :=
  map lit
    [ "ls"; "cat"; "pwd"; "echo"; "env"; "whoami";
      "df"; "du"; "ps"; "top"; "head"; "tail";
      "grep"; "find"; "wc"; "date"; "uptime";
      "which"; "printenv"; "hostname"; "uname";
      "id"; "free"; "stat"; "file"; "sort"; "uniq";
      "tr"; "cut"; "awk"; "sed"; "less"; "more";
      "mkdir"; "touch"; "cp"; "mv"; "cd";
      "npm"; "node"; "python"; "pip";
      "curl"; "wget" ].

(** [ALLOWED_COMMANDS.has(x)] *)
Definition allowed (x : jsstring) : bool :=
  existsb (jsstring_eqb x) ALLOWED_COMMANDS.

Definition EXEC_TIMEOUT_MS : Z := 30000.

(** An error of this service: [new Error(message)], or what the engine
    rejected with. *)
Record TerminalError := mkError { error_message : jsstring }.

Definition not_allowed_message (baseCommand : jsstring) : jsstring :=
  (lit "Command " ++ lit dq ++ baseCommand ++ lit dq
   ++ lit " is not allowed. Permitted commands: "
   ++ join (lit ", ") (sort ALLOWED_COMMANDS))%list.

(** [validateCommand(command)]: returns normally or throws. *)
Definition validateCommand (command : jsstring) : Settled TerminalError unit :=
  let trimmed := trim command in
  match trimmed with
  | [] => Throw (mkError (lit "Command cannot be empty"))
  | _ =>
      match head (split_whitespace trimmed) with
      | None => Throw (mkError (not_allowed_message (lit "undefined")))
      | Some baseCommand =>
          if match baseCommand with [] => true | _ => false end
             || negb (allowed baseCommand)
          then Throw (mkError (not_allowed_message baseCommand))
          else Ok tt
      end
  end.

Record TerminalExecResult := mkExecResult {
  stdout : jsstring;
  stderr : jsstring;
  exitCode : Z
}.

(** An element of [docker.listContainers()]. *)
Record ContainerInfo := mkContainerInfo {
  Id : jsstring;
  info_Image : jsstring
}.

(** The calls made to the container engine. *)
Inductive EngineCall :=
| ContainerInspect (container : jsstring)
| ListContainers
| ExecCreate (container : jsstring) (Cmd : list jsstring)
| ExecStart
| StreamDestroy
| ExecInspect.

(** Which of the three callbacks of [runInContainer] settles its promise
    first: the stream's ['end'] (with the demultiplexed output, and the
    answer of [exec.inspect()]: [None] when it rejects, else its
    [ExitCode], which may be [null]), the stream's ['error'], or the
    timer. *)
Inductive StreamOutcome :=
| StreamEnd (out err : jsstring) (inspected : option (option Z))
| StreamError (e : TerminalError)
| TimerFired.

(** How the container engine answers. *)
Record Engine := mkEngine {
  (** [None] when [container.inspect()] rejects, else [State.Running] *)
  container_inspect : jsstring -> option bool;
  listContainers : Settled TerminalError (list ContainerInfo);
  exec_create : jsstring -> list jsstring -> Settled TerminalError unit;
  exec_start : Settled TerminalError unit;
  stream : StreamOutcome
}.

(** [name.replace(/^dropdeploy-/, 'dropdeploy/')] *)
Definition replace_prefix (name : jsstring) : jsstring :=
  let pre := lit "dropdeploy-" in
  if jsstring_eqb (firstn (length pre) name) pre
  then (lit "dropdeploy/" ++ skipn (length pre) name)%list
  else name.

Definition not_found_message (containerName : jsstring) : jsstring :=
  (lit "Container " ++ lit dq ++ containerName ++ lit dq
   ++ lit " not found. Redeploy the project to create a named container.")%list.

(** [resolveContainer(containerName)]: the reference (name or id) of the
    container found. *)
Definition resolveContainer (e : Engine) (containerName : jsstring)
  : Trace EngineCall TerminalError jsstring :=
  andThen (call (ContainerInspect containerName)
                (Ok (container_inspect e containerName))) (fun byName =>
  match byName with
  | Some _ => pure containerName
  | None =>
      let imageName := (replace_prefix containerName ++ lit ":latest")%list in
      andThen (call ListContainers (listContainers e)) (fun containers =>
      match find (fun c => jsstring_eqb (info_Image c) imageName) containers with
      | Some m => pure (Id m)
      | None => fail (mkError (not_found_message containerName))
      end)
  end).

Definition timeout_message : jsstring :=
  (lit "Command timed out after " ++ lit (pretty (EXEC_TIMEOUT_MS / 1000))
   ++ lit "s")%list.

Definition runInContainer (e : Engine) (containerName command : jsstring)
  : Trace EngineCall TerminalError TerminalExecResult :=
  andThen (resolveContainer e containerName) (fun container =>
  andThen (call (ContainerInspect container)
                (match container_inspect e container with
                 | Some running => Ok running
                 | None => Throw (mkError (lit "no such container"))
                 end)) (fun running =>
  if negb running then fail (mkError (lit "Container is not running"))
  else
    andThen (call (ExecCreate container [lit "/bin/sh"; lit "-c"; command])
                  (exec_create e container [lit "/bin/sh"; lit "-c"; command]))
            (fun _ =>
    andThen (call ExecStart (exec_start e)) (fun _ =>
    match stream e with
    | TimerFired => call StreamDestroy (Throw (mkError timeout_message))
    | StreamError err => fail err
    | StreamEnd out err inspected =>
        call ExecInspect
          (Ok {| stdout := out; stderr := err;
                 exitCode := match inspected with
                             | Some (Some c) => c
                             | Some None => 0
                             | None => -1
                             end |})
    end)))).

Definition executeCommand (e : Engine) (containerName command : jsstring)
  : Trace EngineCall TerminalError TerminalExecResult :=
  andThen (([], validateCommand command) : Trace EngineCall TerminalError unit)
          (fun _ => runInContainer e containerName command).

End DockerTerminalService.

(** ** services/deployment: the read operation of [DeploymentService] *)

Module DeploymentQueries.

(** [getById(deploymentId, userId)]: the row without its project. *)
Definition getById (deploymentId uid : string) : M Deployment :=
  let* deployment := findByIdWithProject deploymentId in
  match deployment with
  | None => throw (NotFoundError "Deployment")
  | Some (d, (_, project)) =>
      if negb (bool_decide (userId project = uid))
      then throw (NotFoundError "Deployment")
      else ret d
  end.

End DeploymentQueries.
Export DeploymentQueries.

(** ** services/docker/docker-terminal.service.ts: slash commands and logs *)

Module DockerTerminalShortcuts.
Import DockerTerminalService.

(** The bytes of a [Buffer]. *)
Abbreviation bytes := (list N).

(** An entry of the registry.  [hostCommand] is [false] where the source
    leaves it out. *)
Record SlashCommandDef := mkSlashCommand {
  slash_name : jsstring;
  description : jsstring;
  resolve : jsstring -> jsstring -> jsstring;
  hostCommand : bool
}.

Definition SLASH_COMMANDS : list SlashCommandDef :=
  [ {| slash_name := lit "/show-logs";
       description := lit "Show full application logs";
       resolve := fun _ _ => lit "__DOCKER_LOGS__:500";
       hostCommand := true |};
    {| slash_name := lit "/tail-logs";
       description := lit "Tail the last 100 lines of logs";
       resolve := fun _ _ => lit "__DOCKER_LOGS__:100";
       hostCommand := true |};
    {| slash_name := lit "/env";
       description := lit "Show all environment variables";
       resolve := fun _ _ => lit "env | sort";
       hostCommand := false |};
    {| slash_name := lit "/files";
       description := lit "List files in the application directory";
       resolve := fun _ _ => lit "ls -la";
       hostCommand := false |};
    {| slash_name := lit "/help";
       description := lit "Show all available slash commands";
       resolve := fun _ _ => (lit "echo " ++ lit dq ++ lit "__SLASH_HELP__"
                              ++ lit dq)%list;
       hostCommand := false |} ].

(** What [container.logs(...)] resolves with: a string, a [Buffer], or
    something else (a stream). *)
Inductive LogsResult :=
| LogsString (s : jsstring)
| LogsBuffer (b : bytes)
| LogsOther.

(** The engine of [DockerTerminalService] together with its logs call,
    whose [tail] option is the number parsed ([None] for [NaN]). *)
Record LogsEngine := mkLogsEngine {
  engine : Engine;
  container_logs : jsstring -> option Z -> Settled TerminalError LogsResult
}.

(** The UTF-8 codec of the runtime: [buffer.toString('utf8')] and
    [Buffer.from(string)]. *)
Record Codec := mkCodec {
  toString_utf8 : bytes -> jsstring;
  Buffer_from : jsstring -> bytes
}.

(** The calls of the service: those of [runInContainer], and the logs
    call. *)
Inductive GatewayCall :=
| Exec (c : EngineCall)
| ContainerLogs (container : jsstring) (tail : option Z).

Definition lift {A} (t : Trace EngineCall TerminalError A)
  : Trace GatewayCall TerminalError A :=
  (map Exec (fst t), snd t).

(** [buf.readUInt32BE(offset)] for an offset with four bytes behind it. *)
Definition readUInt32BE (buf : bytes) (offset : nat) : N :=
  (nth offset buf 0 * 16777216 + nth (offset + 1) buf 0 * 65536
   + nth (offset + 2) buf 0 * 256 + nth (offset + 3) buf 0)%N.

(** [buf.subarray(start, end)] *)
Definition subarray (buf : bytes) (start stop : nat) : bytes :=
  firstn (stop - start) (skipn start buf).

(** The [while] loop of [getContainerLogs]: the payloads it pushes, in
    order, each with [true] when it goes to [stderr].  Every turn moves
    [offset] forward by at least 8, so [length buf] turns are enough. *)
Fixpoint demux_loop (turns : nat) (buf : bytes) (offset : nat)
  : list (bool * bytes) :=
  match turns with
  | O => []
  | S turns' =>
      if negb (offset <? length buf)%nat then []
      else if (length buf <? offset + 8)%nat then []
      else
        let streamType := nth offset buf 0%N in
        let payloadLen := N.to_nat (readUInt32BE buf (offset + 4)) in
        let offset := (offset + 8)%nat in
        if (length buf <? offset + payloadLen)%nat then []
        else
          (N.eqb streamType 2, subarray buf offset (offset + payloadLen))
          :: demux_loop turns' buf (offset + payloadLen)
  end.

Definition demux (buf : bytes) : list (bool * bytes) :=
  demux_loop (length buf) buf 0.

(** [chunks.join('')] *)
Definition join_all (chunks : list jsstring) : jsstring := concat chunks.

(** [text || fallback] on strings *)
Definition or_else (text fallback : jsstring) : jsstring :=
  match text with
  | [] => fallback
  | _ => text
  end.

Definition getContainerLogs (rt : Codec) (e : LogsEngine)
           (containerName : jsstring) (tailLines : option Z)
  : Trace GatewayCall TerminalError TerminalExecResult :=
  andThen (lift (resolveContainer (engine e) containerName)) (fun container =>
  andThen (call (ContainerLogs container tailLines)
                (container_logs e container tailLines)) (fun logStream =>
  let raw :=
    match logStream with
    | LogsString s => s
    | LogsBuffer b => toString_utf8 rt b
    | LogsOther => []
    end in
  let buf :=
    match logStream with
    | LogsString s => Some (Buffer_from rt s)
    | LogsBuffer b => Some b
    | LogsOther => None
    end in
  let pushed :=
    match buf with
    | Some b =>
        if (8 <? length b)%nat
        then map (fun f => (fst f, toString_utf8 rt (snd f))) (demux b)
        else [(false, raw)]
    | None => [(false, raw)]
    end in
  let stdout := map snd (List.filter (fun f => negb (fst f)) pushed) in
  let stderr := map snd (List.filter (fun f => fst f) pushed) in
  let stdoutText := trim (join_all stdout) in
  let stderrText := trim (join_all stderr) in
  pure {| stdout := or_else stdoutText (lit "(no logs available)");
          stderr := stderrText;
          exitCode := 0 |})).

(** [s.split(sep)] for a one-character separator. *)
Fixpoint split_on (sep : N) (cur : jsstring) (s : jsstring) : list jsstring :=
  match s with
  | [] => [cur]
  | c :: rest =>
      if N.eqb c sep then cur :: split_on sep [] rest
      else split_on sep (cur ++ [c])%list rest
  end.

(** The decimal digits at the head of a string, as a number, and how many
    there are. *)
Fixpoint leading_digits (acc : Z) (count : nat) (s : jsstring) : Z * nat :=
  match s with
  | c :: rest =>
      if ((48 <=? c) && (c <=? 57))%N
      then leading_digits (acc * 10 + Z.of_N (c - 48)) (S count) rest
      else (acc, count)
  | [] => (acc, count)
  end.

(** [parseInt(s, 10)]; [None] is [NaN]. *)
Definition parseInt10 (s : jsstring) : option Z :=
  let s := trimStart s in
  let signed :=
    match s with
    | 45%N :: rest => (-1, rest)
    | 43%N :: rest => (1, rest)
    | _ => (1, s)
    end in
  let parsed := leading_digits 0 0 (snd signed) in
  match snd parsed with
  | O => None
  | _ => Some (fst signed * fst parsed)
  end.

(** [s.startsWith(prefix)] *)
Fixpoint startsWith (s prefix : jsstring) : bool :=
  match prefix, s with
  | [], _ => true
  | _ :: _, [] => false
  | p :: prefix', c :: s' => N.eqb p c && startsWith s' prefix'
  end.

(** [s.padEnd(n)] *)
Definition padEnd (n : nat) (s : jsstring) : jsstring :=
  (s ++ repeat 32%N (n - length s))%list.

Definition unknown_slash_message (name : jsstring) : jsstring :=
  (lit "Unknown slash command " ++ lit dq ++ name ++ lit dq
   ++ lit ". Available: "
   ++ join (lit ", ") (map slash_name SLASH_COMMANDS))%list.

Definition help_text : jsstring :=
  join (lit nl)
       (map (fun c => (lit "  " ++ padEnd 16 (slash_name c) ++ lit " "
                       ++ description c)%list)
            (List.filter (fun c => negb (jsstring_eqb (slash_name c) (lit "/help")))
                    SLASH_COMMANDS)).

Definition executeSlashCommand (rt : Codec) (e : LogsEngine)
           (containerName slashInput : jsstring)
  : Trace GatewayCall TerminalError TerminalExecResult :=
  let parts := split_whitespace (trim slashInput) in
  let name := default (lit "undefined") (head parts) in
  let args := join (lit " ") (tail parts) in
  match find (fun c => jsstring_eqb (slash_name c) name) SLASH_COMMANDS with
  | None => fail (mkError (unknown_slash_message name))
  | Some cmd =>
      if jsstring_eqb name (lit "/help") then
        pure {| stdout := (lit "Available commands:" ++ lit nl ++ lit nl
                           ++ help_text ++ lit nl ++ lit nl
                           ++ lit "Type any command or use / to see suggestions.")%list;
                stderr := [];
                exitCode := 0 |}
      else
        let resolved := resolve cmd containerName args in
        if hostCommand cmd && startsWith resolved (lit "__DOCKER_LOGS__") then
          let tailLines :=
            parseInt10 (match nth_error (split_on 58 [] resolved) 1 with
                        | Some ((_ :: _) as n) => n
                        | _ => lit "100"
                        end) in
          getContainerLogs rt e containerName tailLines
        else lift (runInContainer (engine e) containerName resolved)
  end.

End DockerTerminalShortcuts.

(** * The Next.js configuration patcher
    ([services/docker/nextjs-config-patcher.ts]) *)

Module NextConfigPatcher.
Import DockerTerminalService DockerTerminalShortcuts.

Definition CONFIG_FILES : list string :=
  [ "next.config.ts"; "next.config.mts"; "next.config.mjs"; "next.config.js" ].

(** The files of the build context that can be read and written: their
    path and their text, in UTF-16 code units.  [fs.promises.access]
    resolves for the paths of the map and rejects for all others; reading
    and writing a file of the map does not fail. *)
Abbreviation Files := (gmap string jsstring).

(** The calls to [fs.promises], in the order they are made. *)
Inductive FsCall :=
| Access (path : string)
| ReadFile (path : string)
| WriteFile (path : string) (content : jsstring).

(** [haystack.includes(needle)] *)
Fixpoint includes (haystack needle : jsstring) : bool :=
  startsWith haystack needle
  || match haystack with
     | [] => false
     | _ :: rest => includes rest needle
     end.

(** The class [\w] of a regular expression without the [u] flag. *)
Definition isWordChar (c : N) : bool :=
  ((48 <=? c) && (c <=? 57) || (65 <=? c) && (c <=? 90)
   || (c =? 95) || (97 <=? c) && (c <=? 122))%N.

(** The longest head of [s] made of characters of a class, and what
    follows it: how a greedy [c+] matches when the pattern goes on with a
    character outside the class, or ends. *)
Fixpoint span (class : N -> bool) (s : jsstring) : jsstring * jsstring :=
  match s with
  | c :: rest =>
      if class c
      then let r := span class rest in (c :: fst r, snd r)
      else ([], s)
  | [] => ([], [])
  end.

Definition strip_prefix (prefix s : jsstring) : option jsstring :=
  if startsWith s prefix then Some (skipn (length prefix) s) else None.

(** A match of [/export\s+default\s+(\w+)/] that starts at the head of
    [s]: the text of the group, and what follows the match. *)
Definition match_export_default (s : jsstring) : option (jsstring * jsstring) :=
  match strip_prefix (lit "export") s with
  | None => None
  | Some s1 =>
      match span isWhiteSpace s1 with
      | ([], _) => None
      | (_, s2) =>
          match strip_prefix (lit "default") s2 with
          | None => None
          | Some s3 =>
              match span isWhiteSpace s3 with
              | ([], _) => None
              | (_, s4) =>
                  match span isWordChar s4 with
                  | ([], _) => None
                  | (g1, s5) => Some (g1, s5)
                  end
              end
          end
      end
  end.

(** The replacement string of the ESM branch, with [$1] filled in. *)
Definition esm_overrides (g1 : jsstring) : jsstring :=
  (g1 ++ lit ".eslint = { ..." ++ g1
   ++ lit ".eslint, ignoreDuringBuilds: true };" ++ lit nl
   ++ g1 ++ lit ".typescript = { ..." ++ g1
   ++ lit ".typescript, ignoreBuildErrors: true };" ++ lit nl
   ++ lit "export default " ++ g1)%list.

(** [content.replace(/export\s+default\s+(\w+)/, ...)]: the leftmost match
    is replaced, the text around it is kept; without a match the text is
    returned as it is. *)
Fixpoint replace_export_default (content : jsstring) : jsstring :=
  match match_export_default content with
  | Some (g1, rest) => (esm_overrides g1 ++ rest)%list
  | None =>
      match content with
      | [] => []
      | c :: rest => c :: replace_export_default rest
      end
  end.

(** What is appended to a CommonJS configuration. *)
Definition cjs_overrides : jsstring :=
  (lit nl ++ lit "const _ddCfg = module.exports;" ++ lit nl
   ++ lit "_ddCfg.eslint = { ..._ddCfg.eslint, ignoreDuringBuilds: true };"
   ++ lit nl
   ++ lit "_ddCfg.typescript = { ..._ddCfg.typescript, ignoreBuildErrors: true };"
   ++ lit nl
   ++ lit "module.exports = _ddCfg;" ++ lit nl)%list.

(** The configuration created when the context has none. *)
Definition minimal_config : jsstring :=
  (lit "/** @type {import(" ++ lit dq ++ lit "next" ++ lit dq
   ++ lit ").NextConfig} */" ++ lit nl
   ++ lit "module.exports = {" ++ lit nl
   ++ lit "  eslint: { ignoreDuringBuilds: true }," ++ lit nl
   ++ lit "  typescript: { ignoreBuildErrors: true }," ++ lit nl
   ++ lit "};" ++ lit nl)%list.

(** The [for] loop of [patchNextConfig] over the remaining candidates,
    and the creation that follows it: the calls made and the files
    left. *)
Fixpoint patch_from (contextPath : string) (files : list string) (fs : Files)
  : list FsCall * Files :=
  match files with
  | [] =>
      let filePath := path_join contextPath "next.config.js" in
      ([WriteFile filePath minimal_config], <[filePath := minimal_config]> fs)
  | file :: rest =>
      let filePath := path_join contextPath file in
      match fs !! filePath with
      | None =>
          let r := patch_from contextPath rest fs in
          (Access filePath :: fst r, snd r)
      | Some content =>
          if includes content (lit "ignoreDuringBuilds")
          then ([Access filePath; ReadFile filePath], fs)
          else
            let content' :=
              if includes content (lit "module.exports")
              then (content ++ cjs_overrides)%list
              else replace_export_default content in
            ([Access filePath; ReadFile filePath; WriteFile filePath content'],
             <[filePath := content']> fs)
      end
  end.

Definition patchNextConfig (contextPath : string) (fs : Files)
  : list FsCall * Files :=
  patch_from contextPath CONFIG_FILES fs.

End NextConfigPatcher.

(** * Slugs of projects ([ProjectRepository.generateUniqueSlug] in
    [repositories/deployment.repository.ts]) *)

Module ProjectSlug.
Import DockerTerminalService DockerTerminalShortcuts NextConfigPatcher.

(** What the method asks of its environment: the lower-casing of the
    runtime, and whether [findBySlug] finds a project. *)
Record SlugHost := mkSlugHost {
  toLowerCase : jsstring -> jsstring;
  findBySlug : jsstring -> bool
}.

Definition hyphen : N := 45.
Definition underscore : N := 95.

(** [s.replace(/[^\w\s-]/g, '')] *)
Definition remove_unsafe (s : jsstring) : jsstring :=
  List.filter (fun c => isWordChar c || isWhiteSpace c || (c =? hyphen)%N) s.

(** The class [[\s_-]]. *)
Definition isSeparator (c : N) : bool :=
  isWhiteSpace c || (c =? underscore)%N || (c =? hyphen)%N.

(** [s.replace(/[\s_-]+/g, '-')]; [in_run] tells that the character
    before was part of the run being replaced. *)
Fixpoint collapse_separators (in_run : bool) (s : jsstring) : jsstring :=
  match s with
  | [] => []
  | c :: rest =>
      if isSeparator c
      then if in_run then collapse_separators true rest
           else hyphen :: collapse_separators true rest
      else c :: collapse_separators false rest
  end.

Fixpoint drop_hyphens (s : jsstring) : jsstring :=
  match s with
  | c :: rest => if (c =? hyphen)%N then drop_hyphens rest else s
  | [] => []
  end.

(** [s.replace(/^-+|-+$/g, '')]: the hyphens at the head and those at
    the end go. *)
Definition strip_hyphens (s : jsstring) : jsstring :=
  rev (drop_hyphens (rev (drop_hyphens s))).

Definition slugBase (h : SlugHost) (base : jsstring) : jsstring :=
  or_else
    (strip_hyphens
       (collapse_separators false (remove_unsafe (trim (toLowerCase h base)))))
    (lit "project").

(** The slug tried when the counter has the given value, from 1 on:
    [`${slugBase}-${counter}`]. *)
Definition numbered (slugBase : jsstring) (counter : N) : jsstring :=
  (slugBase ++ lit "-" ++ lit (pretty counter))%list.

(** The [while] loop, for a number of turns. *)
Fixpoint slug_loop (turns : nat) (h : SlugHost) (slugBase : jsstring)
         (counter : N) (slug : jsstring) : option jsstring :=
  match turns with
  | O => None
  | S turns' =>
      if findBySlug h slug
      then slug_loop turns' h slugBase (counter + 1)
                     (numbered slugBase (counter + 1))
      else Some slug
  end.

(** [generateUniqueSlug(base)]; [None] when the loop is still running
    after the given number of turns. *)
Definition generateUniqueSlug (turns : nat) (h : SlugHost) (base : jsstring)
  : option jsstring :=
  slug_loop turns h (slugBase h base) 0 (slugBase h base).

End ProjectSlug.

(** * The terminal route ([app/api/projects/[id]/terminal/route.ts]),
    with the parts of [lib/errors.ts], [lib/api-error.ts] and
    [services/project/project.service.ts] that it runs *)

Module TerminalRoute.
Import DockerTerminalService DockerTerminalShortcuts.

(** What the [catch] of a route can receive, by class: an [AppError] (or
    one of its subclasses) with its code, message and status code, a
    [ZodError], another [Error], or a value that is not an [Error]. *)
Inductive Caught :=
| AppError (code message : jsstring) (statusCode : Z)
| ZodError (message : jsstring)
| OtherError (message : jsstring)
| NotAnError.

Definition ValidationError (message : jsstring) : Caught :=
  AppError (lit "VALIDATION_ERROR") message 400.

Definition NotFoundError (resource : jsstring) : Caught :=
  AppError (lit "NOT_FOUND") (resource ++ lit " not found")%list 404.

(** The JSON response: its status, and the [success], [error] and [data]
    members of its body. *)
Record Response := mkResponse {
  status : Z;
  success : bool;
  error : option (jsstring * jsstring);
  data : option TerminalExecResult
}.

Definition error_response (statusCode : Z) (code message : jsstring)
  : Response :=
  {| status := statusCode; success := false;
     error := Some (code, message); data := None |}.

(** [handleApiError(error)]; the [details] of the validation response
    and the [console.error] of the last case are left out. *)
Definition handleApiError (error : Caught) : Response :=
  match error with
  | AppError code message statusCode => error_response statusCode code message
  | ZodError _ =>
      error_response 400 (lit "VALIDATION_ERROR") (lit "Validation failed")
  | _ =>
      error_response 500 (lit "INTERNAL_ERROR")
                     (lit "An unexpected error occurred")
  end.

(** The JSON body of the request, as the schema sees it: its [command]
    member is a string, or the body has another shape, for which the
    first issue of the validation library carries a message or not. *)
Inductive Body :=
| CommandString (command : jsstring)
| OtherBody (first_issue_message : option jsstring).

(** [terminalCommandSchema.safeParse(body)], followed by the [throw] of
    the route when it fails. *)
Definition parse_command (body : Body) : Settled Caught jsstring :=
  match body with
  | CommandString command =>
      if (length command <? 1)%nat
      then Throw (ValidationError (lit "Command is required"))
      else if (1000 <? length command)%nat
      then Throw (ValidationError (lit "Command too long"))
      else Ok command
  | OtherBody (Some message) => Throw (ValidationError message)
  | OtherBody None => Throw (ValidationError (lit "Invalid input"))
  end.

(** What the route reads: the outcome of [getSession] (the user id of
    the session), the id of the path, the outcome of [req.json()], and
    the outcome of [findByIdWithDeployments]: the project and the status
    of its latest deployments, newest first. *)
Record Request := mkRequest {
  session : Settled Caught string;
  params_id : string;
  json : Settled Caught Body;
  findByIdWithDeployments :
    string -> Settled Caught (option (Project * list DeploymentStatus))
}.

(** [projectService.getByIdWithDeployments(id, userId)] *)
Definition getByIdWithDeployments (req : Request) (id uid : string)
  : Settled Caught (Project * list DeploymentStatus) :=
  match findByIdWithDeployments req id with
  | Throw err => Throw err
  | Ok None => Throw (NotFoundError (lit "Project"))
  | Ok (Some project) =>
      if negb (bool_decide (userId (fst project) = uid))
      then Throw (NotFoundError (lit "Project"))
      else Ok project
  end.

(** A step of the route that calls nothing outside. *)
Definition step {A} (outcome : Settled Caught A)
  : Trace GatewayCall Caught A := ([], outcome).

(** A call of the terminal service: what it throws is an [Error]. *)
Definition terminal {A} (t : Trace GatewayCall TerminalError A)
  : Trace GatewayCall Caught A :=
  (fst t, match snd t with
          | Ok a => Ok a
          | Throw err => Throw (OtherError (error_message err))
          end).

(** The [try] block of [POST]. *)
Definition POST_try (rt : Codec) (e : LogsEngine) (req : Request)
  : Trace GatewayCall Caught TerminalExecResult :=
  andThen (step (session req)) (fun uid =>
  andThen (step (json req)) (fun body =>
  andThen (step (parse_command body)) (fun command =>
  andThen (step (getByIdWithDeployments req (params_id req) uid))
          (fun project =>
  match head (snd project) with
  | Some DEPLOYED =>
      let containerName := lit ("dropdeploy-" ++ slug (fst project)) in
      if startsWith command (lit "/")
      then terminal (executeSlashCommand rt e containerName command)
      else terminal (lift (executeCommand (engine e) containerName command))
  | _ =>
      fail (AppError (lit "NOT_DEPLOYED")
                     (lit "Project is not currently deployed") 400)
  end)))).

(** [POST(req, { params })]: the calls made to the engine, and the
    response. *)
Definition POST (rt : Codec) (e : LogsEngine) (req : Request)
  : list GatewayCall * Response :=
  let attempt := POST_try rt e req in
  (fst attempt,
   match snd attempt with
   | Ok result =>
       {| status := 200; success := true; error := None;
          data := Some result |}
   | Throw (ZodError message) | Throw (OtherError message) =>
       error_response 400 (lit "TERMINAL_ERROR") message
   | Throw err => handleApiError err
   end).

End TerminalRoute.

(** ** Vocabulary for the runs of the pipeline *)

Module Scenario.

(** The store after the row [id] has been replaced by [d]. *)
Definition put_deployment (id : string) (d : Deployment) (s : Store) : Store :=
  {| projects := projects s; deployments := <[id := d]> (deployments s) |}.

(** The store after [clearSubdomainForOtherDeployments]. *)
Definition cleared (pid sub exclude : string) (s : Store) : Store :=
  {| projects := projects s;
     deployments :=
       map_imap (fun id d => Some (if clear_matches pid sub exclude id d
                                   then clear_subdomain d else d))
                (deployments s) |}.

(** The error of the first pipeline step that throws (clone, image build,
    container start), if any does. *)
Definition step_failure (c : Collaborators) (p : Project) : option Thrown :=
  match git_ensureRepo c (default "" (githubUrl p)) (slug p) (branch p) with
  | Throw e => Some e
  | Ok workDir =>
      match docker_buildImage c p workDir with
      | Throw e => Some e
      | Ok imageName =>
          match docker_runContainer c imageName (type p)
                                    ("dropdeploy-" ++ slug p) with
          | Throw e => Some e
          | Ok _ => None
          end
      end
  end.

(** The row of the deployment at the successive writes of a run. *)
Definition cloning (d : Deployment) (t : Z) : Deployment :=
  apply_update d (mkUpdate (Some BUILDING) None None (Some (Some CLONING))
                           (Some (Some t)) None).
Definition building_image (d : Deployment) (t : Z) : Deployment :=
  apply_update (cloning d t)
               (mkUpdate None None None (Some (Some BUILDING_IMAGE)) None None).
Definition starting (d : Deployment) (t : Z) : Deployment :=
  apply_update (building_image d t)
               (mkUpdate None None None (Some (Some STARTING)) None None).
Definition deployed (d : Deployment) (port : Z) (sub : string) (t : Z)
  : Deployment :=
  apply_update d (mkUpdate (Some DEPLOYED) (Some (Some port)) (Some (Some sub))
                           (Some None) None (Some (Some t))).
Definition failed (d : Deployment) (t : Z) : Deployment :=
  apply_update d (mkUpdate (Some FAILED) None None (Some None) None
                           (Some (Some t))).

(** The stores at the successive writes of a run on row [id]. *)
Definition s_cloning (id : string) (d : Deployment) (t : Z) (s : Store) : Store :=
  put_deployment id (cloning d t) s.
Definition s_building_image (id : string) (d : Deployment) (t : Z) (s : Store)
  : Store :=
  put_deployment id (building_image d t) (s_cloning id d t s).
Definition s_starting (id : string) (d : Deployment) (t : Z) (s : Store) : Store :=
  put_deployment id (starting d t) (s_building_image id d t s).
Definition s_cleared (id : string) (d : Deployment) (t : Z) (sub : string)
           (s : Store) : Store :=
  cleared (projectId d) sub id (s_starting id d t s).

(** The row that [createDeployment] persists. *)
Definition queued (pid : string) : Deployment :=
  {| projectId := pid; status := QUEUED; buildStep := None;
     containerPort := None; subdomain := None; logs := None;
     startedAt := None; completedAt := None |}.

(** Row [i] is a deployment of project [pid] that holds subdomain [sub]. *)
Definition holds (s : Store) (pid sub : string) (i : string) : Prop :=
  exists d, deployments s !! i = Some d /\ projectId d = pid /\
            subdomain d = Some sub.

(** Invariant (a) of the data model, for the canonical subdomain: of the
    deployments of one project, at most one holds the project's slug. *)
Definition subdomain_unique (s : Store) : Prop :=
  forall pid p i j di dj,
    projects s !! pid = Some p ->
    deployments s !! i = Some di ->
    deployments s !! j = Some dj ->
    projectId di = pid -> projectId dj = pid ->
    subdomain di = Some (slug p) -> subdomain dj = Some (slug p) ->
    i = j.

(** The same property as a check that runs on a store. *)
Definition holds_b (pid sub : string) (d : Deployment) : bool :=
  bool_decide (projectId d = pid) && bool_decide (subdomain d = Some sub).

Definition subdomain_unique_b (s : Store) : bool :=
  let rows := map_to_list (deployments s) in
  forallb (fun proj : string * Project =>
    forallb (fun r1 : string * Deployment =>
      forallb (fun r2 : string * Deployment =>
        implb (holds_b (fst proj) (slug (snd proj)) (snd r1)
               && holds_b (fst proj) (slug (snd proj)) (snd r2))
              (bool_decide (fst r1 = fst r2)))
        rows) rows)
    (map_to_list (projects s)).

(** Invariant (b) of the data model. *)
Definition completedAt_iff_terminal (d : Deployment) : Prop :=
  completedAt d <> None <-> (status d = DEPLOYED \/ status d = FAILED).

(** The operations of the orchestrator, each with the answers its
    collaborators give during the call. *)
Inductive Operation :=
| CreateDeployment (c : Collaborators) (pid uid : string)
| BuildAndDeploy (c : Collaborators) (id : string).

(** The stores committed by one operation started in [s], [s] first. *)
Definition op_snapshots (op : Operation) (s : Store) : list Store :=
  match op with
  | CreateDeployment c pid uid => snapshots s (createDeployment c pid uid s)
  | BuildAndDeploy c id => snapshots s (buildAndDeploy c id s)
  end.

Definition op_final (op : Operation) (s : Store) : Store :=
  match op with
  | CreateDeployment c pid uid => final (createDeployment c pid uid s)
  | BuildAndDeploy c id => final (buildAndDeploy c id s)
  end.

(** Every store committed while a sequence of operations runs one after
    the other from [s]. *)
Fixpoint history (ops : list Operation) (s : Store) : list Store :=
  match ops with
  | [] => [s]
  | op :: rest => (op_snapshots op s ++ history rest (op_final op s))%list
  end.

End Scenario.
Export Scenario.

(** ** Sample data *)

Module Sample.

Definition site : Project :=
  {| userId := "user-1"; name := "Site"; slug := "site";
     githubUrl := Some "https://git.example.test/u/site.git";
     type := "STATIC"; branch := "main" |}.

(** A project row whose repository URL is null. *)
Definition no_repo : Project :=
  {| userId := "user-1"; name := "Blank"; slug := "blank";
     githubUrl := None; type := "STATIC"; branch := "main" |}.

Definition store0 : Store :=
  {| projects := <["proj-1" := site]> (<["proj-2" := no_repo]> ∅);
     deployments := ∅ |}.

(** Every collaborator answers; the queue accepts the job. *)
Definition all_ok : Collaborators :=
  {| queue_add := fun _ _ => Ok "job-1";
     git_ensureRepo := fun _ _ _ => Ok "/srv/projects/site";
     docker_buildImage := fun _ _ => Ok "dropdeploy/site:latest";
     docker_runContainer := fun _ _ _ => Ok 8123;
     date_started := 1000;
     date_completed := 2000;
     generated_id := "dep-1" |}.

(** The clone step throws. *)
Definition clone_fails : Collaborators :=
  {| queue_add := fun _ _ => Ok "job-1";
     git_ensureRepo := fun _ _ _ => Throw (Error "fatal: repository not found");
     docker_buildImage := fun _ _ => Ok "dropdeploy/site:latest";
     docker_runContainer := fun _ _ _ => Ok 8123;
     date_started := 1000;
     date_completed := 2000;
     generated_id := "dep-1" |}.

(** What the queue client throws when the backend refuses the
    connection. *)
Definition refused : Thrown :=
  {| isAggregateError := false; code := Some "ECONNREFUSED";
     message := Some "connect ECONNREFUSED 127.0.0.1:6379" |}.

Definition queue_down : Collaborators :=
  {| queue_add := fun _ _ => Throw refused;
     git_ensureRepo := fun _ _ _ => Ok "/srv/projects/site";
     docker_buildImage := fun _ _ => Ok "dropdeploy/site:latest";
     docker_runContainer := fun _ _ _ => Ok 8123;
     date_started := 1000;
     date_completed := 2000;
     generated_id := "dep-1" |}.

(** [store0] with one queued deployment of [site]. *)
Definition store1 : Store := put_deployment "dep-1" (queued "proj-1") store0.

(** A store in which an earlier deployment of [site] is live and a second
    one is queued. *)
Definition store2 : Store :=
  put_deployment "dep-2" (queued "proj-1")
    (put_deployment "dep-1"
       (deployed (starting (queued "proj-1") 500) 8042 "site" 900) store0).

Definition second_deploy : Collaborators :=
  {| queue_add := fun _ _ => Ok "job-2";
     git_ensureRepo := fun _ _ _ => Ok "/srv/projects/site";
     docker_buildImage := fun _ _ => Ok "dropdeploy/site:latest";
     docker_runContainer := fun _ _ _ => Ok 9001;
     date_started := 3000;
     date_completed := 4000;
     generated_id := "dep-2" |}.

End Sample.

(** ** Vocabulary for the container adapter *)

Module DockerFacts.

(** A host port is free when no socket of the machine is bound to it. *)
Definition port_free (bound : gset Z) (port : Z) : Prop := port ∉ bound.

(** The project types of the recipe catalog. *)
Definition known_types : list string := ["STATIC"; "NODEJS"; "NEXTJS"; "DJANGO"].

(** The name of the image [buildImage] builds for a project. *)
Definition image_of (project : Project) : string :=
  "dropdeploy/" ++ slug project ++ ":latest".

(** The container configurations passed to [createContainer] in a run. *)
Definition created (calls : list Call) : list ContainerConfig :=
  omap (fun c => match c with CreateContainer cfg => Some cfg | _ => None end)
       calls.


End DockerFacts.
Export DockerFacts.

Module DockerSample.

(** A machine on which every call succeeds and the random draw is 0. *)
Definition host0 : DockerService.Host :=
  {| fs_writeFile := fun _ _ => Ok tt;
     patchNextConfig := fun _ => Ok tt;
     engine_buildImage := fun _ _ => Ok (ProgressDone []);
     image_inspect := fun _ => true;
     container_inspect := fun _ => None;
     container_stop := fun _ => Ok tt;
     container_remove := fun _ => Ok tt;
     math_random := 0;
     engine_createContainer := fun _ => Ok tt;
     container_start := Ok tt |}.

(** A machine on which the build stream ends without an error chunk but no
    image exists afterwards. *)
Definition no_image : DockerService.Host :=
  {| fs_writeFile := fun _ _ => Ok tt;
     patchNextConfig := fun _ => Ok tt;
     engine_buildImage := fun _ _ =>
       Ok (ProgressDone [mkChunk (Some "Step 1/7 : FROM node:22-alpine") None None]);
     image_inspect := fun _ => false;
     container_inspect := fun _ => None;
     container_stop := fun _ => Ok tt;
     container_remove := fun _ => Ok tt;
     math_random := 0;
     engine_createContainer := fun _ => Ok tt;
     container_start := Ok tt |}.

Definition node_app : Project :=
  {| userId := "user-1"; name := "Api"; slug := "api";
     githubUrl := Some "https://git.example.test/u/api.git";
     type := "NODEJS"; branch := "main" |}.


(** Port 8000 is taken, for instance by a container deployed earlier. *)
Definition bound_ports : gset Z := {[ 8000 ]}.

End DockerSample.

(** ** Vocabulary for the repository manager *)

Module GitFacts.
Import GitService.




End GitFacts.

Module GitSample.
Import GitService.


End GitSample.

(** ** Vocabulary for the command gateway *)

Module TerminalFacts.
Import DockerTerminalService.

(** The first whitespace-delimited token of a command, as
    [validateCommand] reads it. *)
Definition first_token (command : jsstring) : option jsstring :=
  head (split_whitespace (trim command)).

Fixpoint is_prefix (needle hay : jsstring) : bool :=
  match needle, hay with
  | [], _ => true
  | _ :: _, [] => false
  | x :: needle', y :: hay' => (x =? y)%N && is_prefix needle' hay'
  end.

(** [hay.includes(needle)] *)
Fixpoint is_infix (needle hay : jsstring) : bool :=
  is_prefix needle hay
  || match hay with
     | [] => false
     | _ :: hay' => is_infix needle hay'
     end.


(** The [Cmd] arrays of the execs created in a run. *)
Definition exec_commands (calls : list EngineCall) : list (list jsstring) :=
  omap (fun c => match c with ExecCreate _ cmd => Some cmd | _ => None end)
       calls.


End TerminalFacts.

Module TerminalSample.
Import DockerTerminalService.

(** An engine with the named container running; the command prints one
    line and exits with 0. *)
Definition running : Engine :=
  {| container_inspect := fun _ => Some true;
     listContainers := Ok [];
     exec_create := fun _ _ => Ok tt;
     exec_start := Ok tt;
     stream := StreamEnd (lit "total 0") [] (Some (Some 0)) |}.

End TerminalSample.

(** ** Vocabulary for the frame and progress of a run *)

Module Frame.

(** What a run on row [id] may do to the store: the project table is kept,
    no row appears or disappears, no row changes its project or its logs,
    and a row other than [id] changes at most by losing its subdomain. *)
Definition touches_only (id : string) (s s' : Store) : Prop :=
  projects s' = projects s /\
  forall j,
    match deployments s !! j, deployments s' !! j with
    | None, None => True
    | Some dj, Some dj' =>
        projectId dj' = projectId dj /\ logs dj' = logs dj /\
        (j <> id -> dj' = dj \/ dj' = clear_subdomain dj)
    | _, _ => False
    end.

(** The status and build step of row [id] in a store. *)
Definition marker (id : string) (s : Store)
  : option (DeploymentStatus * option BuildStep) :=
  (fun d => (status d, buildStep d)) <$> deployments s !! id.

(** The successive markers of row [id] at the writes of a run. *)
Definition progress {A} (id : string) (r : Run A)
  : list (option (DeploymentStatus * option BuildStep)) :=
  omap (fun ev => match ev with
                  | EvWrite s' => Some (marker id s')
                  | EvWarn _ => None
                  end) (events r).

End Frame.
Export Frame.

Module DockerSampleMore.

(** A machine on which a container of the same name is running and the
    attempt to stop it fails; the random draw is one half. *)
Definition stop_fails : DockerService.Host :=
  {| fs_writeFile := fun _ _ => Ok tt;
     patchNextConfig := fun _ => Ok tt;
     engine_buildImage := fun _ _ => Ok (ProgressDone []);
     image_inspect := fun _ => true;
     container_inspect := fun _ => Some true;
     container_stop := fun _ => Throw (Error "cannot stop container");
     container_remove := fun _ => Ok tt;
     math_random := 2 ^ 52;
     engine_createContainer := fun _ => Ok tt;
     container_start := Ok tt |}.

(** A machine on which the build stream carries an error chunk. *)
Definition build_breaks : DockerService.Host :=
  {| fs_writeFile := fun _ _ => Ok tt;
     patchNextConfig := fun _ => Ok tt;
     engine_buildImage := fun _ _ =>
       Ok (ProgressDone
             [ mkChunk (Some "Step 4/7 : RUN npm install --omit=dev") None None;
               mkChunk None (Some "npm ERR! code E404") None ]);
     image_inspect := fun _ => false;
     container_inspect := fun _ => None;
     container_stop := fun _ => Ok tt;
     container_remove := fun _ => Ok tt;
     math_random := 0;
     engine_createContainer := fun _ => Ok tt;
     container_start := Ok tt |}.

End DockerSampleMore.

(** ** Vocabulary for the log stream of the engine *)

Module LogFrames.
Import DockerTerminalService DockerTerminalShortcuts.

(** A number below [2^32] as four bytes, most significant first. *)
Definition be32 (n : N) : bytes :=
  [ (n / 16777216) mod 256; (n / 65536) mod 256; (n / 256) mod 256;
    n mod 256 ]%N.

(** A frame of the engine's multiplexed stream: the stream kind ([1] for
    stdout, [2] for stderr), three zero bytes, the length of the payload
    on four bytes, the payload. *)
Definition frame (f : N * bytes) : bytes :=
  ([fst f; 0; 0; 0]%N ++ be32 (N.of_nat (length (snd f))) ++ snd f)%list.

(** A sequence of frames on the wire. *)
Definition frames (fs : list (N * bytes)) : bytes :=
  concat (map frame fs).

(** The decoded payloads of the frames that go to stderr ([kind = 2]) or
    to stdout (any other kind). *)
Definition payloads (rt : Codec) (to_stderr : bool) (fs : list (N * bytes))
  : list jsstring :=
  map (fun f => toString_utf8 rt (snd f))
      (List.filter (fun f => Bool.eqb (N.eqb (fst f) 2) to_stderr) fs).

End LogFrames.

(** ** Vocabulary for the shortcuts of the gateway *)

Module ShortcutFacts.
Import DockerTerminalService DockerTerminalShortcuts.

(** A call of the gateway passes only fixed text to the engine: an exec
    runs one of the two registered shell commands, a logs call asks for
    the last 500 or 100 lines. *)
Definition fixed_call (c : GatewayCall) : Prop :=
  match c with
  | Exec (ExecCreate _ cmd) =>
      cmd = [lit "/bin/sh"; lit "-c"; lit "env | sort"]
      \/ cmd = [lit "/bin/sh"; lit "-c"; lit "ls -la"]
  | ContainerLogs _ tail => tail = Some 500 \/ tail = Some 100
  | Exec _ => True
  end.

(** A call of the gateway that creates an exec. *)
Definition is_exec (c : GatewayCall) : bool :=
  match c with
  | Exec (ExecCreate _ _) => true
  | _ => false
  end.

(** An exec is created in the container [c] only. *)
Definition exec_in (e : Engine) (c : EngineCall) : Prop :=
  match c with
  | ExecCreate container _ => container_inspect e container = Some true
  | _ => True
  end.

End ShortcutFacts.

Module ShortcutSample.
Import DockerTerminalService DockerTerminalShortcuts LogFrames.

(** A codec for buffers of ASCII text: one byte, one code unit. *)
Definition ascii_codec : Codec :=
  {| toString_utf8 := fun b => b; Buffer_from := fun s => s |}.

Definition log_frames : list (N * bytes) :=
  [ (1%N, lit "listening on 3000 ");
    (2%N, lit "warn: no config");
    (1%N, lit "GET / 200") ].

(** An engine whose named container is running and whose log stream
    carries three frames and a cut-off fourth. *)
Definition with_logs : LogsEngine :=
  {| engine := TerminalSample.running;
     container_logs := fun _ _ =>
       Ok (LogsBuffer (frames log_frames ++ [1; 0; 0]%N)%list) |}.

(** An engine whose log stream is one well-formed frame with an empty
    payload: 8 bytes. *)
Definition empty_frame_logs : LogsEngine :=
  {| engine := TerminalSample.running;
     container_logs := fun _ _ => Ok (LogsBuffer (frame (1%N, []))) |}.

(** An engine whose named container has stopped but still has logs. *)
Definition stopped_with_logs : LogsEngine :=
  {| engine :=
       {| container_inspect := fun _ => Some false;
          listContainers := Ok [];
          exec_create := fun _ _ => Ok tt;
          exec_start := Ok tt;
          stream := TimerFired |};
     container_logs := fun _ _ => Ok (LogsString (lit "exited with code 1")) |}.

(** An engine that knows the container by its image only, under the id
    [4f2a]. *)
Definition by_image : Engine :=
  {| container_inspect := fun c =>
       if jsstring_eqb c (lit "4f2a") then Some true else None;
     listContainers :=
       Ok [ {| Id := lit "9c1d"; info_Image := lit "postgres:16" |};
            {| Id := lit "4f2a"; info_Image := lit "dropdeploy/site:latest" |} ];
     exec_create := fun _ _ => Ok tt;
     exec_start := Ok tt;
     stream := StreamEnd (lit "total 0") [] None |}.

End ShortcutSample.

(** ** Vocabulary for the configuration patcher *)

Module PatcherFacts.
Import DockerTerminalService DockerTerminalShortcuts NextConfigPatcher.

(** The first of the candidate files, in the order of the list, that the
    context holds, with its text. *)
Fixpoint first_config (contextPath : string) (files : list string) (fs : Files)
  : option (string * jsstring) :=
  match files with
  | [] => None
  | file :: rest =>
      match fs !! path_join contextPath file with
      | Some content => Some (file, content)
      | None => first_config contextPath rest fs
      end
  end.

(** The text has a default export of the form the ESM branch looks for,
    [export default <identifier>], somewhere. *)
Fixpoint has_export_default (content : jsstring) : bool :=
  match match_export_default content with
  | Some _ => true
  | None =>
      match content with
      | [] => false
      | _ :: rest => has_export_default rest
      end
  end.

(** The files written in a run. *)
Definition written (calls : list FsCall) : list string :=
  omap (fun c => match c with WriteFile p _ => Some p | _ => None end) calls.

End PatcherFacts.

Module PatcherSample.
Import DockerTerminalService NextConfigPatcher.

(** A context whose only configuration is an ES module that exports an
    object literal. *)
Definition object_export : Files :=
  <[ "/ctx/next.config.mjs" :=
       lit "export default { reactStrictMode: true };" ]> ∅.

(** A context with a CommonJS configuration, and an ES module after it in
    the order of the candidates. *)
Definition commonjs : Files :=
  <[ "/ctx/next.config.js" := lit "module.exports = { images: {} };" ]>
  (<[ "/ctx/package.json" := lit "{}" ]> ∅).

End PatcherSample.

(** ** Vocabulary for the slugs of projects *)

Module SlugFacts.
Import DockerTerminalService DockerTerminalShortcuts NextConfigPatcher
       ProjectSlug.

(** A letter or a digit of ASCII, or a hyphen. *)
Definition isSlugChar (c : N) : bool :=
  isWordChar c && negb (c =? underscore)%N || (c =? hyphen)%N.

(** An upper-case letter of ASCII. *)
Definition isUpper (c : N) : bool := ((65 <=? c) && (c <=? 90))%N.

(** The text starts with a hyphen. *)
Definition starts_hyphen (s : jsstring) : bool :=
  match s with
  | c :: _ => (c =? hyphen)%N
  | [] => false
  end.

(** The slug the loop tries at a value of the counter: the base itself at
    0, the numbered slug from 1 on. *)
Definition tried (slugBase : jsstring) (counter : N) : jsstring :=
  if (counter =? 0)%N then slugBase else numbered slugBase counter.

End SlugFacts.

Module SlugSample.
Import DockerTerminalService ProjectSlug.

(** Lower-casing of the letters of ASCII. *)
Definition lower (s : jsstring) : jsstring :=
  map (fun c => if ((65 <=? c) && (c <=? 90))%N then (c + 32)%N else c) s.

Definition taken : list jsstring :=
  [ lit "my-app"; lit "my-app-1"; lit "my-app-3" ].

(** A table that holds the three slugs of [taken]. *)
Definition three_projects : SlugHost :=
  {| toLowerCase := lower;
     findBySlug := fun s => bool_decide (s ∈ taken) |}.

End SlugSample.

(** ** Vocabulary for the terminal route *)

Module RouteFacts.
Import DockerTerminalService DockerTerminalShortcuts TerminalFacts
       TerminalRoute.

(** What a call of the route may pass to the engine for a command: an
    exec runs the command itself, which then does not start with a slash
    and has an allowed first token, or one of the two commands of the
    registry; a logs call asks for the last 500 or 100 lines. *)
Definition permitted_call (command : jsstring) (c : GatewayCall) : Prop :=
  match c with
  | Exec (ExecCreate _ cmd) =>
      (cmd = [lit "/bin/sh"; lit "-c"; command] /\
       startsWith command (lit "/") = false /\
       exists base, first_token command = Some base /\ allowed base = true)
      \/ cmd = [lit "/bin/sh"; lit "-c"; lit "env | sort"]
      \/ cmd = [lit "/bin/sh"; lit "-c"; lit "ls -la"]
  | ContainerLogs _ tail => tail = Some 500 \/ tail = Some 100
  | Exec _ => True
  end.

End RouteFacts.

Module RouteSample.
Import DockerTerminalService DockerTerminalShortcuts TerminalRoute.

(** The owner of the deployed project [site] lists its files. *)
Definition list_files : Request :=
  {| session := Ok "user-1";
     params_id := "proj-1";
     json := Ok (CommandString (lit "ls -la /app"));
     findByIdWithDeployments := fun _ => Ok (Some (Sample.site, [DEPLOYED; FAILED])) |}.

End RouteSample.

(** * Properties *)

(** ** Laws of the effect monad *)

Section MonadLaws.
Context {A B : Type}.

Lemma bind_run (m : M A) (k : A -> M B) s evs s' a :
  m s = mkRun evs s' (Ok a) ->
  bind m k s = mkRun (evs ++ events (k a s')) (final (k a s')) (result (k a s')).
Proof. intros H. unfold bind. rewrite H. reflexivity. Qed.

Lemma bind_throw (m : M A) (k : A -> M B) s evs s' e :
  m s = mkRun evs s' (Throw e) ->
  bind m k s = mkRun evs s' (Throw e).
Proof. intros H. unfold bind. rewrite H. reflexivity. Qed.

Lemma try_catch_ok (body : M A) h s evs s' a :
  body s = mkRun evs s' (Ok a) ->
  try_catch body h s = mkRun evs s' (Ok a).
Proof. intros H. unfold try_catch. rewrite H. reflexivity. Qed.

Lemma try_catch_throw (body : M A) h s evs s' e :
  body s = mkRun evs s' (Throw e) ->
  try_catch body h s =
    mkRun (evs ++ events (h e s')) (final (h e s')) (result (h e s')).
Proof. intros H. unfold try_catch. rewrite H. reflexivity. Qed.

End MonadLaws.

(** ** The repository operations as store transformers *)

Lemma update_found id data s d :
  deployments s !! id = Some d ->
  update id data s =
    mkRun [EvWrite (put_deployment id (apply_update d data) s)]
          (put_deployment id (apply_update d data) s)
          (Ok (apply_update d data)).
Proof.
  intros H. unfold update, bind, get, write, ret. simpl. rewrite H. reflexivity.
Qed.

Lemma clear_run pid sub ex s :
  clearSubdomainForOtherDeployments pid sub ex s =
    mkRun [EvWrite (cleared pid sub ex s)] (cleared pid sub ex s) (Ok tt).
Proof. reflexivity. Qed.

Lemma put_deployment_lookup id d s :
  deployments (put_deployment id d s) !! id = Some d.
Proof. apply lookup_insert_eq. Qed.

Lemma put_deployment_lookup_ne id j d s :
  id <> j -> deployments (put_deployment id d s) !! j = deployments s !! j.
Proof. intros H. unfold put_deployment; simpl. by rewrite lookup_insert_ne. Qed.

Lemma cleared_lookup pid sub ex s j :
  deployments (cleared pid sub ex s) !! j =
    (fun d => if clear_matches pid sub ex j d then clear_subdomain d else d)
      <$> deployments s !! j.
Proof.
  unfold cleared; simpl. rewrite map_lookup_imap.
  destruct (deployments s !! j); reflexivity.
Qed.

Lemma cleared_lookup_excluded pid sub ex s :
  deployments (cleared pid sub ex s) !! ex = deployments s !! ex.
Proof.
  rewrite cleared_lookup.
  destruct (deployments s !! ex) as [d|]; simpl; [|reflexivity].
  unfold clear_matches. rewrite (bool_decide_eq_true_2 (ex = ex)) by reflexivity.
  rewrite andb_false_r. reflexivity.
Qed.

Lemma apply_update_logs d data : logs (apply_update d data) = logs d.
Proof. reflexivity. Qed.

Lemma apply_update_projectId d data : projectId (apply_update d data) = projectId d.
Proof. reflexivity. Qed.

(** ** The runs of [buildAndDeploy], by the first step that throws *)

Section Pipeline.
Variables (c : Collaborators) (id : string) (s : Store) (d : Deployment)
          (p : Project) (t : Z).
Hypothesis Hd : deployments s !! id = Some d.

Lemma pipeline_clone_fails e :
  git_ensureRepo c (default "" (githubUrl p)) (slug p) (branch p) = Throw e ->
  pipeline c id (projectId d) p t s =
    mkRun [EvWrite (s_cloning id d t s)] (s_cloning id d t s) (Throw e).
Proof.
  intros Hg. unfold pipeline.
  erewrite bind_run by (apply update_found; exact Hd).
  erewrite bind_throw by (unfold await; rewrite Hg; reflexivity).
  reflexivity.
Qed.

Lemma pipeline_build_fails w e :
  git_ensureRepo c (default "" (githubUrl p)) (slug p) (branch p) = Ok w ->
  docker_buildImage c p w = Throw e ->
  pipeline c id (projectId d) p t s =
    mkRun [EvWrite (s_cloning id d t s); EvWrite (s_building_image id d t s)]
          (s_building_image id d t s) (Throw e).
Proof.
  intros Hg Hb. unfold pipeline.
  erewrite bind_run by (apply update_found; exact Hd).
  erewrite bind_run by (unfold await; rewrite Hg; reflexivity).
  erewrite bind_run by (apply update_found; apply put_deployment_lookup).
  erewrite bind_throw by (unfold await; rewrite Hb; reflexivity).
  reflexivity.
Qed.

Lemma pipeline_run_fails w img e :
  git_ensureRepo c (default "" (githubUrl p)) (slug p) (branch p) = Ok w ->
  docker_buildImage c p w = Ok img ->
  docker_runContainer c img (type p) ("dropdeploy-" ++ slug p) = Throw e ->
  pipeline c id (projectId d) p t s =
    mkRun [EvWrite (s_cloning id d t s); EvWrite (s_building_image id d t s);
           EvWrite (s_starting id d t s)]
          (s_starting id d t s) (Throw e).
Proof.
  intros Hg Hb Hr. unfold pipeline.
  erewrite bind_run by (apply update_found; exact Hd).
  erewrite bind_run by (unfold await; rewrite Hg; reflexivity).
  erewrite bind_run by (apply update_found; apply put_deployment_lookup).
  erewrite bind_run by (unfold await; rewrite Hb; reflexivity).
  erewrite bind_run by (apply update_found; apply put_deployment_lookup).
  erewrite bind_throw by (unfold await; rewrite Hr; reflexivity).
  reflexivity.
Qed.

Lemma pipeline_succeeds w img port :
  git_ensureRepo c (default "" (githubUrl p)) (slug p) (branch p) = Ok w ->
  docker_buildImage c p w = Ok img ->
  docker_runContainer c img (type p) ("dropdeploy-" ++ slug p) = Ok port ->
  pipeline c id (projectId d) p t s =
    mkRun [EvWrite (s_cloning id d t s); EvWrite (s_building_image id d t s);
           EvWrite (s_starting id d t s);
           EvWrite (s_cleared id d t (slug p) s);
           EvWrite (put_deployment id
                      (deployed (starting d t) port (slug p) (date_completed c))
                      (s_cleared id d t (slug p) s))]
          (put_deployment id
             (deployed (starting d t) port (slug p) (date_completed c))
             (s_cleared id d t (slug p) s))
          (Ok tt).
Proof.
  intros Hg Hb Hr. unfold pipeline.
  erewrite bind_run by (apply update_found; exact Hd).
  erewrite bind_run by (unfold await; rewrite Hg; reflexivity).
  erewrite bind_run by (apply update_found; apply put_deployment_lookup).
  erewrite bind_run by (unfold await; rewrite Hb; reflexivity).
  erewrite bind_run by (apply update_found; apply put_deployment_lookup).
  erewrite bind_run by (unfold await; rewrite Hr; reflexivity).
  erewrite bind_run by apply clear_run.
  erewrite bind_run
    by (apply update_found; rewrite cleared_lookup_excluded;
        apply put_deployment_lookup).
  reflexivity.
Qed.

End Pipeline.

(** ** [buildAndDeploy] *)

Lemma run_eta {A} (r : Run A) : mkRun (events r) (final r) (result r) = r.
Proof. destruct r; reflexivity. Qed.

Lemma bind_silent {A B} (m : M A) (k : A -> M B) s a :
  m s = mkRun [] s (Ok a) -> bind m k s = k a s.
Proof. intros H. unfold bind. rewrite H. simpl. apply run_eta. Qed.

Lemma findByIdWithProject_found id s d p :
  deployments s !! id = Some d ->
  projects s !! projectId d = Some p ->
  findByIdWithProject id s = mkRun [] s (Ok (Some (d, (projectId d, p)))).
Proof.
  intros Hd Hp. unfold findByIdWithProject, bind, get, ret. simpl.
  rewrite Hd, Hp. reflexivity.
Qed.

Lemma buildAndDeploy_found c id s d p :
  deployments s !! id = Some d ->
  projects s !! projectId d = Some p ->
  truthy (githubUrl p) = true ->
  buildAndDeploy c id s =
    try_catch (pipeline c id (projectId d) p (date_started c))
              (on_failure c id) s.
Proof.
  intros Hd Hp Hu. unfold buildAndDeploy.
  erewrite bind_silent by (apply findByIdWithProject_found; eassumption).
  cbv beta iota. rewrite Hu. reflexivity.
Qed.

Lemma buildAndDeploy_no_repo c id s d p :
  deployments s !! id = Some d ->
  projects s !! projectId d = Some p ->
  truthy (githubUrl p) = false ->
  buildAndDeploy c id s =
    mkRun [EvWrite (put_deployment id
                      (apply_update d (mkUpdate (Some FAILED) None None None None None)) s)]
          (put_deployment id
             (apply_update d (mkUpdate (Some FAILED) None None None None None)) s)
          (Ok tt).
Proof.
  intros Hd Hp Hu. unfold buildAndDeploy.
  erewrite bind_silent by (apply findByIdWithProject_found; eassumption).
  cbv beta iota. rewrite Hu. change (negb false) with true. cbv iota.
  erewrite bind_run by (apply update_found; exact Hd).
  reflexivity.
Qed.

Lemma on_failure_run c id e s d :
  deployments s !! id = Some d ->
  on_failure c id e s =
    mkRun [EvWrite (put_deployment id (failed d (date_completed c)) s)]
          (put_deployment id (failed d (date_completed c)) s)
          (Throw e).
Proof.
  intros Hd. unfold on_failure.
  erewrite bind_run by (apply update_found; exact Hd).
  reflexivity.
Qed.

Lemma buildAndDeploy_succeeds c id s d p w img port :
  deployments s !! id = Some d ->
  projects s !! projectId d = Some p ->
  truthy (githubUrl p) = true ->
  git_ensureRepo c (default "" (githubUrl p)) (slug p) (branch p) = Ok w ->
  docker_buildImage c p w = Ok img ->
  docker_runContainer c img (type p) ("dropdeploy-" ++ slug p) = Ok port ->
  buildAndDeploy c id s =
    mkRun [EvWrite (s_cloning id d (date_started c) s);
           EvWrite (s_building_image id d (date_started c) s);
           EvWrite (s_starting id d (date_started c) s);
           EvWrite (s_cleared id d (date_started c) (slug p) s);
           EvWrite (put_deployment id
                      (deployed (starting d (date_started c)) port (slug p)
                                (date_completed c))
                      (s_cleared id d (date_started c) (slug p) s))]
          (put_deployment id
             (deployed (starting d (date_started c)) port (slug p)
                       (date_completed c))
             (s_cleared id d (date_started c) (slug p) s))
          (Ok tt).
Proof.
  intros Hd Hp Hu Hg Hb Hr.
  rewrite (buildAndDeploy_found c id s d p Hd Hp Hu).
  apply try_catch_ok. eapply pipeline_succeeds; eassumption.
Qed.

Lemma buildAndDeploy_failure_cases c p err :
  step_failure c p = Some err ->
  git_ensureRepo c (default "" (githubUrl p)) (slug p) (branch p) = Throw err
  \/ (exists w,
        git_ensureRepo c (default "" (githubUrl p)) (slug p) (branch p) = Ok w
        /\ docker_buildImage c p w = Throw err)
  \/ (exists w img,
        git_ensureRepo c (default "" (githubUrl p)) (slug p) (branch p) = Ok w
        /\ docker_buildImage c p w = Ok img
        /\ docker_runContainer c img (type p) ("dropdeploy-" ++ slug p) = Throw err).
Proof.
  unfold step_failure. intros H.
  destruct (git_ensureRepo c _ _ _) as [w|e] eqn:Hg.
  - destruct (docker_buildImage c p w) as [img|e] eqn:Hb.
    + destruct (docker_runContainer c img _ _) as [port|e] eqn:Hr; [discriminate|].
      inversion H; subst. right; right. eauto.
    + inversion H; subst. right; left. eauto.
  - inversion H; subst. left. reflexivity.
Qed.

(** The run of [buildAndDeploy] when a pipeline step throws. *)
Lemma buildAndDeploy_step_failure c id s d p err :
  deployments s !! id = Some d ->
  projects s !! projectId d = Some p ->
  truthy (githubUrl p) = true ->
  step_failure c p = Some err ->
  result (buildAndDeploy c id s) = Throw err /\
  exists d0,
    deployments (final (buildAndDeploy c id s)) !! id
      = Some (failed d0 (date_completed c)) /\
    logs d0 = logs d.
Proof.
  intros Hd Hp Hu Hf.
  rewrite (buildAndDeploy_found c id s d p Hd Hp Hu).
  destruct (buildAndDeploy_failure_cases c p err Hf)
    as [Hg | [(w & Hg & Hb) | (w & img & Hg & Hb & Hr)]].
  - erewrite try_catch_throw by (apply pipeline_clone_fails; eassumption).
    erewrite on_failure_run by apply put_deployment_lookup.
    simpl. split; [reflexivity|].
    eexists. split; [apply lookup_insert_eq|]. reflexivity.
  - erewrite try_catch_throw by (eapply pipeline_build_fails; eassumption).
    erewrite on_failure_run by apply put_deployment_lookup.
    simpl. split; [reflexivity|].
    eexists. split; [apply lookup_insert_eq|]. reflexivity.
  - erewrite try_catch_throw by (eapply pipeline_run_fails; eassumption).
    erewrite on_failure_run by apply put_deployment_lookup.
    simpl. split; [reflexivity|].
    eexists. split; [apply lookup_insert_eq|]. reflexivity.
Qed.

(** C1 (the code departs from the claim). When a pipeline step of
    [buildAndDeploy] throws (clone, image build or container start), the
    deployment ends with status FAILED, [buildStep] null and [completedAt]
    set, and the error is rethrown; but the [logs] column is left exactly
    as it was: the error message is not persisted. *)
Theorem buildAndDeploy_failure_marks_failed_but_keeps_logs c id s d p err :
  deployments s !! id = Some d ->
  projects s !! projectId d = Some p ->
  truthy (githubUrl p) = true ->
  step_failure c p = Some err ->
  result (buildAndDeploy c id s) = Throw err /\
  exists d',
    deployments (final (buildAndDeploy c id s)) !! id = Some d' /\
    status d' = FAILED /\
    buildStep d' = None /\
    completedAt d' = Some (date_completed c) /\
    logs d' = logs d.
Proof.
  intros Hd Hp Hu Hf.
  destruct (buildAndDeploy_step_failure c id s d p err Hd Hp Hu Hf)
    as (Hres & d0 & Hrow & Hlogs).
  split; [exact Hres|].
  exists (failed d0 (date_completed c)).
  split; [exact Hrow|]. repeat split. exact Hlogs.
Qed.

Lemma buildAndDeploy_failure_witness :
  result (buildAndDeploy Sample.clone_fails "dep-1" Sample.store1)
    = Throw (Error "fatal: repository not found") /\
  exists d',
    deployments (final (buildAndDeploy Sample.clone_fails "dep-1" Sample.store1))
      !! "dep-1" = Some d' /\
    status d' = FAILED /\
    buildStep d' = None /\
    completedAt d' = Some 2000 /\
    logs d' = None.
Proof.
  apply (buildAndDeploy_failure_marks_failed_but_keeps_logs
           Sample.clone_fails "dep-1" Sample.store1
           (queued "proj-1") Sample.site);
    reflexivity.
Defined.

(** ** [createDeployment] *)

Lemma create_fresh newId pid st s :
  deployments s !! newId = None ->
  create newId pid st s =
    mkRun [EvWrite (put_deployment newId
                      (mkDeployment pid st None None None None None None) s)]
          (put_deployment newId
             (mkDeployment pid st None None None None None None) s)
          (Ok (newId, mkDeployment pid st None None None None None None)).
Proof.
  intros H. unfold create. unfold bind at 1, get. simpl. rewrite H. reflexivity.
Qed.

Lemma createDeployment_owner c s pid p :
  projects s !! pid = Some p ->
  deployments s !! generated_id c = None ->
  createDeployment c pid (userId p) s =
    let s' := put_deployment (generated_id c) (queued pid) s in
    match queue_add c (generated_id c) pid with
    | Ok _ => mkRun [EvWrite s'] s' (Ok (generated_id c, queued pid))
    | Throw err =>
        if isConnectionError err
        then mkRun [EvWrite s'; EvWarn (queue_unavailable_warning (generated_id c))]
                   s' (Ok (generated_id c, queued pid))
        else mkRun [EvWrite s'] s' (Throw err)
    end.
Proof.
  intros Hp Hfresh. unfold createDeployment.
  erewrite bind_silent
    by (unfold findProjectById, bind, get, ret; simpl; rewrite Hp; reflexivity).
  cbv beta iota.
  rewrite (bool_decide_eq_true_2 (userId p = userId p)) by reflexivity.
  change (negb true) with false. cbv iota.
  erewrite bind_run by (apply create_fresh; exact Hfresh).
  unfold try_catch, bind, await, ret, warn, throw. simpl.
  destruct (queue_add c (generated_id c) pid) as [job|err]; simpl; [reflexivity|].
  destruct (isConnectionError err); reflexivity.
Qed.



(** C2 (the code departs from the claim). A deployment created for a
    project whose repository URL is empty and then processed by
    [buildAndDeploy] ends with status FAILED while [completedAt] is still
    null, whatever the queue answered at creation. *)
Theorem buildAndDeploy_without_repo_url_leaves_completedAt_null c1 c2 s pid p :
  projects s !! pid = Some p ->
  truthy (githubUrl p) = false ->
  deployments s !! generated_id c1 = None ->
  let s1 := final (createDeployment c1 pid (userId p) s) in
  let s2 := final (buildAndDeploy c2 (generated_id c1) s1) in
  exists d,
    deployments s2 !! generated_id c1 = Some d /\
    status d = FAILED /\ completedAt d = None /\
    ~ completedAt_iff_terminal d.
Proof.
  intros Hp Hu Hfresh s1 s2.
  assert (Hs1 : s1 = put_deployment (generated_id c1) (queued pid) s).
  { subst s1. rewrite (createDeployment_owner c1 s pid p Hp Hfresh). cbv zeta.
    destruct (queue_add c1 (generated_id c1) pid) as [job|err]; [reflexivity|].
    destruct (isConnectionError err); reflexivity. }
  subst s2. rewrite Hs1.
  erewrite buildAndDeploy_no_repo;
    [ | apply put_deployment_lookup | exact Hp | exact Hu ].
  simpl. eexists. split; [apply lookup_insert_eq|].
  split; [reflexivity|]. split; [reflexivity|].
  unfold completedAt_iff_terminal; simpl. intros [_ H].
  apply H; [right; reflexivity | reflexivity].
Qed.

Lemma buildAndDeploy_without_repo_url_witness :
  let s1 := final (createDeployment Sample.all_ok "proj-2" "user-1" Sample.store0) in
  let s2 := final (buildAndDeploy Sample.all_ok "dep-1" s1) in
  exists d,
    deployments s2 !! "dep-1" = Some d /\
    status d = FAILED /\ completedAt d = None /\
    ~ completedAt_iff_terminal d.
Proof.
  apply (buildAndDeploy_without_repo_url_leaves_completedAt_null
           Sample.all_ok Sample.all_ok Sample.store0 "proj-2" Sample.no_repo);
    reflexivity.
Defined.

(** On the other paths the invariant holds: a fresh deployment is QUEUED
    with [completedAt] null, and a run on a project that has a repository
    URL ends in DEPLOYED or FAILED with [completedAt] set. *)
Lemma queued_completedAt_iff_terminal pid : completedAt_iff_terminal (queued pid).
Proof.
  unfold completedAt_iff_terminal; simpl. split.
  - intros H. contradiction.
  - intros [H|H]; discriminate H.
Qed.

Lemma buildAndDeploy_with_repo_url_completedAt c id s d p :
  deployments s !! id = Some d ->
  projects s !! projectId d = Some p ->
  truthy (githubUrl p) = true ->
  exists d',
    deployments (final (buildAndDeploy c id s)) !! id = Some d' /\
    (status d' = DEPLOYED \/ status d' = FAILED) /\
    completedAt d' = Some (date_completed c) /\
    completedAt_iff_terminal d'.
Proof.
  intros Hd Hp Hu.
  assert (Hgoal : forall d', (status d' = DEPLOYED \/ status d' = FAILED) ->
                    completedAt d' = Some (date_completed c) ->
                    completedAt_iff_terminal d').
  { intros d' Hs Hc. unfold completedAt_iff_terminal. rewrite Hc.
    split; [intros _; exact Hs | intros _; discriminate]. }
  destruct (step_failure c p) as [err|] eqn:Hf.
  - destruct (buildAndDeploy_step_failure c id s d p err Hd Hp Hu Hf)
      as (_ & d0 & Hrow & _).
    exists (failed d0 (date_completed c)). split; [exact Hrow|].
    split; [right; reflexivity|]. split; [reflexivity|].
    apply Hgoal; [right; reflexivity | reflexivity].
  - unfold step_failure in Hf.
    destruct (git_ensureRepo c _ _ _) as [w|e] eqn:Hg; [|discriminate].
    destruct (docker_buildImage c p w) as [img|e] eqn:Hb; [|discriminate].
    destruct (docker_runContainer c img _ _) as [port|e] eqn:Hr; [|discriminate].
    erewrite buildAndDeploy_succeeds by eassumption.
    eexists. split; [apply put_deployment_lookup|].
    split; [left; reflexivity|]. split; [reflexivity|].
    apply Hgoal; [left; reflexivity | reflexivity].
Qed.

(** ** Ownership of the subdomain *)

Lemma subdomain_unique_holds s :
  subdomain_unique s <->
  (forall pid p i j, projects s !! pid = Some p ->
                     holds s pid (slug p) i -> holds s pid (slug p) j -> i = j).
Proof.
  split.
  - intros U pid p i j Hp (di & Hi & Hpi & Hsi) (dj & Hj & Hpj & Hsj).
    eapply U; eassumption.
  - intros U pid p i j di dj Hp Hi Hj Hpi Hpj Hsi Hsj.
    apply (U pid p i j Hp); [exists di | exists dj]; auto.
Qed.

(** Uniqueness survives any write that creates no new holder. *)
Lemma subdomain_unique_antitone s s' :
  projects s' = projects s ->
  (forall pid sub i, holds s' pid sub i -> holds s pid sub i) ->
  subdomain_unique s -> subdomain_unique s'.
Proof.
  intros Hpr Hh U. apply subdomain_unique_holds.
  intros pid p i j Hp Hi Hj. rewrite Hpr in Hp.
  pose proof (proj1 (subdomain_unique_holds _) U) as U'. eapply U'; eauto.
Qed.

Lemma holds_put_same id d d' s pid sub i :
  deployments s !! id = Some d ->
  projectId d' = projectId d ->
  subdomain d' = subdomain d ->
  holds (put_deployment id d' s) pid sub i -> holds s pid sub i.
Proof.
  intros Hd Hp Hs (x & Hx & Hpx & Hsx).
  destruct (decide (id = i)) as [->|Hne].
  - rewrite put_deployment_lookup in Hx. inversion Hx; subst x.
    exists d. rewrite <- Hp, <- Hs. auto.
  - rewrite put_deployment_lookup_ne in Hx by exact Hne. exists x. auto.
Qed.

Lemma holds_cleared pid0 sub0 ex s pid sub i :
  holds (cleared pid0 sub0 ex s) pid sub i -> holds s pid sub i.
Proof.
  intros (x & Hx & Hpx & Hsx). rewrite cleared_lookup in Hx.
  destruct (deployments s !! i) as [d|] eqn:Hd; simpl in Hx; [|discriminate].
  inversion Hx as [Hx']; clear Hx.
  destruct (clear_matches pid0 sub0 ex i d); subst x.
  - simpl in Hsx. discriminate.
  - exists d. auto.
Qed.

(** After the clearing, no deployment of the project other than the
    excluded one holds the subdomain. *)
Lemma cleared_no_other_holder pid sub ex s j :
  j <> ex -> ~ holds (cleared pid sub ex s) pid sub j.
Proof.
  intros Hne (x & Hx & Hpx & Hsx). rewrite cleared_lookup in Hx.
  destruct (deployments s !! j) as [d|] eqn:Hd; simpl in Hx; [|discriminate].
  inversion Hx as [Hx']; clear Hx.
  destruct (clear_matches pid sub ex j d) eqn:Hm; subst x.
  - simpl in Hsx. discriminate.
  - unfold clear_matches in Hm.
    rewrite (bool_decide_eq_true_2 _ Hpx), (bool_decide_eq_true_2 _ Hsx) in Hm.
    rewrite (bool_decide_eq_false_2 _ Hne) in Hm. discriminate.
Qed.

Lemma subdomain_unique_put_same id d d' s :
  deployments s !! id = Some d ->
  projectId d' = projectId d ->
  subdomain d' = subdomain d ->
  subdomain_unique s -> subdomain_unique (put_deployment id d' s).
Proof.
  intros Hd Hp Hs. apply subdomain_unique_antitone; [reflexivity|].
  intros pid sub i. eapply holds_put_same; eassumption.
Qed.

Lemma subdomain_unique_cleared pid sub ex s :
  subdomain_unique s -> subdomain_unique (cleared pid sub ex s).
Proof.
  apply subdomain_unique_antitone; [reflexivity|].
  intros pid' sub' i. apply holds_cleared.
Qed.

(** The row that claims the subdomain right after the clearing is its
    only holder. *)
Lemma subdomain_unique_claim id d' p s :
  projects s !! projectId d' = Some p ->
  subdomain d' = Some (slug p) ->
  subdomain_unique s ->
  subdomain_unique
    (put_deployment id d' (cleared (projectId d') (slug p) id s)).
Proof.
  intros Hp Hs U. apply subdomain_unique_holds.
  intros pid q i j Hq Hi Hj. simpl in Hq.
  assert (Hold : forall k, k <> id ->
            holds (put_deployment id d' (cleared (projectId d') (slug p) id s))
                  pid (slug q) k ->
            holds (cleared (projectId d') (slug p) id s) pid (slug q) k).
  { intros k Hk (x & Hx & Hpx & Hsx).
    rewrite put_deployment_lookup_ne in Hx by congruence. exists x. auto. }
  assert (Hnew : forall k, k <> id ->
            holds (put_deployment id d' (cleared (projectId d') (slug p) id s))
                  pid (slug q) id ->
            holds (put_deployment id d' (cleared (projectId d') (slug p) id s))
                  pid (slug q) k -> False).
  { intros k Hk (x & Hx & Hpx & Hsx) Hkh.
    rewrite put_deployment_lookup in Hx. inversion Hx; subst x.
    subst pid. rewrite Hp in Hq. inversion Hq; subst q.
    apply (cleared_no_other_holder (projectId d') (slug p) id s k Hk).
    apply Hold; assumption. }
  destruct (decide (i = id)) as [->|Hi'], (decide (j = id)) as [->|Hj'].
  - reflexivity.
  - exfalso. eapply Hnew; eassumption.
  - exfalso. eapply Hnew; eassumption.
  - pose proof (proj1 (subdomain_unique_holds _) U) as U'.
    apply (U' pid q i j Hq); apply (holds_cleared (projectId d') (slug p) id);
      apply Hold; assumption.
Qed.

Lemma buildAndDeploy_stale c id s :
  findByIdWithProject id s = mkRun [] s (Ok None) ->
  buildAndDeploy c id s = mkRun [EvWarn (stale_job_warning id)] s (Ok tt).
Proof.
  intros H. unfold buildAndDeploy. erewrite bind_silent by exact H. reflexivity.
Qed.

Lemma findByIdWithProject_cases id s :
  findByIdWithProject id s = mkRun [] s (Ok None) \/
  exists d p, deployments s !! id = Some d /\ projects s !! projectId d = Some p.
Proof.
  unfold findByIdWithProject, bind, get, ret; simpl.
  destruct (deployments s !! id) as [d|] eqn:Hd; [|left; reflexivity].
  destruct (projects s !! projectId d) as [p|] eqn:Hp; [|left; reflexivity].
  right. exists d, p. split; [reflexivity | exact Hp].
Qed.

Section Snapshots.
Variables (c : Collaborators) (id : string) (s : Store) (d : Deployment)
          (p : Project).
Hypothesis Hd : deployments s !! id = Some d.
Hypothesis Hp : projects s !! projectId d = Some p.
Hypothesis U : subdomain_unique s.

Lemma unique_s_cloning t : subdomain_unique (s_cloning id d t s).
Proof. apply (subdomain_unique_put_same id d); auto. Qed.

Lemma unique_s_building_image t : subdomain_unique (s_building_image id d t s).
Proof.
  apply (subdomain_unique_put_same id (cloning d t)).
  - apply put_deployment_lookup.
  - reflexivity.
  - reflexivity.
  - apply unique_s_cloning.
Qed.

Lemma unique_s_starting t : subdomain_unique (s_starting id d t s).
Proof.
  apply (subdomain_unique_put_same id (building_image d t)).
  - apply put_deployment_lookup.
  - reflexivity.
  - reflexivity.
  - apply unique_s_building_image.
Qed.

Lemma unique_s_cleared t sub : subdomain_unique (s_cleared id d t sub s).
Proof. apply subdomain_unique_cleared, unique_s_starting. Qed.

Lemma unique_failed s' d' t :
  deployments s' !! id = Some d' ->
  subdomain_unique s' ->
  subdomain_unique (put_deployment id (failed d' t) s').
Proof. intros H. apply (subdomain_unique_put_same id d'); auto. Qed.

Lemma unique_deployed t port tc :
  subdomain_unique
    (put_deployment id (deployed (starting d t) port (slug p) tc)
                    (s_cleared id d t (slug p) s)).
Proof.
  apply (subdomain_unique_claim id (deployed (starting d t) port (slug p) tc) p
                                (s_starting id d t s)).
  - exact Hp.
  - reflexivity.
  - apply unique_s_starting.
Qed.

End Snapshots.

(** The runs of [buildAndDeploy], case by case: a stale job, a project
    without repository URL, a failure at one of the three steps, or
    success.  Each case leaves the run as an explicit list of writes. *)
Ltac buildAndDeploy_cases c id s :=
  let d := fresh "d" in
  let p := fresh "p" in
  let Hnone := fresh "Hnone" in
  let Hd := fresh "Hd" in
  let Hp := fresh "Hp" in
  let Hu := fresh "Hu" in
  let Hg := fresh "Hg" in
  let Hb := fresh "Hb" in
  let Hr := fresh "Hr" in
  destruct (findByIdWithProject_cases id s) as [Hnone | (d & p & Hd & Hp)];
  [ rewrite (buildAndDeploy_stale c id s Hnone)
  | destruct (truthy (githubUrl p)) eqn:Hu;
    [ rewrite (buildAndDeploy_found c id s d p Hd Hp Hu);
      destruct (git_ensureRepo c (default "" (githubUrl p)) (slug p) (branch p))
        as [?w|?e] eqn:Hg;
      [ destruct (docker_buildImage c p w) as [?img|?e] eqn:Hb;
        [ destruct (docker_runContainer c img (type p) ("dropdeploy-" ++ slug p))
            as [?port|?e] eqn:Hr;
          [ erewrite try_catch_ok by (eapply pipeline_succeeds; eassumption)
          | erewrite try_catch_throw by (eapply pipeline_run_fails; eassumption);
            erewrite on_failure_run by apply put_deployment_lookup ]
        | erewrite try_catch_throw by (eapply pipeline_build_fails; eassumption);
          erewrite on_failure_run by apply put_deployment_lookup ]
      | erewrite try_catch_throw by (apply pipeline_clone_fails; eassumption);
        erewrite on_failure_run by apply put_deployment_lookup ]
    | rewrite (buildAndDeploy_no_repo c id s d p Hd Hp Hu) ] ].

Lemma buildAndDeploy_final_is_last_snapshot c id s :
  last (snapshots s (buildAndDeploy c id s)) = Some (final (buildAndDeploy c id s)).
Proof. buildAndDeploy_cases c id s; reflexivity. Qed.

(** Every store committed by a run of [buildAndDeploy] keeps the
    property. *)
Lemma buildAndDeploy_keeps_subdomain_unique c id s :
  subdomain_unique s ->
  Forall subdomain_unique (snapshots s (buildAndDeploy c id s)).
Proof.
  intros U.
  buildAndDeploy_cases c id s; repeat constructor;
    first
      [ exact U
      | apply unique_s_cloning; assumption
      | apply unique_s_building_image; assumption
      | apply unique_s_starting; assumption
      | apply unique_s_cleared; assumption
      | apply unique_deployed; assumption
      | apply (subdomain_unique_put_same id d); solve [auto]
      | apply unique_failed;
        [ apply put_deployment_lookup
        | first [ apply unique_s_cloning; assumption
                | apply unique_s_building_image; assumption
                | apply unique_s_starting; assumption ] ] ].
Qed.

(** C3. In a run of [buildAndDeploy] that starts from a store where at
    most one deployment of each project holds the project's slug, every
    store ever committed keeps that property; and when the three pipeline
    steps succeed, the write just before the one that marks the deployment
    DEPLOYED is the clearing: after it no other deployment of the project
    holds the slug, and the row being marked was left untouched by it. *)
Theorem subdomain_cleared_before_deployed c id s :
  subdomain_unique s ->
  Forall subdomain_unique (snapshots s (buildAndDeploy c id s)) /\
  (forall d p w img port,
     deployments s !! id = Some d ->
     projects s !! projectId d = Some p ->
     truthy (githubUrl p) = true ->
     git_ensureRepo c (default "" (githubUrl p)) (slug p) (branch p) = Ok w ->
     docker_buildImage c p w = Ok img ->
     docker_runContainer c img (type p) ("dropdeploy-" ++ slug p) = Ok port ->
     exists before s_prev s_clear d',
       events (buildAndDeploy c id s) =
         (before ++ [EvWrite s_prev; EvWrite s_clear;
                     EvWrite (final (buildAndDeploy c id s))])%list /\
       s_clear = final (clearSubdomainForOtherDeployments
                          (projectId d) (slug p) id s_prev) /\
       (forall j, j <> id -> ~ holds s_clear (projectId d) (slug p) j) /\
       deployments s_clear !! id = deployments s_prev !! id /\
       deployments (final (buildAndDeploy c id s)) !! id = Some d' /\
       status d' = DEPLOYED /\ subdomain d' = Some (slug p)).
Proof.
  intros U. split.
  - apply buildAndDeploy_keeps_subdomain_unique. exact U.
  - intros d p w img port Hd Hp Hu Hg Hb Hr.
    rewrite (buildAndDeploy_succeeds c id s d p w img port Hd Hp Hu Hg Hb Hr).
    exists [EvWrite (s_cloning id d (date_started c) s);
            EvWrite (s_building_image id d (date_started c) s)],
           (s_starting id d (date_started c) s),
           (s_cleared id d (date_started c) (slug p) s).
    eexists. split; [reflexivity|]. split; [reflexivity|].
    split; [intros j Hj; apply cleared_no_other_holder; exact Hj|].
    split; [apply cleared_lookup_excluded|].
    split; [apply put_deployment_lookup|]. split; reflexivity.
Qed.

Lemma subdomain_unique_b_sound s :
  subdomain_unique_b s = true -> subdomain_unique s.
Proof.
  unfold subdomain_unique_b. cbv zeta. intros H.
  intros pid p i j di dj Hp Hi Hj Hpi Hpj Hsi Hsj.
  rewrite forallb_forall in H.
  specialize (H (pid, p)). simpl in H.
  assert (Hin : In (pid, p) (map_to_list (projects s)))
    by (apply list_elem_of_In, elem_of_map_to_list; exact Hp).
  specialize (H Hin). rewrite forallb_forall in H.
  specialize (H (i, di)). simpl in H.
  assert (Hini : In (i, di) (map_to_list (deployments s)))
    by (apply list_elem_of_In, elem_of_map_to_list; exact Hi).
  specialize (H Hini). rewrite forallb_forall in H.
  specialize (H (j, dj)). simpl in H.
  assert (Hinj : In (j, dj) (map_to_list (deployments s)))
    by (apply list_elem_of_In, elem_of_map_to_list; exact Hj).
  specialize (H Hinj).
  unfold holds_b in H.
  rewrite !bool_decide_eq_true_2 in H by assumption. simpl in H.
  apply bool_decide_eq_true_1 in H. exact H.
Qed.

Lemma subdomain_cleared_before_deployed_witness :
  Forall subdomain_unique
    (snapshots Sample.store2
       (buildAndDeploy Sample.second_deploy "dep-2" Sample.store2)) /\
  exists before s_prev s_clear d',
    events (buildAndDeploy Sample.second_deploy "dep-2" Sample.store2) =
      (before ++ [EvWrite s_prev; EvWrite s_clear;
                  EvWrite (final (buildAndDeploy Sample.second_deploy "dep-2"
                                                 Sample.store2))])%list /\
    s_clear = final (clearSubdomainForOtherDeployments "proj-1" "site" "dep-2"
                                                       s_prev) /\
    (forall j, j <> "dep-2" -> ~ holds s_clear "proj-1" "site" j) /\
    deployments s_clear !! "dep-2" = deployments s_prev !! "dep-2" /\
    deployments (final (buildAndDeploy Sample.second_deploy "dep-2" Sample.store2))
      !! "dep-2" = Some d' /\
    status d' = DEPLOYED /\ subdomain d' = Some "site".
Proof.
  destruct (subdomain_cleared_before_deployed
              Sample.second_deploy "dep-2" Sample.store2) as [Hall Hclear].
  - apply subdomain_unique_b_sound. vm_compute. reflexivity.
  - split; [exact Hall|].
    apply (Hclear (queued "proj-1") Sample.site "/srv/projects/site"
                  "dropdeploy/site:latest" 9001); reflexivity.
Defined.

(** The second deployment of the sample project takes the subdomain over
    from the first. *)
Example second_deploy_transfers_subdomain :
  let s' := final (buildAndDeploy Sample.second_deploy "dep-2" Sample.store2) in
  subdomain <$> deployments Sample.store2 !! "dep-1" = Some (Some "site") /\
  subdomain <$> deployments s' !! "dep-1" = Some None /\
  subdomain <$> deployments s' !! "dep-2" = Some (Some "site") /\
  status <$> deployments s' !! "dep-2" = Some DEPLOYED.
Proof. vm_compute. repeat split. Qed.

(** Creating a deployment adds a row without subdomain, so the property
    also holds in every store that [createDeployment] commits. *)
Lemma createDeployment_keeps_subdomain_unique c pid uid s :
  subdomain_unique s ->
  Forall subdomain_unique (snapshots s (createDeployment c pid uid s)).
Proof.
  intros U. unfold createDeployment.
  destruct (projects s !! pid) as [p|] eqn:Hp.
  2:{ erewrite bind_silent
        by (unfold findProjectById, bind, get, ret; simpl; rewrite Hp; reflexivity).
      repeat constructor. exact U. }
  erewrite bind_silent
    by (unfold findProjectById, bind, get, ret; simpl; rewrite Hp; reflexivity).
  cbv beta iota.
  destruct (bool_decide (userId p = uid));
    [change (negb true) with false | change (negb false) with true]; cbv iota;
    [|repeat constructor; exact U].
  destruct (deployments s !! generated_id c) as [d|] eqn:Hfresh.
  - erewrite bind_throw
      by (unfold create, bind, get, throw; simpl; rewrite Hfresh; reflexivity).
    repeat constructor. exact U.
  - erewrite bind_run by (apply create_fresh; exact Hfresh).
    assert (U' : subdomain_unique
                   (put_deployment (generated_id c)
                      (mkDeployment pid QUEUED None None None None None None) s)).
    { revert U. apply subdomain_unique_antitone; [reflexivity|].
      intros pid' sub i (x & Hx & Hpx & Hsx).
      destruct (decide (generated_id c = i)) as [<-|Hne].
      - rewrite put_deployment_lookup in Hx. inversion Hx; subst x.
        discriminate Hsx.
      - rewrite put_deployment_lookup_ne in Hx by exact Hne. exists x. auto. }
    unfold try_catch, bind, await, ret, warn, throw. simpl.
    destruct (queue_add c (generated_id c) pid) as [job|err]; simpl.
    + repeat constructor; assumption.
    + destruct (isConnectionError err); simpl; repeat constructor; assumption.
Qed.

Lemma createDeployment_final_is_last_snapshot c pid uid s :
  last (snapshots s (createDeployment c pid uid s))
    = Some (final (createDeployment c pid uid s)).
Proof.
  unfold createDeployment.
  destruct (projects s !! pid) as [p|] eqn:Hp;
    erewrite bind_silent
      by (unfold findProjectById, bind, get, ret; simpl; rewrite Hp; reflexivity);
    [|reflexivity].
  cbv beta iota.
  destruct (bool_decide (userId p = uid));
    [change (negb true) with false | change (negb false) with true]; cbv iota;
    [|reflexivity].
  destruct (deployments s !! generated_id c) as [d|] eqn:Hfresh.
  - erewrite bind_throw
      by (unfold create, bind, get, throw; simpl; rewrite Hfresh; reflexivity).
    reflexivity.
  - erewrite bind_run by (apply create_fresh; exact Hfresh).
    unfold try_catch, bind, await, ret, warn, throw. simpl.
    destruct (queue_add c (generated_id c) pid) as [job|err]; simpl;
      [reflexivity|].
    destruct (isConnectionError err); reflexivity.
Qed.

Lemma Forall_last {A} (P : A -> Prop) (l : list A) x :
  Forall P l -> last l = Some x -> P x.
Proof.
  intros H Hl. rewrite Forall_forall in H. apply H.
  apply last_Some_elem_of. exact Hl.
Qed.

(** X8. The property is an invariant of the orchestrator: from a store
    that has it, it holds in every store committed by any sequence of
    [createDeployment] and [buildAndDeploy] calls that run one after the
    other, whatever their collaborators answer. *)
Lemma history_subdomain_unique ops s :
  subdomain_unique s -> Forall subdomain_unique (history ops s).
Proof.
  revert s. induction ops as [|op rest IH]; intros s U; simpl.
  - repeat constructor. exact U.
  - assert (Hop : Forall subdomain_unique (op_snapshots op s) /\
                  last (op_snapshots op s) = Some (op_final op s)).
    { destruct op as [c pid uid | c id]; simpl.
      - split; [apply createDeployment_keeps_subdomain_unique; exact U
               |apply createDeployment_final_is_last_snapshot].
      - split; [apply buildAndDeploy_keeps_subdomain_unique; exact U
               |apply buildAndDeploy_final_is_last_snapshot]. }
    destruct Hop as [Hsnaps Hlast].
    apply Forall_app. split; [exact Hsnaps|].
    apply IH. eapply Forall_last; eassumption.
Qed.

Lemma history_subdomain_unique_witness :
  Forall subdomain_unique
    (history [ CreateDeployment Sample.all_ok "proj-1" "user-1";
               BuildAndDeploy Sample.clone_fails "dep-1";
               BuildAndDeploy Sample.all_ok "dep-1";
               CreateDeployment Sample.second_deploy "proj-1" "user-1";
               BuildAndDeploy Sample.second_deploy "dep-2" ]
             Sample.store0).
Proof.
  apply history_subdomain_unique.
  apply subdomain_unique_b_sound. vm_compute. reflexivity.
Defined.

(** ** Host-port allocation *)

Lemma round_double_bounds p :
  0 <= p < 2 ^ 64 -> 0 <= round_double p <= p + 1024.
Proof.
  intros [Hp0 Hp64]. unfold round_double.
  destruct (Z.ltb_spec p (2 ^ 53)) as [Hlt|Hge]; [lia|].
  assert (Hpos : 0 < p) by lia.
  assert (Hlo : 53 <= Z.log2 p) by (apply Z.log2_le_pow2; lia).
  assert (Hhi : Z.log2 p < 64) by (apply Z.log2_lt_pow2; lia).
  set (e := Z.log2 p - 52).
  assert (He : 1 <= e <= 11) by (unfold e; lia).
  assert (Hu : 0 < 2 ^ e <= 2048).
  { split; [apply Z.pow_pos_nonneg; lia|].
    change 2048 with (2 ^ 11). apply Z.pow_le_mono_r; lia. }
  set (u := 2 ^ e) in *.
  pose proof (Z.div_mod p u ltac:(lia)) as Hdm.
  pose proof (Z.mod_pos_bound p u ltac:(lia)) as Hr.
  assert (Hq : 0 <= p / u) by (apply Z.div_pos; lia).
  assert (Hx : 0 <= u * (p / u)) by (apply Z.mul_nonneg_nonneg; lia).
  set (X := u * (p / u)) in *.
  destruct ((u <? 2 * (p mod u)) || ((u =? 2 * (p mod u)) && Z.odd (p / u))) eqn:Hup.
  - replace ((p / u + 1) * u) with (X + u) by (unfold X; ring).
    apply orb_true_iff in Hup as [Hup|Hup].
    + apply Z.ltb_lt in Hup. lia.
    + apply andb_true_iff in Hup as [Hup _]. apply Z.eqb_eq in Hup. lia.
  - replace (p / u * u) with X by (unfold X; ring). lia.
Qed.

(** X10. Every port the allocation routine returns lies in [8000, 9999],
    for every value of [Math.random()] of the form [m / 2^53] with
    [0 <= m < 2^53], the rounding of the floating-point product included. *)
Lemma findAvailablePort_in_range h :
  0 <= math_random h < 2 ^ 53 ->
  8000 <= findAvailablePort h <= 9999.
Proof.
  intros Hm. unfold findAvailablePort, floor_random_times. cbv zeta.
  assert (Hp : 0 <= math_random h * 2000 < 2 ^ 64) by lia.
  pose proof (round_double_bounds _ Hp) as [Hlo Hhi].
  assert (0 <= round_double (math_random h * 2000) / 2 ^ 53)
    by (apply Z.div_pos; lia).
  assert (round_double (math_random h * 2000) / 2 ^ 53 < 2000).
  { apply Z.div_lt_upper_bound; lia. }
  lia.
Qed.

Lemma findAvailablePort_in_range_witness :
  8000 <= findAvailablePort DockerSampleMore.stop_fails <= 9999.
Proof.
  apply (findAvailablePort_in_range DockerSampleMore.stop_fails).
  simpl. lia.
Defined.

(** C4 (the code departs from the claim). The allocation routine never
    looks at the ports in use: on a machine where port 8000 is bound and
    the random draw is 0, the port it returns is 8000, which is in range
    but not free. *)
Theorem findAvailablePort_returns_bound_port :
  findAvailablePort DockerSample.host0 = 8000 /\
  8000 <= findAvailablePort DockerSample.host0 <= 9999 /\
  ~ port_free DockerSample.bound_ports (findAvailablePort DockerSample.host0).
Proof.
  assert (H : findAvailablePort DockerSample.host0 = 8000) by reflexivity.
  rewrite H. split; [reflexivity|]. split; [lia|].
  unfold port_free, DockerSample.bound_ports. intros Hfree. apply Hfree.
  apply elem_of_singleton. reflexivity.
Qed.

(** ** [buildImage] *)

Lemma andThen_ok {C E A B} (m : Trace C E A) (k : A -> Trace C E B) tr a :
  m = (tr, Ok a) -> andThen m k = ((tr ++ fst (k a))%list, snd (k a)).
Proof. intros ->. reflexivity. Qed.

Lemma andThen_throw {C E A B} (m : Trace C E A) (k : A -> Trace C E B) tr e :
  m = (tr, Throw e) -> andThen m k = (tr, Throw e).
Proof. intros ->. reflexivity. Qed.

Lemma andThen_not_ok {C E A B} (m : Trace C E A) (k : A -> Trace C E B) :
  (forall a b, snd (k a) <> Ok b) -> forall b, snd (andThen m k) <> Ok b.
Proof.
  intros Hk b. unfold andThen. destruct (snd m) as [a|e]; simpl.
  - apply Hk.
  - discriminate.
Qed.

Lemma image_missing_message_names_start_script :
  includes image_missing_message (dq ++ "start" ++ dq ++ " script") = true /\
  includes image_missing_message "Node.js" = true /\
  includes image_missing_message "package.json" = true.
Proof. repeat split; reflexivity. Qed.

(** C7. When the image is absent after the build (the inspect call
    fails), [buildImage] never returns an image reference; and when the
    build stream has completed without an error chunk, the inspect call is
    made after it and the operation throws the normalized error, whose
    message names the missing [start] script of a Node.js package.json. *)
Theorem buildImage_fails_when_image_absent h project contextPath :
  image_inspect h (image_of project) = false ->
  (forall ref, snd (buildImage h project contextPath) <> Ok ref) /\
  (forall content output,
     getDockerfileForProject project = VString content ->
     fs_writeFile h (path_join contextPath "Dockerfile") content = Ok tt ->
     (type project = "NEXTJS" -> patchNextConfig h contextPath = Ok tt) ->
     engine_buildImage h contextPath (image_of project)
       = Ok (ProgressDone output) ->
     find is_build_error output = None ->
     snd (buildImage h project contextPath)
       = Throw (Error image_missing_message) /\
     exists before,
       fst (buildImage h project contextPath)
         = (before ++ [EngineBuild contextPath (image_of project);
                       FollowProgress;
                       ImageInspect (image_of project)])%list) /\
  includes image_missing_message (dq ++ "start" ++ dq ++ " script") = true.
Proof.
  intros Hi. split; [|split].
  - intros ref. unfold buildImage. fold (image_of project).
    do 4 (apply andThen_not_ok; intros ? ?).
    erewrite andThen_throw by (unfold call; rewrite Hi; reflexivity).
    discriminate.
  - intros content output Hdf Hw Hpatch Hb Hfind.
    unfold buildImage. fold (image_of project). rewrite Hdf.
    erewrite andThen_ok by (unfold call; rewrite Hw; reflexivity).
    assert (Hpatch' :
      (if String.eqb (type project) "NEXTJS"
       then call (PatchNextConfig contextPath) (patchNextConfig h contextPath)
       else pure tt) =
      ((if String.eqb (type project) "NEXTJS"
        then [PatchNextConfig contextPath] else []) : list Call, Ok tt)).
    { destruct (String.eqb_spec (type project) "NEXTJS") as [Heq|Hne].
      - unfold call. rewrite (Hpatch Heq). reflexivity.
      - reflexivity. }
    erewrite (andThen_ok _ _ _ tt) by exact Hpatch'.
    erewrite andThen_ok by (unfold call; rewrite Hb; reflexivity).
    erewrite andThen_ok by (unfold call; rewrite Hfind; reflexivity).
    erewrite andThen_throw by (unfold call; rewrite Hi; reflexivity).
    simpl. split; [reflexivity|].
    eexists (WriteFile _ _ :: (if String.eqb (type project) "NEXTJS"
                               then [PatchNextConfig contextPath] else [])).
    simpl. reflexivity.
  - reflexivity.
Qed.

Lemma buildImage_fails_when_image_absent_witness :
  snd (buildImage DockerSample.no_image DockerSample.node_app "/srv/projects/api")
    = Throw (Error image_missing_message).
Proof.
  apply (proj1 (proj2 (buildImage_fails_when_image_absent
                         DockerSample.no_image DockerSample.node_app
                         "/srv/projects/api" eq_refl))
               NODEJS_TEMPLATE
               [mkChunk (Some "Step 1/7 : FROM node:22-alpine") None None]);
    reflexivity.
Defined.

(** ** The two framework fallbacks *)



Lemma created_app a b : created (a ++ b) = (created a ++ created b)%list.
Proof. apply omap_app. Qed.

Lemma remove_existing_creates_nothing h n :
  created (fst (remove_existing h n)) = [].
Proof.
  unfold remove_existing, swallow, andThen, call, pure. simpl.
  destruct (container_inspect h n) as [[|]|]; simpl; try reflexivity.
  destruct (container_stop h n); reflexivity.
Qed.

(** The one [createContainer] call of [runContainer], made as soon as the
    image is found. *)
Lemma runContainer_created h limits imageName t containerName :
  created (fst (runContainer h limits imageName t containerName)) =
    if image_inspect h imageName then
      let containerPort :=
        nullish_or (get_property VNumber CONTAINER_PORTS t) (VNumber 3000) in
      [ {| Image := imageName;
           container_name := containerName;
           ExposedPorts := [Tcp containerPort];
           PortBindings := [(Tcp containerPort, [pretty (findAvailablePort h)])];
           Memory := memoryLimitBytes limits;
           CpuShares := cpuShares limits |} ]
    else [].
Proof.
  unfold runContainer.
  destruct (image_inspect h imageName) eqn:Hi.
  - erewrite andThen_ok by reflexivity.
    assert (Hrem : exists tr,
      (match containerName with
       | Some n => if truthy containerName then remove_existing h n else pure tt
       | None => pure tt
       end) = (tr, Ok tt) /\ created tr = []).
    { destruct containerName as [n|]; [|exists []; split; reflexivity].
      destruct (truthy (Some n)); [|exists []; split; reflexivity].
      exists (fst (remove_existing h n)). split; [reflexivity|].
      apply remove_existing_creates_nothing. }
    destruct Hrem as (tr & Hrem & Htr).
    erewrite andThen_ok by exact Hrem.
    cbv zeta. cbn [fst]. rewrite !created_app, Htr. simpl.
    unfold andThen, call, pure. simpl.
    destruct (engine_createContainer h _); simpl; [|reflexivity].
    destruct (container_start h); reflexivity.
  - erewrite andThen_throw by reflexivity. reflexivity.
Qed.




(** ** [ensureRepo] *)

Section EnsureRepo.
Import GitService GitFacts.


End EnsureRepo.


(** ** The command allow-list *)

Section AllowList.
Import DockerTerminalService TerminalFacts.

Lemma split_from_nonempty in_ws cur s : split_from in_ws cur s <> [].
Proof.
  revert in_ws cur. induction s as [|c rest IH]; intros in_ws cur; simpl.
  - discriminate.
  - destruct (isWhiteSpace c); [destruct in_ws|]; try apply IH; discriminate.
Qed.

Lemma first_token_is_some command : exists base, first_token command = Some base.
Proof.
  unfold first_token, split_whitespace.
  destruct (split_from false [] (trim command)) as [|b l] eqn:H.
  - exfalso. eapply split_from_nonempty. exact H.
  - exists b. reflexivity.
Qed.


Lemma is_infix_cons needle a hay :
  is_infix needle hay = true -> is_infix needle (a :: hay) = true.
Proof.
  intros H. simpl. rewrite H.
  destruct needle; simpl; [reflexivity|]. apply orb_true_r.
Qed.

Lemma is_infix_app needle pre hay :
  is_infix needle hay = true -> is_infix needle (pre ++ hay)%list = true.
Proof.
  intros H. induction pre as [|a pre IH]; simpl app; [exact H|].
  apply is_infix_cons, IH.
Qed.


Lemma validateCommand_blank command :
  trim command = [] ->
  validateCommand command = Throw (mkError (lit "Command cannot be empty")).
Proof. intros H. unfold validateCommand. rewrite H. reflexivity. Qed.

Lemma validateCommand_token command base :
  trim command <> [] ->
  first_token command = Some base ->
  validateCommand command =
    if allowed base then Ok tt else Throw (mkError (not_allowed_message base)).
Proof.
  intros Hne Hb. unfold validateCommand. unfold first_token in Hb.
  destruct (trim command) as [|c rest] eqn:Ht; [contradiction Hne; reflexivity|].
  rewrite Hb. destruct base as [|b base']; [reflexivity|].
  simpl orb. destruct (allowed (b :: base')); reflexivity.
Qed.

Lemma runInContainer_exec_commands e containerName command :
  forall cmd, In cmd (exec_commands (fst (runInContainer e containerName command))) ->
              cmd = [lit "/bin/sh"; lit "-c"; command].
Proof.
  intros cmd. unfold runInContainer, resolveContainer, andThen, call, pure, fail.
  simpl.
  destruct (container_inspect e containerName) as [[|]|] eqn:Hi; simpl.
  - rewrite Hi. simpl.
    destruct (exec_create e containerName _); simpl;
      [destruct (exec_start e); simpl; [destruct (stream e); simpl|]|];
      intros [<-|[]]; reflexivity.
  - rewrite Hi. simpl. intros [].
  - destruct (listContainers e) as [containers|err]; simpl; [|intros []].
    destruct (find _ containers) as [m|]; simpl; [|intros []].
    destruct (container_inspect e (Id m)) as [[|]|]; simpl; try (intros []).
    destruct (exec_create e (Id m) _); simpl;
      [destruct (exec_start e); simpl; [destruct (stream e); simpl|]|];
      intros [<-|[]]; reflexivity.
Qed.


End AllowList.



(** A listed command reaches the engine as typed, leading blank
    included. *)
Example ls_is_forwarded :
  TerminalFacts.exec_commands
    (fst (DockerTerminalService.executeCommand TerminalSample.running
            (DockerTerminalService.lit "dropdeploy-site")
            (DockerTerminalService.lit " ls -la")))
  = [[DockerTerminalService.lit "/bin/sh"; DockerTerminalService.lit "-c";
      DockerTerminalService.lit " ls -la"]].
Proof. reflexivity. Qed.

(** ** The exec timer *)

(** When the timer is the first of the three callbacks to run, the stream
    is destroyed and the call is rejected with the timeout error; the
    delay the timer is armed with is [EXEC_TIMEOUT_MS]. *)
Lemma runInContainer_timer_fires_first e containerName command :
  DockerTerminalService.container_inspect e containerName = Some true ->
  DockerTerminalService.exec_create e containerName
    [DockerTerminalService.lit "/bin/sh"; DockerTerminalService.lit "-c"; command]
    = Ok tt ->
  DockerTerminalService.exec_start e = Ok tt ->
  DockerTerminalService.stream e = DockerTerminalService.TimerFired ->
  snd (DockerTerminalService.runInContainer e containerName command)
    = Throw (DockerTerminalService.mkError
               (DockerTerminalService.lit "Command timed out after 30s")) /\
  last (fst (DockerTerminalService.runInContainer e containerName command))
    = Some DockerTerminalService.StreamDestroy.
Proof.
  intros Hi Hc Hs Ht.
  unfold DockerTerminalService.runInContainer,
    DockerTerminalService.resolveContainer, andThen, call, pure, fail.
  simpl. rewrite Hi. simpl. rewrite Hi. simpl. rewrite Hc. simpl.
  rewrite Hs. simpl. rewrite Ht. simpl. split; reflexivity.
Qed.

(** * Further properties of the orchestrator *)

(** ** Ownership checks do not reveal what exists *)

Lemma createDeployment_not_owner c s pid uid p :
  projects s !! pid = Some p ->
  userId p <> uid ->
  createDeployment c pid uid s = mkRun [] s (Throw (NotFoundError "Project")).
Proof.
  intros Hp Hne. unfold createDeployment.
  erewrite bind_silent
    by (unfold findProjectById, bind, get, ret; simpl; rewrite Hp; reflexivity).
  cbv beta iota. rewrite (bool_decide_eq_false_2 _ Hne). reflexivity.
Qed.

Lemma createDeployment_missing c s pid uid :
  projects s !! pid = None ->
  createDeployment c pid uid s = mkRun [] s (Throw (NotFoundError "Project")).
Proof.
  intros Hp. unfold createDeployment.
  erewrite bind_silent
    by (unfold findProjectById, bind, get, ret; simpl; rewrite Hp; reflexivity).
  reflexivity.
Qed.

(** X1. [createDeployment] on a project that belongs to another user
    behaves exactly as on a project that does not exist: the same
    [NotFoundError], nothing written, nothing logged, whatever the queue or
    the id generator would have answered. *)
Theorem createDeployment_hides_foreign_project c c' s pid pid' uid p :
  projects s !! pid = Some p ->
  userId p <> uid ->
  projects s !! pid' = None ->
  createDeployment c pid uid s = createDeployment c' pid' uid s /\
  result (createDeployment c pid uid s) = Throw (NotFoundError "Project") /\
  final (createDeployment c pid uid s) = s /\
  events (createDeployment c pid uid s) = [].
Proof.
  intros Hp Hne Hmiss.
  rewrite (createDeployment_not_owner c s pid uid p Hp Hne).
  rewrite (createDeployment_missing c' s pid' uid Hmiss).
  repeat split.
Qed.

Lemma createDeployment_hides_foreign_project_witness :
  createDeployment Sample.all_ok "proj-1" "user-2" Sample.store0
  = createDeployment Sample.queue_down "proj-9" "user-2" Sample.store0 /\
  result (createDeployment Sample.all_ok "proj-1" "user-2" Sample.store0)
  = Throw (NotFoundError "Project") /\
  final (createDeployment Sample.all_ok "proj-1" "user-2" Sample.store0)
  = Sample.store0 /\
  events (createDeployment Sample.all_ok "proj-1" "user-2" Sample.store0) = [].
Proof.
  apply (createDeployment_hides_foreign_project
           Sample.all_ok Sample.queue_down Sample.store0
           "proj-1" "proj-9" "user-2" Sample.site).
  - reflexivity.
  - discriminate.
  - reflexivity.
Defined.

(** X2. [getById] returns the stored row to the owner of its project; to
    anyone else it answers as for a deployment that does not exist; it
    never writes. *)
Theorem getById_owner_only id uid s :
  final (getById id uid s) = s /\
  events (getById id uid s) = [] /\
  (forall d, result (getById id uid s) = Ok d <->
             deployments s !! id = Some d /\
             exists p, projects s !! projectId d = Some p /\ userId p = uid) /\
  (forall e, result (getById id uid s) = Throw e ->
             e = NotFoundError "Deployment").
Proof.
  unfold getById, findByIdWithProject, bind, get, ret, throw. simpl.
  destruct (deployments s !! id) as [d0|] eqn:Hd; simpl.
  - destruct (projects s !! projectId d0) as [p|] eqn:Hp; simpl.
    + destruct (decide (userId p = uid)) as [Ho|Ho].
      * rewrite (bool_decide_eq_true_2 _ Ho). simpl.
        split; [reflexivity|]. split; [reflexivity|]. split.
        -- intros d. split.
           ++ intros H. inversion H; subst d0. split; [reflexivity|]. eauto.
           ++ intros [H _]. inversion H. reflexivity.
        -- intros e H. discriminate H.
      * rewrite (bool_decide_eq_false_2 _ Ho). simpl.
        split; [reflexivity|]. split; [reflexivity|]. split.
        -- intros d. split; [discriminate|].
           intros [H (p' & Hp' & Ho')]. inversion H; subst d0.
           rewrite Hp in Hp'. inversion Hp'; subst p'. contradiction.
        -- intros e H. inversion H. reflexivity.
    + split; [reflexivity|]. split; [reflexivity|]. split.
      * intros d. split; [discriminate|].
        intros [H (p' & Hp' & _)]. inversion H; subst d0.
        rewrite Hp in Hp'. discriminate Hp'.
      * intros e H. inversion H. reflexivity.
  - split; [reflexivity|]. split; [reflexivity|]. split.
    + intros d. split; [discriminate|]. intros [H _]. discriminate H.
    + intros e H. inversion H. reflexivity.
Qed.

(** ** What a run leaves alone *)

Lemma touches_only_refl id s : touches_only id s s.
Proof.
  split; [reflexivity|]. intros j.
  destruct (deployments s !! j); auto.
Qed.

Lemma touches_only_trans id a b c :
  touches_only id a b -> touches_only id b c -> touches_only id a c.
Proof.
  intros [Hp1 H1] [Hp2 H2]. split; [congruence|]. intros j.
  specialize (H1 j). specialize (H2 j).
  destruct (deployments a !! j) as [da|], (deployments b !! j) as [db|],
           (deployments c !! j) as [dc|]; try tauto.
  destruct H1 as (Hpa & Hla & Ha), H2 as (Hpb & Hlb & Hb).
  split; [congruence|]. split; [congruence|].
  intros Hj. destruct (Ha Hj) as [E1|E1]; destruct (Hb Hj) as [E2|E2];
    subst; auto.
Qed.

Lemma touches_only_put id d d' s :
  deployments s !! id = Some d ->
  projectId d' = projectId d -> logs d' = logs d ->
  touches_only id s (put_deployment id d' s).
Proof.
  intros Hd Hp Hl. split; [reflexivity|]. intros j.
  destruct (decide (id = j)) as [<-|Hne].
  - rewrite Hd, put_deployment_lookup. split; [exact Hp|].
    split; [exact Hl|]. intros H. contradiction H. reflexivity.
  - rewrite put_deployment_lookup_ne by exact Hne.
    destruct (deployments s !! j); auto.
Qed.

Lemma touches_only_cleared id pid sub s :
  touches_only id s (cleared pid sub id s).
Proof.
  split; [reflexivity|]. intros j. rewrite cleared_lookup.
  destruct (deployments s !! j) as [dj|]; simpl; [|exact I].
  destruct (clear_matches pid sub id j dj); simpl; auto.
Qed.

Section FrameOfRun.
Variables (id : string) (s : Store) (d : Deployment).
Hypothesis Hd : deployments s !! id = Some d.

Lemma touches_s_cloning t : touches_only id s (s_cloning id d t s).
Proof. apply (touches_only_put id d); auto. Qed.

Lemma touches_s_building_image t : touches_only id s (s_building_image id d t s).
Proof.
  eapply touches_only_trans; [apply touches_s_cloning|].
  apply (touches_only_put id (cloning d t));
    [apply put_deployment_lookup | reflexivity | reflexivity].
Qed.

Lemma touches_s_starting t : touches_only id s (s_starting id d t s).
Proof.
  eapply touches_only_trans; [apply touches_s_building_image|].
  apply (touches_only_put id (building_image d t));
    [apply put_deployment_lookup | reflexivity | reflexivity].
Qed.

Lemma touches_s_cleared t sub : touches_only id s (s_cleared id d t sub s).
Proof.
  eapply touches_only_trans; [apply touches_s_starting|].
  apply touches_only_cleared.
Qed.

Lemma touches_deployed t sub port tc :
  touches_only id s
    (put_deployment id (deployed (starting d t) port sub tc)
                    (s_cleared id d t sub s)).
Proof.
  eapply touches_only_trans; [apply touches_s_cleared|].
  apply (touches_only_put id (starting d t)); [|reflexivity|reflexivity].
  unfold s_cleared. rewrite cleared_lookup_excluded. apply put_deployment_lookup.
Qed.

Lemma touches_failed s' d' t :
  touches_only id s s' ->
  deployments s' !! id = Some d' ->
  touches_only id s (put_deployment id (failed d' t) s').
Proof.
  intros H Hd'. eapply touches_only_trans; [exact H|].
  apply (touches_only_put id d'); auto.
Qed.

End FrameOfRun.

Lemma Forall_snapshots {A} (P : Store -> Prop) s (r : Run A) :
  P s ->
  Forall (fun ev => match ev with EvWrite s' => P s' | EvWarn _ => True end)
         (events r) ->
  Forall P (snapshots s r).
Proof.
  intros Hs Hev. unfold snapshots. apply List.Forall_cons; [exact Hs|].
  induction Hev as [|ev evs Hx _ IH]; simpl; [constructor|].
  destruct ev; [constructor; assumption | exact IH].
Qed.

(** X3. At every store it commits, [buildAndDeploy] has kept the project
    table, has created and deleted no deployment, has left the project and
    the logs of every deployment as they were, and has changed the
    deployments other than its own at most by clearing their subdomain. *)
Theorem buildAndDeploy_touches_only_its_row c id s :
  Forall (touches_only id s) (snapshots s (buildAndDeploy c id s)).
Proof.
  buildAndDeploy_cases c id s;
    (apply Forall_snapshots; [apply touches_only_refl|]);
    cbn [events app];
    repeat (apply List.Forall_cons; [cbv beta iota|]);
    try apply List.Forall_nil;
    lazymatch goal with
    | |- True => exact I
    | |- touches_only _ _ (s_cloning _ _ _ _) =>
        apply touches_s_cloning; assumption
    | |- touches_only _ _ (s_building_image _ _ _ _) =>
        apply touches_s_building_image; assumption
    | |- touches_only _ _ (s_starting _ _ _ _) =>
        apply touches_s_starting; assumption
    | |- touches_only _ _ (s_cleared _ _ _ _ _) =>
        apply touches_s_cleared; assumption
    | |- touches_only _ _ (put_deployment _ (deployed _ _ _ _) _) =>
        apply touches_deployed; assumption
    | |- touches_only _ _ (put_deployment _ (failed _ _) (s_cloning _ _ _ _)) =>
        apply touches_failed;
          [apply touches_s_cloning; assumption | apply put_deployment_lookup]
    | |- touches_only _ _
           (put_deployment _ (failed _ _) (s_building_image _ _ _ _)) =>
        apply touches_failed;
          [apply touches_s_building_image; assumption
          | apply put_deployment_lookup]
    | |- touches_only _ _ (put_deployment _ (failed _ _) (s_starting _ _ _ _)) =>
        apply touches_failed;
          [apply touches_s_starting; assumption | apply put_deployment_lookup]
    | |- touches_only _ _ (put_deployment _ (apply_update ?d0 _) _) =>
        apply (touches_only_put id d0); [assumption | reflexivity | reflexivity]
    end.
Qed.

(** ** The state a successful run leaves *)

(** X4. When the clone, the image build and the container start succeed,
    [buildAndDeploy] resolves and leaves the deployment DEPLOYED with the
    build step cleared, the host port that [runContainer] returned, the
    project's slug as subdomain and both timestamps set, whatever the row
    held before (a queued deployment as well as a retry of a failed one);
    its project and logs are as before. *)
Theorem buildAndDeploy_success_state c id s d p w img port :
  deployments s !! id = Some d ->
  projects s !! projectId d = Some p ->
  truthy (githubUrl p) = true ->
  git_ensureRepo c (default "" (githubUrl p)) (slug p) (branch p) = Ok w ->
  docker_buildImage c p w = Ok img ->
  docker_runContainer c img (type p) ("dropdeploy-" ++ slug p) = Ok port ->
  result (buildAndDeploy c id s) = Ok tt /\
  deployments (final (buildAndDeploy c id s)) !! id =
    Some {| projectId := projectId d;
            status := DEPLOYED;
            buildStep := None;
            containerPort := Some port;
            subdomain := Some (slug p);
            logs := logs d;
            startedAt := Some (date_started c);
            completedAt := Some (date_completed c) |}.
Proof.
  intros Hd Hp Hu Hg Hb Hr.
  rewrite (buildAndDeploy_succeeds c id s d p w img port Hd Hp Hu Hg Hb Hr).
  split; [reflexivity|]. apply put_deployment_lookup.
Qed.

Lemma buildAndDeploy_success_state_witness :
  result (buildAndDeploy Sample.all_ok "dep-1"
            (final (buildAndDeploy Sample.clone_fails "dep-1" Sample.store1)))
    = Ok tt /\
  deployments
    (final (buildAndDeploy Sample.all_ok "dep-1"
              (final (buildAndDeploy Sample.clone_fails "dep-1" Sample.store1))))
    !! "dep-1" =
    Some {| projectId := "proj-1"; status := DEPLOYED; buildStep := None;
            containerPort := Some 8123; subdomain := Some "site";
            logs := None; startedAt := Some 1000; completedAt := Some 2000 |}.
Proof.
  apply (buildAndDeploy_success_state Sample.all_ok "dep-1"
           (final (buildAndDeploy Sample.clone_fails "dep-1" Sample.store1))
           (failed (cloning (queued "proj-1") 1000) 2000) Sample.site
           "/srv/projects/site" "dropdeploy/site:latest" 8123);
    reflexivity.
Defined.

(** X5. After a successful run the deployment is the one and only
    deployment of its project that holds the project's slug, even when
    several held it before. *)
Theorem buildAndDeploy_success_sole_holder c id s d p w img port :
  deployments s !! id = Some d ->
  projects s !! projectId d = Some p ->
  truthy (githubUrl p) = true ->
  git_ensureRepo c (default "" (githubUrl p)) (slug p) (branch p) = Ok w ->
  docker_buildImage c p w = Ok img ->
  docker_runContainer c img (type p) ("dropdeploy-" ++ slug p) = Ok port ->
  forall j, holds (final (buildAndDeploy c id s)) (projectId d) (slug p) j
            <-> j = id.
Proof.
  intros Hd Hp Hu Hg Hb Hr j.
  rewrite (buildAndDeploy_succeeds c id s d p w img port Hd Hp Hu Hg Hb Hr).
  simpl. split.
  - intros (x & Hx & Hpx & Hsx).
    destruct (decide (j = id)) as [E|Hne]; [exact E|]. exfalso.
    rewrite put_deployment_lookup_ne in Hx by congruence.
    apply (cleared_no_other_holder (projectId d) (slug p) id
             (s_starting id d (date_started c) s) j Hne).
    exists x. auto.
  - intros ->. eexists. split; [apply put_deployment_lookup|].
    split; reflexivity.
Qed.

Lemma buildAndDeploy_success_sole_holder_witness :
  holds (final (buildAndDeploy Sample.second_deploy "dep-2" Sample.store2))
        "proj-1" "site" "dep-2" /\
  ~ holds (final (buildAndDeploy Sample.second_deploy "dep-2" Sample.store2))
          "proj-1" "site" "dep-1".
Proof.
  pose proof (buildAndDeploy_success_sole_holder Sample.second_deploy "dep-2"
                Sample.store2 (queued "proj-1") Sample.site
                "/srv/projects/site" "dropdeploy/site:latest" 9001
                eq_refl eq_refl eq_refl eq_refl eq_refl eq_refl) as H.
  split.
  - apply (proj2 (H "dep-2")). reflexivity.
  - intros Hold. pose proof (proj1 (H "dep-1") Hold) as E. discriminate E.
Defined.

(** ** Status and build step along a run *)

Lemma marker_put id d s :
  marker id (put_deployment id d s) = Some (status d, buildStep d).
Proof. unfold marker. rewrite put_deployment_lookup. reflexivity. Qed.

Lemma marker_cleared id pid sub s :
  marker id (cleared pid sub id s) = marker id s.
Proof. unfold marker. rewrite cleared_lookup_excluded. reflexivity. Qed.

(** X6. On a project with a repository URL, the status and build step
    that [buildAndDeploy] writes to its deployment advance in one order
    only: BUILDING with CLONING, then BUILDING_IMAGE, then STARTING, and a
    last write that is terminal with the build step null: FAILED as soon
    as a step throws (the run then rejects), DEPLOYED after the three steps
    (the run then resolves). *)
Theorem buildAndDeploy_progress c id s d p :
  deployments s !! id = Some d ->
  projects s !! projectId d = Some p ->
  truthy (githubUrl p) = true ->
  let r := buildAndDeploy c id s in
  (exists e, result r = Throw e /\
     (progress id r = [Some (BUILDING, Some CLONING); Some (FAILED, None)] \/
      progress id r = [Some (BUILDING, Some CLONING);
                       Some (BUILDING, Some BUILDING_IMAGE);
                       Some (FAILED, None)] \/
      progress id r = [Some (BUILDING, Some CLONING);
                       Some (BUILDING, Some BUILDING_IMAGE);
                       Some (BUILDING, Some STARTING);
                       Some (FAILED, None)])) \/
  (result r = Ok tt /\
   progress id r = [Some (BUILDING, Some CLONING);
                    Some (BUILDING, Some BUILDING_IMAGE);
                    Some (BUILDING, Some STARTING);
                    Some (BUILDING, Some STARTING);
                    Some (DEPLOYED, None)]).
Proof.
  intros Hd Hp Hu r. subst r.
  rewrite (buildAndDeploy_found c id s d p Hd Hp Hu).
  destruct (git_ensureRepo c (default "" (githubUrl p)) (slug p) (branch p))
    as [w|e] eqn:Hg.
  2:{ erewrite try_catch_throw by (apply pipeline_clone_fails; eassumption).
      erewrite on_failure_run by apply put_deployment_lookup.
      left. exists e. split; [reflexivity|]. left.
      unfold progress, s_cloning. simpl. rewrite !marker_put. reflexivity. }
  destruct (docker_buildImage c p w) as [img|e] eqn:Hb.
  2:{ erewrite try_catch_throw by (eapply pipeline_build_fails; eassumption).
      erewrite on_failure_run by apply put_deployment_lookup.
      left. exists e. split; [reflexivity|]. right; left.
      unfold progress, s_building_image, s_cloning. simpl.
      rewrite !marker_put. reflexivity. }
  destruct (docker_runContainer c img (type p) ("dropdeploy-" ++ slug p))
    as [port|e] eqn:Hr.
  2:{ erewrite try_catch_throw by (eapply pipeline_run_fails; eassumption).
      erewrite on_failure_run by apply put_deployment_lookup.
      left. exists e. split; [reflexivity|]. right; right.
      unfold progress, s_starting, s_building_image, s_cloning. simpl.
      rewrite !marker_put. reflexivity. }
  erewrite try_catch_ok by (eapply pipeline_succeeds; eassumption).
  right. split; [reflexivity|].
  unfold progress, s_cleared, s_starting, s_building_image, s_cloning. simpl.
  rewrite marker_cleared, !marker_put. reflexivity.
Qed.

Lemma buildAndDeploy_progress_witness :
  progress "dep-2" (buildAndDeploy Sample.second_deploy "dep-2" Sample.store2)
  = [Some (BUILDING, Some CLONING);
     Some (BUILDING, Some BUILDING_IMAGE);
     Some (BUILDING, Some STARTING);
     Some (BUILDING, Some STARTING);
     Some (DEPLOYED, None)].
Proof.
  destruct (buildAndDeploy_progress Sample.second_deploy "dep-2" Sample.store2
              (queued "proj-1") Sample.site eq_refl eq_refl eq_refl)
    as [(e & He & _) | [_ H]].
  - exfalso. vm_compute in He. discriminate He.
  - exact H.
Defined.

(** ** [createDeployment] and existing rows *)

(** X7. Whatever happens in [createDeployment] (unknown project, wrong
    owner, an id that is already taken, a queue that fails in any way), no
    existing deployment is changed or removed and the project table is
    kept: at most the one new row is added. *)
Theorem createDeployment_keeps_existing_rows c pid uid s :
  projects (final (createDeployment c pid uid s)) = projects s /\
  (forall j dj, deployments s !! j = Some dj ->
                deployments (final (createDeployment c pid uid s)) !! j = Some dj) /\
  (forall j, j <> generated_id c ->
             deployments (final (createDeployment c pid uid s)) !! j
             = deployments s !! j).
Proof.
  unfold createDeployment.
  destruct (projects s !! pid) as [p|] eqn:Hp;
    erewrite bind_silent
      by (unfold findProjectById, bind, get, ret; simpl; rewrite Hp; reflexivity);
    [|simpl; auto].
  cbv beta iota.
  destruct (bool_decide (userId p = uid));
    [change (negb true) with false | change (negb false) with true]; cbv iota;
    [|simpl; auto].
  destruct (deployments s !! generated_id c) as [d|] eqn:Hfresh.
  - erewrite bind_throw
      by (unfold create, bind, get, throw; simpl; rewrite Hfresh; reflexivity).
    simpl. auto.
  - erewrite bind_run by (apply create_fresh; exact Hfresh).
    assert (Hfinal :
      final (bind
               (try_catch
                  (bind (await (queue_add c (generated_id c, queued pid).1 pid))
                        (fun _ => ret tt))
                  (fun err => if isConnectionError err
                              then warn (queue_unavailable_warning
                                           (generated_id c, queued pid).1)
                              else throw err))
               (fun _ => ret (generated_id c, queued pid))
               (put_deployment (generated_id c) (queued pid) s))
      = put_deployment (generated_id c) (queued pid) s).
    { unfold try_catch, bind, await, ret, warn, throw. simpl.
      destruct (queue_add c (generated_id c) pid) as [job|err]; simpl;
        [reflexivity|].
      destruct (isConnectionError err); reflexivity. }
    cbn [final]. unfold queued in Hfinal. rewrite Hfinal.
    split; [reflexivity|]. split.
    + intros j dj Hj. rewrite put_deployment_lookup_ne; [exact Hj|].
      intros E. subst j. rewrite Hfresh in Hj. discriminate Hj.
    + intros j Hj. apply put_deployment_lookup_ne. congruence.
Qed.

(** ** The clearing of the subdomain *)

Lemma store_eq (a b : Store) :
  projects a = projects b -> deployments a = deployments b -> a = b.
Proof. destruct a, b; simpl; intros -> ->; reflexivity. Qed.

(** X9. [clearSubdomainForOtherDeployments] is idempotent, and it leaves
    as they are the excluded deployment, the deployments of other projects
    and those that hold another subdomain or none. *)
Theorem clearSubdomainForOtherDeployments_idempotent pid sub ex s :
  final (clearSubdomainForOtherDeployments pid sub ex
           (final (clearSubdomainForOtherDeployments pid sub ex s)))
  = final (clearSubdomainForOtherDeployments pid sub ex s) /\
  (forall j dj,
     deployments s !! j = Some dj ->
     j = ex \/ projectId dj <> pid \/ subdomain dj <> Some sub ->
     deployments (final (clearSubdomainForOtherDeployments pid sub ex s)) !! j
     = Some dj).
Proof.
  rewrite !clear_run. cbn [final]. split.
  - apply store_eq; [reflexivity|].
    apply map_eq. intros j. rewrite !cleared_lookup.
    destruct (deployments s !! j) as [dj|]; simpl; [|reflexivity].
    destruct (clear_matches pid sub ex j dj) eqn:Hm.
    + unfold clear_matches. simpl.
      rewrite andb_false_r. reflexivity.
    + rewrite Hm. reflexivity.
  - intros j dj Hj Hcase. rewrite cleared_lookup, Hj. simpl.
    assert (Hm : clear_matches pid sub ex j dj = false).
    { unfold clear_matches. destruct Hcase as [->|[H|H]].
      - rewrite (bool_decide_eq_true_2 (ex = ex)) by reflexivity.
        apply andb_false_r.
      - rewrite (bool_decide_eq_false_2 _ H). reflexivity.
      - rewrite (bool_decide_eq_false_2 _ H). rewrite andb_false_r. reflexivity. }
    rewrite Hm. reflexivity.
Qed.

(** * Further properties of the container adapter *)

(** ** [runContainer] and the container it replaces *)

Lemma runContainer_calls h limits imageName t n :
  truthy (Some n) = true ->
  image_inspect h imageName = true ->
  exists cfg rest,
    fst (runContainer h limits imageName t (Some n)) =
      (ImageInspect imageName :: fst (remove_existing h n)
       ++ CreateContainer cfg :: rest)%list /\
    (rest = [] \/ rest = [ContainerStart]).
Proof.
  intros Hn Hi. unfold runContainer.
  erewrite andThen_ok by (unfold call; rewrite Hi; reflexivity).
  rewrite Hn.
  erewrite (andThen_ok (remove_existing h n)) by reflexivity.
  cbv zeta. unfold andThen, call, pure. simpl.
  destruct (engine_createContainer h _); simpl.
  - destruct (container_start h); simpl; eexists _, _; split;
      try reflexivity; auto.
  - eexists _, _. split; [reflexivity|]. auto.
Qed.

Lemma remove_existing_calls h n :
  fst (remove_existing h n) =
    (ContainerInspect n ::
     match container_inspect h n with
     | None => []
     | Some false => [ContainerRemove n]
     | Some true =>
         ContainerStop n ::
         match container_stop h n with
         | Ok _ => [ContainerRemove n]
         | Throw _ => []
         end
     end)%list.
Proof.
  unfold remove_existing, swallow, andThen, call, pure. simpl.
  destruct (container_inspect h n) as [[|]|]; simpl; try reflexivity.
  destruct (container_stop h n); reflexivity.
Qed.

(** X11. [runContainer] touches no container when the image is missing:
    its only call is the image inspect and it throws.  When the image is
    there and a container name is given, the existing container is stopped
    exactly when its inspect reports it running, and removed exactly when
    it was found and any needed stop succeeded; and whatever the inspect,
    the stop or the remove did, a container is then created. *)
Theorem runContainer_replaces_existing h limits imageName t n :
  truthy (Some n) = true ->
  let calls := fst (runContainer h limits imageName t (Some n)) in
  (image_inspect h imageName = false ->
     calls = [ImageInspect imageName] /\
     snd (runContainer h limits imageName t (Some n))
       = Throw (Error (image_not_found_message imageName))) /\
  (image_inspect h imageName = true ->
     (In (ContainerStop n) calls <-> container_inspect h n = Some true) /\
     (In (ContainerRemove n) calls <->
        container_inspect h n = Some false \/
        (container_inspect h n = Some true /\ container_stop h n = Ok tt)) /\
     created calls <> []).
Proof.
  intros Hn calls. subst calls. split.
  - intros Hi. unfold runContainer.
    erewrite andThen_throw by (unfold call; rewrite Hi; reflexivity).
    split; reflexivity.
  - intros Hi.
    destruct (runContainer_calls h limits imageName t n Hn Hi)
      as (cfg & rest & Hcalls & Hrest).
    rewrite Hcalls, remove_existing_calls.
    split; [|split].
    + destruct (container_inspect h n) as [[|]|]; simpl;
        [ destruct (container_stop h n) as [[]|]; simpl | | ];
        destruct Hrest as [-> | ->]; simpl; split; intros H;
        repeat (destruct H as [H|H]; try discriminate H);
        auto; try discriminate; try contradiction.
    + destruct (container_inspect h n) as [[|]|]; simpl;
        [ destruct (container_stop h n) as [[]|] eqn:Hs; simpl | | ];
        destruct Hrest as [-> | ->]; simpl; split; intros H;
        repeat (destruct H as [H|H]; try discriminate H);
        auto 6; try contradiction;
        try (destruct H as [H _]; discriminate H);
        try (destruct H as [_ H]; discriminate H).
    + simpl. rewrite created_app. simpl.
      destruct (created _); discriminate.
Qed.

Lemma runContainer_replaces_existing_witness :
  ~ In (ContainerRemove "dropdeploy-site")
       (fst (runContainer DockerSampleMore.stop_fails default_limits
               "dropdeploy/site:latest" "STATIC" (Some "dropdeploy-site"))) /\
  In (ContainerStop "dropdeploy-site")
     (fst (runContainer DockerSampleMore.stop_fails default_limits
             "dropdeploy/site:latest" "STATIC" (Some "dropdeploy-site"))) /\
  created (fst (runContainer DockerSampleMore.stop_fails default_limits
                  "dropdeploy/site:latest" "STATIC" (Some "dropdeploy-site")))
  <> [].
Proof.
  destruct (proj2 (runContainer_replaces_existing
                     DockerSampleMore.stop_fails default_limits
                     "dropdeploy/site:latest" "STATIC" "dropdeploy-site"
                     eq_refl) eq_refl) as (Hstop & Hremove & Hcreated).
  split; [|split].
  - intros H. apply Hremove in H.
    destruct H as [H | [_ H]]; discriminate H.
  - apply Hstop. reflexivity.
  - exact Hcreated.
Defined.

(** The port drawn lies in the range the routine draws from. *)
Lemma drawn_port_in_range h :
  0 <= math_random h < 2 ^ 53 ->
  8000 <= findAvailablePort h <= 9999.
Proof.
  intros Hm. unfold findAvailablePort, floor_random_times. cbv zeta.
  assert (Hp : 0 <= math_random h * 2000 < 2 ^ 64) by lia.
  pose proof (round_double_bounds _ Hp) as [Hlo Hhi].
  assert (0 <= round_double (math_random h * 2000) / 2 ^ 53)
    by (apply Z.div_pos; lia).
  assert (round_double (math_random h * 2000) / 2 ^ 53 < 2000).
  { apply Z.div_lt_upper_bound; lia. }
  lia.
Qed.

(** X12. When [runContainer] resolves, the port it returns is the host
    port the new container was bound to; exactly one container was
    created, from the given image, under the given name, with the
    configured memory and CPU-share limits, and starting it was the last
    call; the port lies in [8000, 9999]. *)
Theorem runContainer_success h limits imageName t containerName port :
  0 <= math_random h < 2 ^ 53 ->
  snd (runContainer h limits imageName t containerName) = Ok port ->
  8000 <= port <= 9999 /\
  last (fst (runContainer h limits imageName t containerName))
    = Some ContainerStart /\
  exists cfg,
    created (fst (runContainer h limits imageName t containerName)) = [cfg] /\
    Image cfg = imageName /\
    container_name cfg = containerName /\
    map snd (PortBindings cfg) = [[pretty port]] /\
    map fst (PortBindings cfg) = ExposedPorts cfg /\
    Memory cfg = memoryLimitBytes limits /\
    CpuShares cfg = cpuShares limits.
Proof.
  intros Hm Hok.
  assert (Hport : port = findAvailablePort h /\
                  image_inspect h imageName = true /\
                  last (fst (runContainer h limits imageName t containerName))
                    = Some ContainerStart).
  { revert Hok. unfold runContainer.
    destruct (image_inspect h imageName) eqn:Hi.
    2:{ erewrite andThen_throw by (unfold call; reflexivity). discriminate. }
    erewrite andThen_ok by reflexivity.
    assert (Hrem : exists tr,
      (match containerName with
       | Some n => if truthy containerName then remove_existing h n else pure tt
       | None => pure tt
       end) = ((tr, Ok tt) : Trace Call Thrown unit)).
    { destruct containerName as [n|]; [|exists []; reflexivity].
      destruct (truthy (Some n)); [|exists []; reflexivity].
      exists (fst (remove_existing h n)). reflexivity. }
    destruct Hrem as (tr & Hrem). erewrite andThen_ok by exact Hrem.
    cbv zeta. unfold andThen, call, pure. simpl.
    destruct (engine_createContainer h _); simpl; [|discriminate].
    destruct (container_start h); simpl; [|discriminate].
    intros H. inversion H. split; [reflexivity|]. split; [reflexivity|].
    rewrite app_comm_cons, last_app. reflexivity. }
  destruct Hport as (-> & Hi & Hlast).
  split; [apply drawn_port_in_range; exact Hm|].
  split; [exact Hlast|].
  rewrite runContainer_created, Hi. cbv zeta.
  eexists. split; [reflexivity|]. repeat split.
Qed.

Lemma runContainer_success_witness :
  8000 <= 9000 <= 9999 /\
  last (fst (runContainer DockerSampleMore.stop_fails default_limits
               "dropdeploy/site:latest" "STATIC" (Some "dropdeploy-site")))
    = Some ContainerStart /\
  exists cfg,
    created (fst (runContainer DockerSampleMore.stop_fails default_limits
                    "dropdeploy/site:latest" "STATIC" (Some "dropdeploy-site")))
      = [cfg] /\
    Image cfg = "dropdeploy/site:latest" /\
    container_name cfg = Some "dropdeploy-site" /\
    map snd (PortBindings cfg) = [["9000"]] /\
    map fst (PortBindings cfg) = ExposedPorts cfg /\
    Memory cfg = 536870912 /\
    CpuShares cfg = 1024.
Proof.
  apply (runContainer_success DockerSampleMore.stop_fails default_limits
           "dropdeploy/site:latest" "STATIC" (Some "dropdeploy-site") 9000).
  - simpl. lia.
  - reflexivity.
Defined.

(** ** The recipe catalog *)

(** X13. For each of the four frameworks the two tables agree:
    [getDockerfileForProject] returns a recipe whose [EXPOSE] line names
    the very port that [runContainer] exposes and binds for that
    framework. *)
Theorem recipe_and_container_port_agree t :
  In t known_types ->
  exists recipe n,
    DOCKERFILE_TEMPLATES !! t = Some recipe /\
    CONTAINER_PORTS !! t = Some n /\
    (forall project, type project = t ->
       getDockerfileForProject project = VString recipe) /\
    exposes recipe (pretty n) = true /\
    (forall h limits imageName containerName cfg,
       In cfg (created (fst (runContainer h limits imageName t containerName))) ->
       ExposedPorts cfg = [Tcp (VNumber n)] /\
       map fst (PortBindings cfg) = [Tcp (VNumber n)]).
Proof.
  intros Hin.
  assert (Hcases : exists recipe n,
            DOCKERFILE_TEMPLATES !! t = Some recipe /\
            CONTAINER_PORTS !! t = Some n /\
            exposes recipe (pretty n) = true).
  { simpl in Hin. destruct Hin as [<-|[<-|[<-|[<-|[]]]]].
    - exists STATIC_TEMPLATE, 80. repeat split; reflexivity.
    - exists NODEJS_TEMPLATE, 3000. repeat split; reflexivity.
    - exists NEXTJS_TEMPLATE, 3000. repeat split; reflexivity.
    - exists DJANGO_TEMPLATE, 8000. repeat split; reflexivity. }
  destruct Hcases as (recipe & n & Hr & Hn & He).
  exists recipe, n. split; [exact Hr|]. split; [exact Hn|].
  split; [|split; [exact He|]].
  - intros project Ht. unfold getDockerfileForProject, has_property.
    rewrite Ht, Hr. unfold get_property. rewrite Hr. reflexivity.
  - intros h limits imageName containerName cfg.
    rewrite runContainer_created.
    destruct (image_inspect h imageName); [|intros []].
    cbv zeta. unfold get_property. rewrite Hn. simpl.
    intros [<-|[]]. split; reflexivity.
Qed.

Lemma recipe_and_container_port_agree_witness :
  exists recipe n,
    DOCKERFILE_TEMPLATES !! "DJANGO" = Some recipe /\
    CONTAINER_PORTS !! "DJANGO" = Some n /\
    (forall project, type project = "DJANGO" ->
       getDockerfileForProject project = VString recipe) /\
    exposes recipe (pretty n) = true /\
    (forall h limits imageName containerName cfg,
       In cfg (created (fst (runContainer h limits imageName "DJANGO"
                                          containerName))) ->
       ExposedPorts cfg = [Tcp (VNumber n)] /\
       map fst (PortBindings cfg) = [Tcp (VNumber n)]).
Proof.
  apply (recipe_and_container_port_agree "DJANGO").
  simpl. auto.
Defined.

(** ** [buildImage] *)

Lemma slice_last_suffix {A} (n : nat) (l : list A) :
  slice_last n l `suffix_of` l.
Proof. unfold slice_last. apply suffix_drop. Qed.

Lemma slice_last_length {A} (n : nat) (l : list A) :
  length (slice_last n l) = Nat.min n (length l).
Proof. unfold slice_last. rewrite length_drop. lia. Qed.

(** The Dockerfile step of [buildImage] and what follows it. *)
Lemma buildImage_after_write h project contextPath content :
  getDockerfileForProject project = VString content ->
  fs_writeFile h (path_join contextPath "Dockerfile") content = Ok tt ->
  exists rest,
    fst (buildImage h project contextPath) =
      (WriteFile (path_join contextPath "Dockerfile") content
       :: (if String.eqb (type project) "NEXTJS"
           then [PatchNextConfig contextPath] else [])
       ++ rest)%list /\
    ~ In (PatchNextConfig contextPath) rest.
Proof.
  intros Hdf Hw. unfold buildImage. rewrite Hdf.
  erewrite andThen_ok by (unfold call; rewrite Hw; reflexivity).
  destruct (String.eqb (type project) "NEXTJS").
  - unfold andThen, call, pure. simpl.
    destruct (patchNextConfig h contextPath); simpl;
      [|exists []; split; [reflexivity | intros []]].
    destruct (engine_buildImage h _ _) as [[|]|]; simpl;
      try (destruct (find is_build_error output)); simpl;
      try (destruct (image_inspect h _)); simpl;
      eexists; (split; [reflexivity|]);
      intros H; repeat (destruct H as [H|H]; try discriminate H); exact H.
  - unfold andThen, call, pure. simpl.
    destruct (engine_buildImage h _ _) as [[|]|]; simpl;
      try (destruct (find is_build_error output)); simpl;
      try (destruct (image_inspect h _)); simpl;
      eexists; (split; [reflexivity|]);
      intros H; repeat (destruct H as [H|H]; try discriminate H); exact H.
Qed.

(** X14. [buildImage] patches the Next.js configuration of the context
    directory exactly for projects of type NEXTJS, once their Dockerfile
    has been written; for every other type, and when the write fails, it
    never does. *)
Theorem buildImage_patches_only_nextjs h project contextPath :
  In (PatchNextConfig contextPath) (fst (buildImage h project contextPath)) <->
  type project = "NEXTJS" /\
  fs_writeFile h (path_join contextPath "Dockerfile") NEXTJS_TEMPLATE = Ok tt.
Proof.
  destruct (getDockerfileForProject project) as [|content| |] eqn:Hdf;
    try (unfold buildImage; rewrite Hdf; simpl; split;
         [ intros []
         | intros [Ht _]; exfalso; revert Hdf;
           unfold getDockerfileForProject; rewrite Ht; discriminate ]).
  destruct (fs_writeFile h (path_join contextPath "Dockerfile") content)
    as [[]|e] eqn:Hw.
  - destruct (buildImage_after_write h project contextPath content Hdf Hw)
      as (rest & Hcalls & Hrest).
    rewrite Hcalls. destruct (String.eqb_spec (type project) "NEXTJS") as [Ht|Ht].
    + assert (content = NEXTJS_TEMPLATE) as ->.
      { revert Hdf. unfold getDockerfileForProject. rewrite Ht.
        intros H. inversion H. reflexivity. }
      split; [intros _; split; [exact Ht | exact Hw]|].
      intros _. simpl. auto.
    + split; [|intros [H _]; contradiction].
      simpl. intros [H|H]; [discriminate H | contradiction].
  - split.
    + unfold buildImage. rewrite Hdf.
      erewrite andThen_throw by (unfold call; rewrite Hw; reflexivity).
      simpl. intros [H|[]]. discriminate H.
    + intros [Ht Hw']. exfalso.
      assert (content = NEXTJS_TEMPLATE) as ->.
      { revert Hdf. unfold getDockerfileForProject. rewrite Ht.
        intros H. inversion H. reflexivity. }
      rewrite Hw in Hw'. discriminate Hw'.
Qed.

(** X15. When the build stream ends with an error chunk in its output,
    [buildImage] throws an error made of that chunk's message and of at
    most the last 20 stream lines, in order, and it does not look for the
    image. *)
Theorem buildImage_error_chunk h project contextPath content output buildError :
  getDockerfileForProject project = VString content ->
  fs_writeFile h (path_join contextPath "Dockerfile") content = Ok tt ->
  (type project = "NEXTJS" -> patchNextConfig h contextPath = Ok tt) ->
  engine_buildImage h contextPath (image_of project) = Ok (ProgressDone output) ->
  find is_build_error output = Some buildError ->
  (forall image, ~ In (ImageInspect image) (fst (buildImage h project contextPath))) /\
  exists tail,
    tail `suffix_of` build_log output /\
    length tail = Nat.min 20 (length (build_log output)) /\
    snd (buildImage h project contextPath) =
      Throw (Error (build_error_message buildError ++ nl ++ nl
                    ++ "Build output (last 20 lines):" ++ nl
                    ++ String.concat "" tail)).
Proof.
  intros Hdf Hw Hpatch Hb Hfind.
  assert (Hrun : buildImage h project contextPath =
    ((WriteFile (path_join contextPath "Dockerfile") content
      :: (if String.eqb (type project) "NEXTJS"
          then [PatchNextConfig contextPath] else [])
      ++ [EngineBuild contextPath (image_of project); FollowProgress])%list,
     Throw (Error (build_error_message buildError ++ nl ++ nl
                   ++ "Build output (last 20 lines):" ++ nl
                   ++ String.concat "" (slice_last 20 (build_log output)))))).
  { unfold buildImage. fold (image_of project). rewrite Hdf.
    erewrite andThen_ok by (unfold call; rewrite Hw; reflexivity).
    assert (Hpatch' :
      (if String.eqb (type project) "NEXTJS"
       then call (PatchNextConfig contextPath) (patchNextConfig h contextPath)
       else pure tt) =
      ((if String.eqb (type project) "NEXTJS"
        then [PatchNextConfig contextPath] else []) : list Call, Ok tt)).
    { destruct (String.eqb_spec (type project) "NEXTJS") as [Heq|Hne].
      - unfold call. rewrite (Hpatch Heq). reflexivity.
      - reflexivity. }
    erewrite (andThen_ok _ _ _ tt) by exact Hpatch'.
    erewrite andThen_ok by (unfold call; rewrite Hb; reflexivity).
    erewrite andThen_throw by (unfold call; rewrite Hfind; reflexivity).
    simpl. reflexivity. }
  rewrite Hrun. split.
  - intros image. simpl. intros [H|H]; [discriminate H|].
    apply in_app_or in H. destruct H as [H|H].
    + destruct (String.eqb (type project) "NEXTJS"); simpl in H;
        [destruct H as [H|[]]; discriminate H | contradiction].
    + simpl in H. destruct H as [H|[H|[]]]; discriminate H.
  - exists (slice_last 20 (build_log output)).
    split; [apply slice_last_suffix|]. split; [apply slice_last_length|].
    reflexivity.
Qed.

Lemma buildImage_error_chunk_witness :
  (forall image,
     ~ In (ImageInspect image)
          (fst (buildImage DockerSampleMore.build_breaks DockerSample.node_app
                           "/srv/projects/api"))) /\
  exists tail,
    tail `suffix_of` ["Step 4/7 : RUN npm install --omit=dev"] /\
    length tail = 1%nat /\
    snd (buildImage DockerSampleMore.build_breaks DockerSample.node_app
                    "/srv/projects/api") =
      Throw (Error ("npm ERR! code E404" ++ nl ++ nl
                    ++ "Build output (last 20 lines):" ++ nl
                    ++ String.concat "" tail)).
Proof.
  apply (buildImage_error_chunk DockerSampleMore.build_breaks
           DockerSample.node_app "/srv/projects/api" NODEJS_TEMPLATE
           [ mkChunk (Some "Step 4/7 : RUN npm install --omit=dev") None None;
             mkChunk None (Some "npm ERR! code E404") None ]
           (mkChunk None (Some "npm ERR! code E404") None));
    reflexivity.
Defined.

(** X16. [buildImage] resolves only with the name
    [dropdeploy/<slug>:latest], and only after it has written a recipe to
    [<context>/Dockerfile], the engine has accepted the build, the stream
    has ended without error chunk and the image has been found. *)
Theorem buildImage_success h project contextPath ref :
  snd (buildImage h project contextPath) = Ok ref ->
  ref = image_of project /\
  image_inspect h (image_of project) = true /\
  exists content output,
    getDockerfileForProject project = VString content /\
    fs_writeFile h (path_join contextPath "Dockerfile") content = Ok tt /\
    engine_buildImage h contextPath (image_of project)
      = Ok (ProgressDone output) /\
    find is_build_error output = None /\
    head (fst (buildImage h project contextPath))
      = Some (WriteFile (path_join contextPath "Dockerfile") content) /\
    last (fst (buildImage h project contextPath))
      = Some (ImageInspect (image_of project)).
Proof.
  unfold buildImage. fold (image_of project).
  destruct (getDockerfileForProject project) as [|content| |] eqn:Hdf;
    try (simpl; discriminate).
  unfold andThen, call, pure. simpl.
  destruct (fs_writeFile h (path_join contextPath "Dockerfile") content)
    as [[]|e] eqn:Hw; simpl; [|discriminate].
  destruct (String.eqb (type project) "NEXTJS"); simpl;
    [destruct (patchNextConfig h contextPath) as [[]|pe]; simpl;
       [|discriminate]|];
    (destruct (engine_buildImage h contextPath (image_of project))
       as [[err|output]|e] eqn:Hb; simpl; try discriminate;
     destruct (find is_build_error output) as [be|] eqn:Hfind; simpl;
       try discriminate;
     destruct (image_inspect h (image_of project)) eqn:Hi; simpl;
       try discriminate;
     intros H; inversion H; split; [reflexivity|]; split; [reflexivity|];
     exists content, output; repeat split; assumption).
Qed.

Lemma buildImage_success_witness :
  "dropdeploy/api:latest" = image_of DockerSample.node_app /\
  image_inspect DockerSample.host0 (image_of DockerSample.node_app) = true /\
  exists content output,
    getDockerfileForProject DockerSample.node_app = VString content /\
    fs_writeFile DockerSample.host0 (path_join "/srv/projects/api" "Dockerfile")
                 content = Ok tt /\
    engine_buildImage DockerSample.host0 "/srv/projects/api"
                      (image_of DockerSample.node_app)
      = Ok (ProgressDone output) /\
    find is_build_error output = None /\
    head (fst (buildImage DockerSample.host0 DockerSample.node_app
                          "/srv/projects/api"))
      = Some (WriteFile (path_join "/srv/projects/api" "Dockerfile") content) /\
    last (fst (buildImage DockerSample.host0 DockerSample.node_app
                          "/srv/projects/api"))
      = Some (ImageInspect (image_of DockerSample.node_app)).
Proof.
  apply (buildImage_success DockerSample.host0 DockerSample.node_app
           "/srv/projects/api" "dropdeploy/api:latest").
  reflexivity.
Defined.

(** * Further properties of the repository manager *)

Section EnsureRepoMore.
Import GitService GitFacts.



End EnsureRepoMore.



(** * Further properties of the command gateway *)

Section LogDemux.
Import DockerTerminalService DockerTerminalShortcuts LogFrames.
Local Open Scope list_scope.

Lemma be32_roundtrip n :
  (n < 4294967296)%N ->
  ((n / 16777216) mod 256 * 16777216 + (n / 65536) mod 256 * 65536
   + (n / 256) mod 256 * 256 + n mod 256 = n)%N.
Proof.
  intros Hn.
  pose proof (N.div_mod n 256 ltac:(discriminate)) as H1.
  pose proof (N.div_mod (n / 256) 256 ltac:(discriminate)) as H2.
  pose proof (N.div_mod (n / 256 / 256) 256 ltac:(discriminate)) as H3.
  assert (E2 : (n / 65536 = n / 256 / 256)%N)
    by (rewrite N.Div0.div_div; reflexivity).
  assert (E3 : (n / 16777216 = n / 256 / 256 / 256)%N)
    by (rewrite !N.Div0.div_div; reflexivity).
  assert (Hsmall : (n / 16777216 < 256)%N)
    by (apply N.Div0.div_lt_upper_bound; exact Hn).
  rewrite (N.mod_small (n / 16777216) 256) by exact Hsmall.
  rewrite E3, E2. lia.
Qed.

Lemma frame_length f : length (frame f) = (8 + length (snd f))%nat.
Proof. unfold frame, be32. simpl. lia. Qed.

Lemma readUInt32BE_frame pre f rest :
  (N.of_nat (length (snd f)) < 4294967296)%N ->
  readUInt32BE (pre ++ frame f ++ rest) (length pre + 4)
  = N.of_nat (length (snd f)).
Proof.
  intros Hn. unfold readUInt32BE.
  replace (length pre + 4 + 1)%nat with (length pre + 5)%nat by lia.
  replace (length pre + 4 + 2)%nat with (length pre + 6)%nat by lia.
  replace (length pre + 4 + 3)%nat with (length pre + 7)%nat by lia.
  rewrite !app_nth2_plus.
  unfold frame. simpl.
  apply (be32_roundtrip _ Hn).
Qed.

Lemma subarray_frame pre f rest :
  subarray (pre ++ frame f ++ rest) (length pre + 8)
           (length pre + 8 + length (snd f)) = snd f.
Proof.
  unfold subarray.
  replace (length pre + 8 + length (snd f) - (length pre + 8))%nat
    with (length (snd f)) by lia.
  rewrite skipn_app.
  rewrite skipn_all2 by lia.
  replace (length pre + 8 - length pre)%nat with 8%nat by lia.
  simpl. unfold frame, be32. simpl.
  rewrite drop_0. apply take_app_length.
Qed.

(** The loop on a buffer of whole frames followed by fewer than 8 stray
    bytes, entered at the start of a frame. *)
Lemma demux_loop_frames fs :
  forall pre junk turns,
    (length fs <= turns)%nat ->
    (length junk < 8)%nat ->
    Forall (fun f => (N.of_nat (length (snd f)) < 4294967296)%N) fs ->
    demux_loop turns (pre ++ frames fs ++ junk) (length pre)
    = map (fun f => (N.eqb (fst f) 2, snd f)) fs.
Proof.
  induction fs as [|f fs IH]; intros pre junk turns Hturns Hjunk Hall.
  - simpl. destruct turns as [|t]; [reflexivity|]. simpl.
    rewrite length_app.
    destruct (Nat.ltb_spec (length pre) (length pre + length junk));
      simpl; [|reflexivity].
    destruct (Nat.ltb_spec (length pre + length junk) (length pre + 8));
      [reflexivity|lia].
  - destruct turns as [|t]; [simpl in Hturns; lia|].
    inversion Hall as [|f' fs' Hf Hfs]; subst.
    change (frames (f :: fs)) with (frame f ++ frames fs).
    cbn [map fst snd].
    rewrite <- (app_assoc (frame f) (frames fs) junk).
    assert (Hlen : length (pre ++ frame f ++ frames fs ++ junk)
                   = (length pre + 8 + length (snd f)
                      + length (frames fs ++ junk))%nat).
    { rewrite !length_app, frame_length. lia. }
    cbn [demux_loop]. rewrite Hlen.
    destruct (Nat.ltb_spec (length pre)
                (length pre + 8 + length (snd f) + length (frames fs ++ junk)));
      [|lia].
    cbn [negb].
    destruct (Nat.ltb_spec
                (length pre + 8 + length (snd f) + length (frames fs ++ junk))
                (length pre + 8)); [lia|].
    cbv zeta.
    rewrite (readUInt32BE_frame pre f (frames fs ++ junk) Hf).
    rewrite Nat2N.id.
    destruct (Nat.ltb_spec
                (length pre + 8 + length (snd f) + length (frames fs ++ junk))
                (length pre + 8 + length (snd f))); [lia|].
    rewrite subarray_frame.
    replace (nth (length pre) (pre ++ frame f ++ frames fs ++ junk) 0%N)
      with (fst f).
    2:{ replace (length pre) with (length pre + 0)%nat at 1 by lia.
        rewrite app_nth2_plus. reflexivity. }
    simpl map. f_equal.
    replace (length pre + 8 + length (snd f))%nat
      with (length (pre ++ frame f))
      by (rewrite length_app, frame_length; lia).
    replace (pre ++ frame f ++ frames fs ++ junk)%list
      with ((pre ++ frame f) ++ frames fs ++ junk)%list
      by (rewrite <- app_assoc; reflexivity).
    apply IH; [simpl in Hturns; lia | exact Hjunk | exact Hfs].
Qed.

Lemma frames_length_ge fs : (8 * length fs <= length (frames fs))%nat.
Proof.
  induction fs as [|f fs IH]; [simpl; lia|].
  change (frames (f :: fs)) with (frame f ++ frames fs).
  rewrite length_app, frame_length. cbn [length]. lia.
Qed.

(** The loop on a whole buffer: the payloads of the frames, in order. *)
Lemma demux_frames fs junk :
  Forall (fun f => (N.of_nat (length (snd f)) < 4294967296)%N) fs ->
  (length junk < 8)%nat ->
  demux (frames fs ++ junk) = map (fun f => (N.eqb (fst f) 2, snd f)) fs.
Proof.
  intros Hall Hjunk. unfold demux.
  apply (demux_loop_frames fs [] junk); [|exact Hjunk|exact Hall].
  rewrite !length_app. cbn [length]. pose proof (frames_length_ge fs).
  lia.
Qed.

End LogDemux.

Section Shortcuts.
Import DockerTerminalService DockerTerminalShortcuts TerminalFacts
       ShortcutFacts LogFrames.
Local Open Scope list_scope.

Lemma payloads_of_pushed rt fs :
  let pushed :=
    map (fun f : bool * bytes => (fst f, toString_utf8 rt (snd f)))
        (map (fun f : N * bytes => (N.eqb (fst f) 2, snd f)) fs) in
  map snd (List.filter (fun f : bool * jsstring => negb (fst f)) pushed)
  = payloads rt false fs /\
  map snd (List.filter (fun f : bool * jsstring => fst f) pushed)
  = payloads rt true fs.
Proof.
  unfold payloads. induction fs as [|f fs [IH1 IH2]]; [split; reflexivity|].
  cbn [map List.filter fst snd].
  destruct (N.eqb (fst f) 2); cbn [negb Bool.eqb map snd];
    rewrite IH1, IH2; split; reflexivity.
Qed.

Lemma getContainerLogs_resolved rt e containerName tailLines calls container r :
  resolveContainer (engine e) containerName = (calls, Ok container) ->
  container_logs e container tailLines = Ok r ->
  exists res,
    getContainerLogs rt e containerName tailLines
    = (map Exec calls ++ [ContainerLogs container tailLines], Ok res) /\
    exitCode res = 0.
Proof.
  intros Hr Hl. unfold getContainerLogs, lift. rewrite Hr.
  unfold andThen at 1. cbn [fst snd].
  unfold andThen, call, pure. cbn [fst snd]. rewrite Hl.
  cbv beta iota zeta. rewrite app_nil_r.
  eexists. split; reflexivity.
Qed.

(** X19. When the engine answers the logs call with a buffer of whole
    frames (payloads shorter than [2^32] bytes, more than 8 bytes in all),
    followed or not by fewer than 8 stray bytes, [getContainerLogs] undoes
    the framing: [stderr] is the trimmed concatenation of the payloads of
    the frames of kind 2, [stdout] that of all other frames (or the
    placeholder when it is empty), in the order of the stream; the stray
    bytes are dropped and the exit code is 0. *)
Theorem getContainerLogs_demultiplexes
        rt e containerName tailLines calls container fs junk :
  resolveContainer (engine e) containerName = (calls, Ok container) ->
  container_logs e container tailLines = Ok (LogsBuffer (frames fs ++ junk)) ->
  Forall (fun f => (N.of_nat (length (snd f)) < 4294967296)%N) fs ->
  (length junk < 8)%nat ->
  (8 < length (frames fs ++ junk))%nat ->
  getContainerLogs rt e containerName tailLines
  = (map Exec calls ++ [ContainerLogs container tailLines],
     Ok {| stdout := or_else (trim (join_all (payloads rt false fs)))
                             (lit "(no logs available)");
           stderr := trim (join_all (payloads rt true fs));
           exitCode := 0 |}).
Proof.
  intros Hr Hl Hall Hjunk Hlen. unfold getContainerLogs, lift. rewrite Hr.
  unfold andThen at 1. cbn [fst snd].
  unfold andThen, call, pure. cbn [fst snd]. rewrite Hl.
  cbv beta iota zeta.
  destruct (Nat.ltb_spec 8 (length (frames fs ++ junk))) as [_|Hle]; [|lia].
  rewrite (demux_frames fs junk Hall Hjunk).
  cbn [fst snd].
  destruct (payloads_of_pushed rt fs) as [-> ->].
  rewrite app_nil_r. reflexivity.
Qed.

End Shortcuts.

Lemma getContainerLogs_demultiplexes_witness :
  DockerTerminalShortcuts.getContainerLogs
    ShortcutSample.ascii_codec ShortcutSample.with_logs
    (DockerTerminalService.lit "dropdeploy-site") (Some 100)
  = ([ DockerTerminalShortcuts.Exec
         (DockerTerminalService.ContainerInspect
            (DockerTerminalService.lit "dropdeploy-site"));
       DockerTerminalShortcuts.ContainerLogs
         (DockerTerminalService.lit "dropdeploy-site") (Some 100) ],
     Ok {| DockerTerminalService.stdout :=
             DockerTerminalService.lit "listening on 3000 GET / 200";
           DockerTerminalService.stderr :=
             DockerTerminalService.lit "warn: no config";
           DockerTerminalService.exitCode := 0 |}).
Proof.
  apply (getContainerLogs_demultiplexes
           ShortcutSample.ascii_codec ShortcutSample.with_logs
           (DockerTerminalService.lit "dropdeploy-site") (Some 100)
           [DockerTerminalService.ContainerInspect
              (DockerTerminalService.lit "dropdeploy-site")]
           (DockerTerminalService.lit "dropdeploy-site")
           ShortcutSample.log_frames [1; 0; 0]%N).
  - reflexivity.
  - reflexivity.
  - repeat constructor.
  - simpl. lia.
  - vm_compute. lia.
Defined.

Section ShortcutCases.
Import DockerTerminalService DockerTerminalShortcuts TerminalFacts
       ShortcutFacts LogFrames.
Local Open Scope list_scope.

Lemma or_else_nonempty text fallback :
  fallback <> [] -> or_else text fallback <> [].
Proof. intros H. destruct text; [exact H|discriminate]. Qed.

(** X20. Once the container is found and the engine answers the logs
    call, [getContainerLogs] always answers: the exit code is 0 and
    [stdout] is never empty.  A buffer of at most 8 bytes is not
    demultiplexed, even when it is a well-formed frame: [stdout] is then
    the trimmed text of the whole buffer, header included, and [stderr] is
    empty. *)
Theorem getContainerLogs_always_answers
        rt e containerName tailLines calls container r :
  resolveContainer (engine e) containerName = (calls, Ok container) ->
  container_logs e container tailLines = Ok r ->
  exists res,
    getContainerLogs rt e containerName tailLines
    = (map Exec calls ++ [ContainerLogs container tailLines], Ok res) /\
    exitCode res = 0 /\
    stdout res <> [] /\
    (forall b, r = LogsBuffer b -> (length b <= 8)%nat ->
               stdout res = or_else (trim (toString_utf8 rt b))
                                    (lit "(no logs available)") /\
               stderr res = []).
Proof.
  intros Hr Hl. unfold getContainerLogs, lift. rewrite Hr.
  unfold andThen at 1. cbn [fst snd].
  unfold andThen, call, pure. cbn [fst snd]. rewrite Hl.
  cbv beta iota zeta. rewrite app_nil_r.
  eexists. split; [reflexivity|]. cbn [exitCode stdout stderr].
  split; [reflexivity|]. split.
  - apply or_else_nonempty. discriminate.
  - intros b -> Hb.
    destruct (Nat.ltb_spec 8 (length b)) as [Hlt|_]; [lia|].
    cbn [List.filter negb fst snd map join_all concat].
    rewrite app_nil_r. split; reflexivity.
Qed.

(** What [resolveContainer] asks the engine. *)
Lemma resolveContainer_calls e containerName :
  fst (resolveContainer e containerName) = [ContainerInspect containerName]
  \/ fst (resolveContainer e containerName)
     = [ContainerInspect containerName; ListContainers].
Proof.
  unfold resolveContainer, andThen, call, pure, fail. cbn [fst snd].
  destruct (container_inspect e containerName); cbn [fst snd app];
    [left; reflexivity|].
  destruct (listContainers e) as [l|err]; cbn [fst snd app];
    [|right; reflexivity].
  destruct (find _ l); right; reflexivity.
Qed.

(** The calls of [getContainerLogs]: no exec, and a logs call with the
    number of lines asked for. *)
Lemma getContainerLogs_calls rt e containerName tailLines :
  Forall (fun c => match c with
                   | ContainerLogs _ t => t = tailLines
                   | Exec (ExecCreate _ _) => False
                   | Exec _ => True
                   end)
         (fst (getContainerLogs rt e containerName tailLines)).
Proof.
  unfold getContainerLogs, lift.
  destruct (resolveContainer (engine e) containerName) as [cs [c|err]] eqn:Hr;
    pose proof (resolveContainer_calls (engine e) containerName) as Hc;
    rewrite Hr in Hc; cbn [fst] in Hc.
  - unfold andThen at 1. cbn [fst snd].
    unfold andThen, call, pure. cbn [fst snd].
    destruct (container_logs e c tailLines); cbn [fst snd];
      destruct Hc as [-> | ->]; repeat constructor.
  - unfold andThen. cbn [fst snd].
    destruct Hc as [-> | ->]; repeat constructor.
Qed.

(** The calls of [runInContainer], seen from the gateway: every exec runs
    the command given. *)
Lemma runInContainer_lift_calls e containerName command :
  Forall (fun c => match c with
                   | Exec (ExecCreate _ cmd) =>
                       cmd = [lit "/bin/sh"; lit "-c"; command]
                   | ContainerLogs _ _ => False
                   | Exec _ => True
                   end)
         (fst (lift (runInContainer e containerName command))).
Proof.
  unfold lift. cbn [fst]. apply List.Forall_forall. intros c Hc.
  apply in_map_iff in Hc. destruct Hc as [c' [<- Hin]].
  destruct c'; try exact I.
  apply (runInContainer_exec_commands e containerName command).
  unfold exec_commands. apply list_elem_of_In.
  apply list_elem_of_omap. eexists. split.
  - apply list_elem_of_In. exact Hin.
  - reflexivity.
Qed.

Lemma executeSlashCommand_cases rt e containerName slashInput name :
  first_token slashInput = Some name ->
  executeSlashCommand rt e containerName slashInput =
    if jsstring_eqb name (lit "/show-logs")
    then getContainerLogs rt e containerName (Some 500)
    else if jsstring_eqb name (lit "/tail-logs")
    then getContainerLogs rt e containerName (Some 100)
    else if jsstring_eqb name (lit "/env")
    then lift (runInContainer (engine e) containerName (lit "env | sort"))
    else if jsstring_eqb name (lit "/files")
    then lift (runInContainer (engine e) containerName (lit "ls -la"))
    else if jsstring_eqb name (lit "/help")
    then pure {| stdout := lit "Available commands:" ++ lit nl ++ lit nl
                           ++ help_text ++ lit nl ++ lit nl
                           ++ lit "Type any command or use / to see suggestions.";
                 stderr := [];
                 exitCode := 0 |}
    else fail (mkError (unknown_slash_message name)).
Proof.
  intros Hn. unfold executeSlashCommand. unfold first_token in Hn.
  rewrite Hn. cbn [default from_option id].
  generalize (join (lit " ") (tail (split_whitespace (trim slashInput)))).
  intros args. unfold jsstring_eqb, SLASH_COMMANDS. cbn [find slash_name].
  destruct (decide (name = lit "/show-logs")) as [->|N1]; [reflexivity|].
  rewrite (bool_decide_eq_false_2 (name = lit "/show-logs")) by assumption.
  rewrite (bool_decide_eq_false_2 (lit "/show-logs" = name)) by congruence.
  destruct (decide (name = lit "/tail-logs")) as [->|N2]; [reflexivity|].
  rewrite (bool_decide_eq_false_2 (name = lit "/tail-logs")) by assumption.
  rewrite (bool_decide_eq_false_2 (lit "/tail-logs" = name)) by congruence.
  destruct (decide (name = lit "/env")) as [->|N3]; [reflexivity|].
  rewrite (bool_decide_eq_false_2 (name = lit "/env")) by assumption.
  rewrite (bool_decide_eq_false_2 (lit "/env" = name)) by congruence.
  destruct (decide (name = lit "/files")) as [->|N4]; [reflexivity|].
  rewrite (bool_decide_eq_false_2 (name = lit "/files")) by assumption.
  rewrite (bool_decide_eq_false_2 (lit "/files" = name)) by congruence.
  destruct (decide (name = lit "/help")) as [->|N5]; [reflexivity|].
  rewrite (bool_decide_eq_false_2 (name = lit "/help")) by assumption.
  rewrite (bool_decide_eq_false_2 (lit "/help" = name)) by congruence.
  reflexivity.
Qed.

(** X21. A shortcut whose name is not in the registry is refused before
    any call to the engine, with an error that quotes the name and lists
    every registered shortcut. *)
Theorem executeSlashCommand_unknown rt e containerName slashInput name :
  first_token slashInput = Some name ->
  (forall c, In c SLASH_COMMANDS -> slash_name c <> name) ->
  executeSlashCommand rt e containerName slashInput
  = ([], Throw (mkError (unknown_slash_message name))) /\
  forall c, In c SLASH_COMMANDS ->
            is_infix (slash_name c) (unknown_slash_message name) = true.
Proof.
  intros Hn Hnot. split.
  - rewrite (executeSlashCommand_cases rt e containerName slashInput name Hn).
    assert (Hall : Forall (fun c => slash_name c <> name) SLASH_COMMANDS)
      by (apply List.Forall_forall; exact Hnot).
    unfold SLASH_COMMANDS in Hall.
    repeat match goal with
           | H : Forall _ (_ :: _) |- _ =>
               apply List.Forall_cons_iff in H; cbn [slash_name] in H;
               destruct H as [? H]
           end.
    unfold jsstring_eqb.
    rewrite !bool_decide_eq_false_2 by congruence. reflexivity.
  - intros c Hc. unfold unknown_slash_message. rewrite !app_assoc.
    apply is_infix_app.
    assert (Hall : forallb (fun c => is_infix (slash_name c)
                              (join (lit ", ") (map slash_name SLASH_COMMANDS)))
                           SLASH_COMMANDS = true) by (vm_compute; reflexivity).
    rewrite forallb_forall in Hall. apply Hall, Hc.
Qed.

(** The calls of a shortcut pass only fixed text to the engine. *)
Lemma shortcut_calls_fixed rt e containerName slashInput :
  Forall fixed_call (fst (executeSlashCommand rt e containerName slashInput)).
Proof.
  destruct (first_token_is_some slashInput) as [name Hn].
  rewrite (executeSlashCommand_cases rt e containerName slashInput name Hn).
  destruct (jsstring_eqb name (lit "/show-logs")).
  { eapply List.Forall_impl; [|apply getContainerLogs_calls].
    intros [[]|] H; simpl in *; tauto. }
  destruct (jsstring_eqb name (lit "/tail-logs")).
  { eapply List.Forall_impl; [|apply getContainerLogs_calls].
    intros [[]|] H; simpl in *; tauto. }
  destruct (jsstring_eqb name (lit "/env")).
  { eapply List.Forall_impl; [|apply runInContainer_lift_calls].
    intros [[]|] H; simpl in *; tauto. }
  destruct (jsstring_eqb name (lit "/files")).
  { eapply List.Forall_impl; [|apply runInContainer_lift_calls].
    intros [[]|] H; simpl in *; tauto. }
  destruct (jsstring_eqb name (lit "/help")); constructor.
Qed.

(** X22. Whatever follows the name of a shortcut is never passed on: in
    every run of [executeSlashCommand], on any input, an exec created in
    the container runs [env | sort] or [ls -la] through [/bin/sh -c], and
    a logs call asks for the last 500 or the last 100 lines. *)
Theorem executeSlashCommand_fixed_calls rt e containerName slashInput :
  Forall fixed_call (fst (executeSlashCommand rt e containerName slashInput)).
Proof. apply shortcut_calls_fixed. Qed.

(** [/help] is answered without any call to the engine, whatever
    follows it on the line: the exit code is 0, [stderr] is empty, and
    [stdout] shows the name and the description of every other shortcut
    of the registry, and not [/help] itself. *)
Lemma executeSlashCommand_help rt e containerName slashInput :
  first_token slashInput = Some (lit "/help") ->
  exists res,
    executeSlashCommand rt e containerName slashInput = ([], Ok res) /\
    exitCode res = 0 /\ stderr res = [] /\
    is_infix (lit "/help") (stdout res) = false /\
    forall c, In c SLASH_COMMANDS -> slash_name c <> lit "/help" ->
              is_infix (slash_name c) (stdout res) = true /\
              is_infix (description c) (stdout res) = true.
Proof.
  intros Hn.
  rewrite (executeSlashCommand_cases rt e containerName slashInput _ Hn).
  eexists. split; [reflexivity|]. cbn [exitCode stderr stdout].
  split; [reflexivity|]. split; [reflexivity|].
  split; [vm_compute; reflexivity|].
  intros c Hc Hne.
  simpl in Hc. destruct Hc as [<-|[<-|[<-|[<-|[<-|[]]]]]];
    try (split; vm_compute; reflexivity).
  contradiction Hne. reflexivity.
Qed.

(** X23. The log shortcuts do not need a running container, the exec
    shortcuts do.  When the named container exists but has stopped,
    [/show-logs] and [/tail-logs] still answer with exit code 0 as soon as
    the engine answers the logs call, without creating an exec, while
    [/env] and [/files] are refused with [Container is not running]. *)
Theorem executeSlashCommand_on_stopped_container
        rt e containerName slashInput name :
  first_token slashInput = Some name ->
  container_inspect (engine e) containerName = Some false ->
  (forall tailLines, exists r,
      container_logs e containerName tailLines = Ok r) ->
  let run := executeSlashCommand rt e containerName slashInput in
  (name = lit "/show-logs" \/ name = lit "/tail-logs" ->
   (exists res, snd run = Ok res /\ exitCode res = 0) /\
   List.filter is_exec (fst run) = []) /\
  (name = lit "/env" \/ name = lit "/files" ->
   run = ([Exec (ContainerInspect containerName);
           Exec (ContainerInspect containerName)],
          Throw (mkError (lit "Container is not running")))).
Proof.
  intros Hn Hi Hlogs run. subst run.
  rewrite (executeSlashCommand_cases rt e containerName slashInput name Hn).
  assert (Hres : resolveContainer (engine e) containerName
                 = ([ContainerInspect containerName], Ok containerName)).
  { unfold resolveContainer, andThen, call, pure. cbn [fst snd].
    rewrite Hi. reflexivity. }
  split.
  - intros Hname.
    assert (Hgo : forall tailLines,
               (exists res, snd (getContainerLogs rt e containerName tailLines)
                            = Ok res /\ exitCode res = 0) /\
               List.filter is_exec
                 (fst (getContainerLogs rt e containerName tailLines)) = []).
    { intros tailLines. destruct (Hlogs tailLines) as [r Hr].
      destruct (getContainerLogs_resolved
                  rt e containerName tailLines _ _ r Hres Hr)
        as [res [-> Hc]].
      split; [exists res; split; [reflexivity|exact Hc]|reflexivity]. }
    destruct Hname as [-> | ->]; apply Hgo.
  - intros Hname.
    assert (Hgo : forall command,
               lift (runInContainer (engine e) containerName command)
               = ([Exec (ContainerInspect containerName);
                   Exec (ContainerInspect containerName)],
                  Throw (mkError (lit "Container is not running")))).
    { intros command. unfold lift, runInContainer. rewrite Hres.
      unfold andThen at 1. cbn [fst snd].
      unfold andThen, call, fail. cbn [fst snd]. rewrite Hi.
      reflexivity. }
    destruct Hname as [-> | ->]; apply Hgo.
Qed.

End ShortcutCases.

Lemma getContainerLogs_always_answers_witness :
  exists res,
    snd (DockerTerminalShortcuts.getContainerLogs
           ShortcutSample.ascii_codec ShortcutSample.empty_frame_logs
           (DockerTerminalService.lit "dropdeploy-site") (Some 100)) = Ok res /\
    DockerTerminalService.stdout res = [1; 0; 0; 0; 0; 0; 0; 0]%N.
Proof.
  destruct (getContainerLogs_always_answers
              ShortcutSample.ascii_codec ShortcutSample.empty_frame_logs
              (DockerTerminalService.lit "dropdeploy-site") (Some 100)
              [DockerTerminalService.ContainerInspect
                 (DockerTerminalService.lit "dropdeploy-site")]
              (DockerTerminalService.lit "dropdeploy-site")
              (DockerTerminalShortcuts.LogsBuffer (LogFrames.frame (1%N, [])))
              eq_refl eq_refl)
    as [res [E [_ [_ H]]]].
  exists res. rewrite E. split; [reflexivity|].
  destruct (H _ eq_refl) as [-> _]; [simpl; lia|reflexivity].
Defined.

Lemma executeSlashCommand_unknown_witness :
  DockerTerminalShortcuts.executeSlashCommand
    ShortcutSample.ascii_codec ShortcutSample.with_logs
    (DockerTerminalService.lit "dropdeploy-site")
    (DockerTerminalService.lit "/restart now")
  = ([], Throw (DockerTerminalService.mkError
                  (DockerTerminalService.lit
                     ("Unknown slash command " ++ dq ++ "/restart" ++ dq
                      ++ ". Available: /show-logs, /tail-logs, /env, /files, /help")))).
Proof.
  apply (executeSlashCommand_unknown
           ShortcutSample.ascii_codec ShortcutSample.with_logs
           (DockerTerminalService.lit "dropdeploy-site")
           (DockerTerminalService.lit "/restart now")
           (DockerTerminalService.lit "/restart")).
  - reflexivity.
  - intros c Hc E. simpl in Hc.
    destruct Hc as [<-|[<-|[<-|[<-|[<-|[]]]]]]; vm_compute in E; discriminate E.
Defined.

Lemma executeSlashCommand_on_stopped_container_witness :
  (exists res,
      snd (DockerTerminalShortcuts.executeSlashCommand
             ShortcutSample.ascii_codec ShortcutSample.stopped_with_logs
             (DockerTerminalService.lit "dropdeploy-site")
             (DockerTerminalService.lit "/tail-logs 5")) = Ok res /\
      DockerTerminalService.exitCode res = 0) /\
  List.filter ShortcutFacts.is_exec
    (fst (DockerTerminalShortcuts.executeSlashCommand
            ShortcutSample.ascii_codec ShortcutSample.stopped_with_logs
            (DockerTerminalService.lit "dropdeploy-site")
            (DockerTerminalService.lit "/tail-logs 5"))) = [].
Proof.
  apply (executeSlashCommand_on_stopped_container
           ShortcutSample.ascii_codec ShortcutSample.stopped_with_logs
           (DockerTerminalService.lit "dropdeploy-site")
           (DockerTerminalService.lit "/tail-logs 5")
           (DockerTerminalService.lit "/tail-logs")).
  - reflexivity.
  - reflexivity.
  - intros tailLines. eexists. reflexivity.
  - right. reflexivity.
Defined.

Section ContainerLookup.
Import Entity DockerTerminalService DockerTerminalShortcuts TerminalFacts
       ShortcutFacts.
Local Open Scope list_scope.

(** X24. [runInContainer] creates an exec only in a container that the
    engine has just reported as running, be it the one found by name or
    the one found by image: every other outcome of the lookup or of the
    inspection ends the call before [container.exec]. *)
Theorem runInContainer_execs_only_when_running e containerName command :
  Forall (exec_in e) (fst (runInContainer e containerName command)).
Proof.
  unfold runInContainer, resolveContainer, andThen, call, pure, fail.
  cbn [fst snd app].
  destruct (container_inspect e containerName) as [[|]|] eqn:Hi;
    cbn [fst snd app].
  - rewrite Hi. cbn [fst snd app negb].
    destruct (exec_create e containerName _); cbn [fst snd app];
      [destruct (exec_start e); cbn [fst snd app];
       [destruct (stream e); cbn [fst snd app]|]|];
      repeat (apply List.Forall_cons; [try exact I; exact Hi|]);
      apply List.Forall_nil.
  - rewrite Hi. cbn [fst snd app negb]. repeat constructor.
  - destruct (listContainers e) as [containers|err]; cbn [fst snd app];
      [|repeat constructor].
    destruct (find _ containers) as [m|]; cbn [fst snd app];
      [|repeat constructor].
    destruct (container_inspect e (Id m)) as [[|]|] eqn:Hm; cbn [fst snd app negb];
      try (repeat constructor; fail).
    destruct (exec_create e (Id m) _); cbn [fst snd app];
      [destruct (exec_start e); cbn [fst snd app];
       [destruct (stream e); cbn [fst snd app]|]|];
      repeat (apply List.Forall_cons; [try exact I; exact Hm|]);
      apply List.Forall_nil.
Qed.

Lemma lit_app (a b : string) : lit (a ++ b)%string = lit a ++ lit b.
Proof.
  unfold lit. induction a as [|c a IH]; simpl; [reflexivity|].
  f_equal. exact IH.
Qed.

(** The image the lookup falls back on, for the name the pipeline gives
    the container of a project, is the image [buildImage] builds for
    it. *)
Lemma fallback_image_of project :
  replace_prefix (lit ("dropdeploy-" ++ slug project)) ++ lit ":latest"
  = lit (DockerFacts.image_of project).
Proof.
  unfold replace_prefix, DockerFacts.image_of. rewrite !lit_app.
  cbv zeta.
  replace (firstn (length (lit "dropdeploy-")) (lit "dropdeploy-" ++ lit (slug project)))
    with (lit "dropdeploy-") by (symmetry; apply take_app_length).
  replace (skipn (length (lit "dropdeploy-")) (lit "dropdeploy-" ++ lit (slug project)))
    with (lit (slug project)) by (symmetry; apply drop_app_length).
  unfold jsstring_eqb. rewrite bool_decide_eq_true_2 by reflexivity.
  rewrite <- app_assoc. reflexivity.
Qed.

Lemma find_first {A} (f : A -> bool) before m after :
  Forall (fun x => f x = false) before -> f m = true ->
  find f (before ++ m :: after) = Some m.
Proof.
  intros Hb Hm. induction Hb as [|x before Hx _ IH]; cbn [app find].
  - rewrite Hm. reflexivity.
  - rewrite Hx. exact IH.
Qed.

Lemma find_none_of {A} (f : A -> bool) l :
  Forall (fun x => f x = false) l -> find f l = None.
Proof.
  intros H. induction H as [|x l Hx _ IH]; cbn [find]; [reflexivity|].
  rewrite Hx. exact IH.
Qed.

(** X25. The lookup by image finds what the pipeline built.  For the
    container name the pipeline and the terminal route derive from a
    project, [dropdeploy-<slug>], when no container has that name
    [resolveContainer] returns the first running container, in the order
    of the engine's list, whose image is the one [buildImage] tags for the
    project, [dropdeploy/<slug>:latest]; when there is none it throws the
    error that asks for a redeploy. *)
Theorem resolveContainer_falls_back_on_built_image e project running :
  let containerName := lit ("dropdeploy-" ++ slug project) in
  let image := lit (DockerFacts.image_of project) in
  container_inspect e containerName = None ->
  listContainers e = Ok running ->
  (forall before m after,
      running = before ++ m :: after ->
      Forall (fun c => info_Image c <> image) before ->
      info_Image m = image ->
      resolveContainer e containerName
      = ([ContainerInspect containerName; ListContainers], Ok (Id m))) /\
  (Forall (fun c => info_Image c <> image) running ->
   resolveContainer e containerName
   = ([ContainerInspect containerName; ListContainers],
      Throw (mkError (not_found_message containerName)))).
Proof.
  intros containerName image Hi Hl.
  assert (Hrun : resolveContainer e containerName
                 = ([ContainerInspect containerName; ListContainers],
                    match find (fun c => jsstring_eqb (info_Image c) image)
                               running with
                    | Some m => Ok (Id m)
                    | None => Throw (mkError (not_found_message containerName))
                    end)).
  { unfold resolveContainer, andThen, call, pure, fail. cbn [fst snd app].
    rewrite Hi. cbn [fst snd app]. rewrite Hl. cbn [fst snd app].
    subst containerName image. rewrite fallback_image_of.
    destruct (find _ running); reflexivity. }
  split.
  - intros before m after -> Hb Hm. rewrite Hrun.
    rewrite (find_first _ before m after); [reflexivity| |].
    + eapply List.Forall_impl; [|exact Hb]. intros c Hc.
      unfold jsstring_eqb. apply bool_decide_eq_false_2. exact Hc.
    + unfold jsstring_eqb. apply bool_decide_eq_true_2. exact Hm.
  - intros Hnone. rewrite Hrun. rewrite find_none_of; [reflexivity|].
    eapply List.Forall_impl; [|exact Hnone]. intros c Hc.
    unfold jsstring_eqb. apply bool_decide_eq_false_2. exact Hc.
Qed.

End ContainerLookup.

Lemma resolveContainer_falls_back_on_built_image_witness :
  DockerTerminalService.resolveContainer ShortcutSample.by_image
    (DockerTerminalService.lit "dropdeploy-site")
  = ([ DockerTerminalService.ContainerInspect
         (DockerTerminalService.lit "dropdeploy-site");
       DockerTerminalService.ListContainers ],
     Ok (DockerTerminalService.lit "4f2a")).
Proof.
  apply (proj1 (resolveContainer_falls_back_on_built_image
                  ShortcutSample.by_image Sample.site _ eq_refl eq_refl)
               [ {| DockerTerminalService.Id := DockerTerminalService.lit "9c1d";
                    DockerTerminalService.info_Image :=
                      DockerTerminalService.lit "postgres:16" |} ]
               {| DockerTerminalService.Id := DockerTerminalService.lit "4f2a";
                  DockerTerminalService.info_Image :=
                    DockerTerminalService.lit "dropdeploy/site:latest" |}
               []).
  - reflexivity.
  - constructor; [|constructor]. intros E. vm_compute in E. discriminate E.
  - reflexivity.
Defined.

(** * Properties of the configuration patcher *)

Section Patcher.
Import DockerTerminalService DockerTerminalShortcuts NextConfigPatcher
       PatcherFacts.
Local Open Scope list_scope.

Lemma startsWith_app s t needle :
  startsWith s needle = true -> startsWith (s ++ t) needle = true.
Proof.
  revert s. induction needle as [|p needle IH]; intros s H;
    [destruct (s ++ t); reflexivity|].
  destruct s as [|c s]; [discriminate|]. cbn [app startsWith] in *.
  apply andb_true_iff in H as [H1 H2]. rewrite H1. cbn [andb].
  apply IH, H2.
Qed.

Lemma includes_cons c s needle :
  includes s needle = true -> includes (c :: s) needle = true.
Proof. intros H. cbn [includes]. rewrite H. apply orb_true_r. Qed.

Lemma includes_app_l s t needle :
  includes s needle = true -> includes (s ++ t) needle = true.
Proof.
  induction s as [|c s IH]; intros H.
  - cbn [includes] in H. rewrite orb_false_r in H.
    destruct needle; [|discriminate]. destruct t; reflexivity.
  - cbn [includes] in H. apply orb_true_iff in H as [H|H].
    + change ((c :: s) ++ t) with (c :: (s ++ t)). cbn [includes].
      pose proof (startsWith_app (c :: s) t needle H) as H'.
      cbn [app] in H'. rewrite H'. reflexivity.
    + cbn [app]. apply includes_cons, IH, H.
Qed.

Lemma includes_app_r s t needle :
  includes t needle = true -> includes (s ++ t) needle = true.
Proof.
  intros H. induction s as [|c s IH]; [exact H|].
  cbn [app]. apply includes_cons, IH.
Qed.

Lemma replace_export_default_eq content :
  replace_export_default content =
    match match_export_default content with
    | Some (g1, rest) => esm_overrides g1 ++ rest
    | None =>
        match content with
        | [] => []
        | c :: rest => c :: replace_export_default rest
        end
    end.
Proof. destruct content; reflexivity. Qed.

Lemma has_export_default_eq content :
  has_export_default content =
    match match_export_default content with
    | Some _ => true
    | None =>
        match content with
        | [] => false
        | _ :: rest => has_export_default rest
        end
    end.
Proof. destruct content; reflexivity. Qed.

Lemma esm_overrides_flag g1 rest :
  includes (esm_overrides g1 ++ rest) (lit "ignoreDuringBuilds") = true.
Proof.
  apply includes_app_l. unfold esm_overrides.
  do 3 apply includes_app_r. apply includes_app_l.
  vm_compute. reflexivity.
Qed.

(** Without a default export of the expected form the text is kept; with
    one, the result carries the override. *)
Lemma replace_export_default_cases content :
  (has_export_default content = false /\
   replace_export_default content = content) \/
  (has_export_default content = true /\
   includes (replace_export_default content) (lit "ignoreDuringBuilds") = true).
Proof.
  induction content as [|c content IH];
    rewrite replace_export_default_eq, has_export_default_eq.
  - left. split; reflexivity.
  - destruct (match_export_default (c :: content)) as [[g1 rest]|].
    + right. split; [reflexivity|apply esm_overrides_flag].
    + destruct IH as [[Hh Hr]|[Hh Hi]].
      * left. rewrite Hr. split; [exact Hh|reflexivity].
      * right. split; [exact Hh|apply includes_cons, Hi].
Qed.

Lemma append_inj_r (a b c : string) : (a ++ b = a ++ c)%string -> b = c.
Proof.
  induction a as [|x a IH]; simpl; intros H; [exact H|].
  injection H as H. apply IH, H.
Qed.

Lemma path_join_inj contextPath a b :
  path_join contextPath a = path_join contextPath b -> a = b.
Proof.
  unfold path_join. intros H.
  apply append_inj_r in H. apply (append_inj_r "/") in H. exact H.
Qed.

Lemma patch_from_skip contextPath pre rest fs :
  Forall (fun f => fs !! path_join contextPath f = None) pre ->
  snd (patch_from contextPath (pre ++ rest) fs)
  = snd (patch_from contextPath rest fs).
Proof.
  intros H. induction H as [|f pre Hf _ IH]; [reflexivity|].
  cbn [app patch_from]. rewrite Hf. cbn [snd]. exact IH.
Qed.

Lemma first_config_skip contextPath pre rest fs :
  Forall (fun f => fs !! path_join contextPath f = None) pre ->
  first_config contextPath (pre ++ rest) fs = first_config contextPath rest fs.
Proof.
  intros H. induction H as [|f pre Hf _ IH]; [reflexivity|].
  cbn [app first_config]. rewrite Hf. exact IH.
Qed.

Lemma absent_after_insert contextPath pre f content (fs : Files) :
  ~ In f pre ->
  Forall (fun f' => fs !! path_join contextPath f' = None) pre ->
  Forall (fun f' => <[path_join contextPath f := content]> fs
                    !! path_join contextPath f' = None) pre.
Proof.
  intros Hnot H. induction H as [|f' pre Hf' _ IH]; constructor.
  - cbv beta in *. rewrite lookup_insert_ne; [exact Hf'|].
    intros E. apply path_join_inj in E. apply Hnot. left. symmetry. exact E.
  - apply IH. intros Hin. apply Hnot. right. exact Hin.
Qed.

(** What a run leaves, seen from any point of the loop: the first
    candidate of the context carries the override, or it is an ES module
    without a default export of the expected form and nothing changed. *)
Lemma patch_from_outcome contextPath fs pre rest :
  CONFIG_FILES = pre ++ rest ->
  Forall (fun f => fs !! path_join contextPath f = None) pre ->
  let fs' := snd (patch_from contextPath rest fs) in
  exists file content,
    first_config contextPath CONFIG_FILES fs' = Some (file, content) /\
    (forall p, p <> path_join contextPath file -> fs' !! p = fs !! p) /\
    (includes content (lit "ignoreDuringBuilds") = true \/
     (fs' = fs /\ includes content (lit "module.exports") = false /\
      has_export_default content = false)).
Proof.
  revert pre. induction rest as [|f rest IH]; intros pre Hsplit Hpre fs'.
  - rewrite app_nil_r in Hsplit. subst pre fs'. cbn [patch_from snd].
    exists "next.config.js", minimal_config.
    unfold CONFIG_FILES in *.
    repeat match goal with
           | H : Forall _ (_ :: _) |- _ =>
               apply List.Forall_cons_iff in H; destruct H as [? H]
           end.
    split; [|split; [intros p Hp; apply lookup_insert_ne; congruence
                    |left; vm_compute; reflexivity]].
    cbn [first_config].
    rewrite !lookup_insert_ne
      by (intros E; apply path_join_inj in E; discriminate E).
    repeat match goal with
           | H : _ !! _ = None |- _ => rewrite H; clear H
           end.
    rewrite lookup_insert_eq. reflexivity.
  - assert (Hnot : ~ In f pre).
    { assert (Hnd : List.NoDup CONFIG_FILES)
        by (unfold CONFIG_FILES; repeat constructor; simpl;
            intuition discriminate).
      rewrite Hsplit in Hnd. apply List.NoDup_remove_2 in Hnd.
      intros Hin. apply Hnd. apply in_or_app. left. exact Hin. }
    subst fs'. cbn [patch_from].
    destruct (fs !! path_join contextPath f) as [content|] eqn:Hf.
    + destruct (includes content (lit "ignoreDuringBuilds")) eqn:Hflag;
        cbn [snd].
      * exists f, content. split; [|split; [reflexivity|left; exact Hflag]].
        rewrite Hsplit, (first_config_skip _ _ _ _ Hpre).
        cbn [first_config]. rewrite Hf. reflexivity.
      * set (content' := if includes content (lit "module.exports")
                         then content ++ cjs_overrides
                         else replace_export_default content).
        exists f, content'. split.
        { rewrite Hsplit.
          rewrite (first_config_skip _ _ _ _
                     (absent_after_insert _ _ _ content' _ Hnot Hpre)).
          cbn [first_config]. rewrite lookup_insert_eq. reflexivity. }
        split; [intros p Hp; apply lookup_insert_ne; congruence|].
        subst content'.
        destruct (includes content (lit "module.exports")) eqn:Hcjs.
        { left. apply includes_app_r. vm_compute. reflexivity. }
        destruct (replace_export_default_cases content) as [[Hh Hr]|[Hh Hi]].
        { right. rewrite Hr. split; [apply insert_id; exact Hf|].
          split; [exact Hcjs|exact Hh]. }
        { left. exact Hi. }
    + cbn [snd]. apply (IH (pre ++ [f])).
      * rewrite <- app_assoc. exact Hsplit.
      * apply Forall_app. split; [exact Hpre|]. constructor; [exact Hf|constructor].
Qed.

Lemma patch_from_configured contextPath files fs file content :
  first_config contextPath files fs = Some (file, content) ->
  includes content (lit "ignoreDuringBuilds") = true ->
  snd (patch_from contextPath files fs) = fs /\
  written (fst (patch_from contextPath files fs)) = [].
Proof.
  intros Hfirst Hflag. induction files as [|f files IH]; [discriminate|].
  cbn [first_config] in Hfirst. cbn [patch_from].
  destruct (fs !! path_join contextPath f) as [c|].
  - injection Hfirst as -> ->. rewrite Hflag. split; reflexivity.
  - cbn [fst snd]. apply IH, Hfirst.
Qed.

(** X27. What a run of [patchNextConfig] leaves.  The context then has a
    configuration file; the first one, in the order of the candidates,
    is the only file of the context that the run may have changed or
    created; and its text mentions [ignoreDuringBuilds], with one
    exception: a configuration that mentions neither that word nor
    [module.exports] and has no default export of the form
    [export default <identifier>] (an object literal, say) is written
    back as it was, so the context is left unchanged. *)
Theorem patchNextConfig_outcome contextPath fs :
  let fs' := snd (patchNextConfig contextPath fs) in
  exists file content,
    first_config contextPath CONFIG_FILES fs' = Some (file, content) /\
    (forall p, p <> path_join contextPath file -> fs' !! p = fs !! p) /\
    (includes content (lit "ignoreDuringBuilds") = true \/
     (fs' = fs /\ includes content (lit "module.exports") = false /\
      has_export_default content = false)).
Proof.
  apply (patch_from_outcome contextPath fs [] CONFIG_FILES);
    [reflexivity|constructor].
Qed.

(** X28. [patchNextConfig] is idempotent: a second run on the same
    context leaves every file as the first run left it, and when the
    first run left a configuration that mentions [ignoreDuringBuilds] the
    second run writes nothing at all. *)
Theorem patchNextConfig_idempotent contextPath fs :
  let fs' := snd (patchNextConfig contextPath fs) in
  snd (patchNextConfig contextPath fs') = fs' /\
  ((exists file content,
       first_config contextPath CONFIG_FILES fs' = Some (file, content) /\
       includes content (lit "ignoreDuringBuilds") = true) ->
   written (fst (patchNextConfig contextPath fs')) = []).
Proof.
  intros fs'.
  destruct (patch_from_outcome contextPath fs [] CONFIG_FILES eq_refl
              ltac:(constructor))
    as (file & content & Hfirst & _ & Hcase).
  fold (patchNextConfig contextPath fs) in Hfirst, Hcase. fold fs' in Hfirst, Hcase.
  split.
  - destruct Hcase as [Hflag|[Hsame _]].
    + apply (patch_from_configured _ _ _ _ _ Hfirst Hflag).
    + rewrite Hsame. exact Hsame.
  - intros (file' & content' & Hfirst' & Hflag').
    apply (patch_from_configured _ _ _ _ _ Hfirst' Hflag').
Qed.

End Patcher.

(** The exception at work: a configuration that exports an object
    literal is left as it was, without the override. *)
Example patchNextConfig_leaves_object_export :
  snd (NextConfigPatcher.patchNextConfig "/ctx" PatcherSample.object_export)
  = PatcherSample.object_export /\
  PatcherFacts.written
    (fst (NextConfigPatcher.patchNextConfig "/ctx" PatcherSample.object_export))
  = ["/ctx/next.config.mjs"].
Proof. split; vm_compute; reflexivity. Qed.

(** A CommonJS configuration keeps its text and gets the overrides
    appended; the other files of the context are not touched. *)
Example patchNextConfig_appends_to_commonjs :
  snd (NextConfigPatcher.patchNextConfig "/ctx" PatcherSample.commonjs)
  = <[ "/ctx/next.config.js" :=
         (DockerTerminalService.lit "module.exports = { images: {} };"
          ++ NextConfigPatcher.cjs_overrides)%list ]> PatcherSample.commonjs.
Proof. vm_compute. reflexivity. Qed.


(** * Properties of the slugs of projects *)

Section Slugs.
Import DockerTerminalService DockerTerminalShortcuts NextConfigPatcher
       ProjectSlug SlugFacts.
Local Open Scope list_scope.

Lemma startsWith_split s needle :
  startsWith s needle = true -> exists post, s = needle ++ post.
Proof.
  revert s. induction needle as [|p needle IH]; intros s H.
  - exists s. reflexivity.
  - destruct s as [|c s]; [discriminate|]. cbn [startsWith] in H.
    apply andb_true_iff in H as [H1 H2]. apply N.eqb_eq in H1. subst c.
    destruct (IH s H2) as [post ->]. exists post. reflexivity.
Qed.

(** An infix of a text that does not include a needle does not include
    it either. *)
Lemma includes_infix a s b needle :
  includes (a ++ s ++ b) needle = false -> includes s needle = false.
Proof.
  intros H. destruct (includes s needle) eqn:Hs; [|reflexivity].
  rewrite <- H. symmetry. apply includes_app_r, includes_app_l, Hs.
Qed.

Lemma includes_double_hyphen c s :
  includes (c :: s) (lit "--")
  = (c =? hyphen)%N && starts_hyphen s || includes s (lit "--").
Proof.
  cbn [includes]. f_equal.
  change (lit "--") with [hyphen; hyphen]. cbn [startsWith].
  rewrite (N.eqb_sym hyphen c). f_equal.
  destruct s as [|d s]; [reflexivity|]. cbn [startsWith starts_hyphen].
  rewrite (N.eqb_sym hyphen d). destruct s; apply andb_true_r.
Qed.

Lemma collapse_separators_shape s :
  forall in_run,
    Forall (fun c => isWordChar c || isWhiteSpace c || (c =? hyphen)%N = true) s ->
    forallb isSlugChar (collapse_separators in_run s) = true /\
    includes (collapse_separators in_run s) (lit "--") = false /\
    (in_run = true -> starts_hyphen (collapse_separators in_run s) = false) /\
    (forall c, In c (collapse_separators in_run s) -> c = hyphen \/ In c s).
Proof.
  induction s as [|c s IH]; intros in_run Hsafe.
  - repeat split; try reflexivity. intros c [].
  - inversion Hsafe as [|c' s' Hc Hs]; subst.
    cbn [collapse_separators].
    destruct (isSeparator c) eqn:Hsep.
    + destruct (IH true Hs) as (Ha & Hd & Hh & Hin).
      destruct in_run.
      * repeat split; try assumption.
        intros x Hx. destruct (Hin x Hx) as [->|Hx'];
          [left; reflexivity|right; right; exact Hx'].
      * split; [cbn [forallb]; rewrite Ha; reflexivity|].
        split; [rewrite includes_double_hyphen, Hd, (Hh eq_refl), andb_false_r;
                reflexivity|].
        split; [discriminate|].
        intros x [<-|Hx]; [left; reflexivity|].
        destruct (Hin x Hx) as [->|Hx'];
          [left; reflexivity|right; right; exact Hx'].
    + destruct (IH false Hs) as (Ha & Hd & _ & Hin).
      unfold isSeparator in Hsep.
      apply orb_false_iff in Hsep as [Hsep Hhy].
      apply orb_false_iff in Hsep as [Hws Hus].
      rewrite Hws, Hhy, !orb_false_r in Hc.
      split; [cbn [forallb]; unfold isSlugChar at 1;
              rewrite Hc, Hus, Ha; reflexivity|].
      split; [rewrite includes_double_hyphen, Hd, Hhy; reflexivity|].
      split; [intros _; exact Hhy|].
      intros x [<-|Hx]; [right; left; reflexivity|].
      destruct (Hin x Hx) as [->|Hx'];
        [left; reflexivity|right; right; exact Hx'].
Qed.

Lemma drop_hyphens_suffix s : exists p, s = p ++ drop_hyphens s.
Proof.
  induction s as [|c s [p IH]]; [exists []; reflexivity|].
  cbn [drop_hyphens]. destruct (c =? hyphen)%N.
  - exists (c :: p). cbn [app]. f_equal. exact IH.
  - exists []. reflexivity.
Qed.

Lemma drop_hyphens_head s : starts_hyphen (drop_hyphens s) = false.
Proof.
  induction s as [|c s IH]; [reflexivity|].
  cbn [drop_hyphens]. destruct (c =? hyphen)%N eqn:Hc; [exact IH|exact Hc].
Qed.

Lemma strip_hyphens_shape s :
  (exists a b, s = a ++ strip_hyphens s ++ b) /\
  starts_hyphen (strip_hyphens s) = false /\
  last (strip_hyphens s) <> Some hyphen.
Proof.
  unfold strip_hyphens.
  destruct (drop_hyphens_suffix s) as [p1 H1].
  destruct (drop_hyphens_suffix (rev (drop_hyphens s))) as [p2 H2].
  pose proof (drop_hyphens_head s) as Hh1.
  pose proof (drop_hyphens_head (rev (drop_hyphens s))) as Hh2.
  set (d2 := drop_hyphens (rev (drop_hyphens s))) in *.
  assert (Hd1 : drop_hyphens s = rev d2 ++ rev p2).
  { rewrite <- (rev_involutive (drop_hyphens s)), H2.
    apply rev_app_distr. }
  split; [exists p1, (rev p2); rewrite <- Hd1; exact H1|].
  split.
  - rewrite Hd1 in Hh1. destruct (rev d2); [reflexivity|exact Hh1].
  - destruct d2 as [|y d2']; [discriminate|].
    cbn [rev]. rewrite last_snoc. cbn [starts_hyphen] in Hh2.
    intros E. injection E as ->. discriminate Hh2.
Qed.

Lemma trimStart_subset s c : In c (trimStart s) -> In c s.
Proof.
  induction s as [|x s IH]; [intros []|]. cbn [trimStart].
  destruct (isWhiteSpace x); [right; apply IH; assumption|trivial].
Qed.

Lemma trim_subset s c : In c (trim s) -> In c s.
Proof.
  unfold trim, trimEnd. intros H.
  apply in_rev, trimStart_subset, in_rev, trimStart_subset in H. exact H.
Qed.

(** X29. The base of every slug is fit for an image name, a container
    name and a host name, whatever the project is called: it is not
    empty, it is made of letters and digits of ASCII and of hyphens, it
    neither starts nor ends with a hyphen, and it has no two hyphens in a
    row; and it has no upper-case letter when lower-casing leaves none in
    the name. *)
Theorem slugBase_shape h base :
  let s := slugBase h base in
  s <> [] /\
  forallb isSlugChar s = true /\
  head s <> Some hyphen /\
  last s <> Some hyphen /\
  includes s (lit "--") = false /\
  ((forall c, In c (toLowerCase h base) -> isUpper c = false) ->
   forall c, In c s -> isUpper c = false).
Proof.
  intros s. subst s. unfold slugBase.
  set (safe := remove_unsafe (trim (toLowerCase h base))).
  assert (Hsafe : Forall (fun c => isWordChar c || isWhiteSpace c
                                   || (c =? hyphen)%N = true) safe).
  { apply List.Forall_forall. intros c Hc. unfold safe, remove_unsafe in Hc.
    apply filter_In in Hc. apply Hc. }
  destruct (collapse_separators_shape safe false Hsafe)
    as (Hall & Hdd & _ & Hin).
  destruct (strip_hyphens_shape (collapse_separators false safe))
    as ((a & b & Hsplit) & Hhead & Hlast).
  set (core := strip_hyphens (collapse_separators false safe)) in *.
  destruct core as [|x core'] eqn:Hcore.
  - cbn [or_else]. repeat split; try (vm_compute; congruence).
    intros _ c Hc. vm_compute in Hc.
    repeat (destruct Hc as [<-|Hc]; [reflexivity|]). destruct Hc.
  - cbn [or_else]. rewrite Hsplit, !forallb_app in Hall.
    apply andb_true_iff in Hall as [_ Hall].
    apply andb_true_iff in Hall as [Hall _].
    split; [discriminate|]. split; [exact Hall|].
    split; [cbn [head starts_hyphen] in *; intros E; injection E as ->;
            discriminate Hhead|].
    split; [exact Hlast|].
    split; [rewrite Hsplit in Hdd; apply (includes_infix _ _ _ _ Hdd)|].
    intros Hlow c Hc.
    assert (Hc' : In c (collapse_separators false safe)).
    { rewrite Hsplit. apply in_or_app. right. apply in_or_app. left. exact Hc. }
    destruct (Hin c Hc') as [->|Hc'']; [reflexivity|].
    apply Hlow, trim_subset. unfold safe, remove_unsafe in Hc''.
    apply filter_In in Hc''. apply Hc''.
Qed.

Lemma lit_inj a b : lit a = lit b -> a = b.
Proof.
  unfold lit. intros H.
  rewrite <- (string_of_list_ascii_of_string a),
          <- (string_of_list_ascii_of_string b).
  f_equal. revert H.
  generalize (list_ascii_of_string a) (list_ascii_of_string b).
  intros l. induction l as [|x l IH]; intros [|y l'] H; try discriminate;
    [reflexivity|].
  cbn [map] in H. injection H as Hxy Hl. f_equal; [|apply IH, Hl].
  rewrite <- (ascii_N_embedding x), <- (ascii_N_embedding y), Hxy.
  reflexivity.
Qed.

Lemma tried_inj slugBase j k :
  tried slugBase j = tried slugBase k -> j = k.
Proof.
  unfold tried, numbered.
  destruct (N.eqb_spec j 0) as [->|Hj], (N.eqb_spec k 0) as [->|Hk];
    intros H.
  - reflexivity.
  - apply (f_equal (@length N)) in H. rewrite !length_app in H.
    cbn [length lit list_ascii_of_string map] in H. lia.
  - apply (f_equal (@length N)) in H. rewrite !length_app in H.
    cbn [length lit list_ascii_of_string map] in H. lia.
  - apply app_inv_head in H. apply app_inv_head in H.
    apply lit_inj in H. apply (inj pretty) in H. exact H.
Qed.

(** The loop entered with the counter at [c] and the slug tried at
    [c]. *)
Lemma slug_loop_spec h slugBase turns :
  forall c,
    match slug_loop turns h slugBase c (tried slugBase c) with
    | Some r =>
        exists k : nat,
          (k < turns)%nat /\ r = tried slugBase (c + N.of_nat k) /\
          findBySlug h r = false /\
          forall j : nat, (j < k)%nat ->
            findBySlug h (tried slugBase (c + N.of_nat j)) = true
    | None =>
        forall j : nat, (j < turns)%nat ->
          findBySlug h (tried slugBase (c + N.of_nat j)) = true
    end.
Proof.
  induction turns as [|t IH]; intros c; cbn [slug_loop].
  - intros j Hj. lia.
  - destruct (findBySlug h (tried slugBase c)) eqn:Hc.
    + assert (Hnext : numbered slugBase (c + 1) = tried slugBase (c + 1)).
      { unfold tried. destruct (N.eqb_spec (c + 1) 0); [lia|reflexivity]. }
      rewrite Hnext. specialize (IH (c + 1)%N).
      destruct (slug_loop t h slugBase (c + 1) (tried slugBase (c + 1)))
        as [r|].
      * destruct IH as (k & Hk & Hr & Hfree & Hbefore).
        exists (S k). split; [lia|].
        split; [rewrite Hr; f_equal; lia|]. split; [exact Hfree|].
        intros [|j] Hj; [rewrite N.add_0_r; exact Hc|].
        replace (c + N.of_nat (S j))%N with (c + 1 + N.of_nat j)%N by lia.
        apply Hbefore. lia.
      * intros [|j] Hj; [rewrite N.add_0_r; exact Hc|].
        replace (c + N.of_nat (S j))%N with (c + 1 + N.of_nat j)%N by lia.
        apply IH. lia.
    + exists 0%nat. rewrite N.add_0_r. split; [lia|].
      split; [reflexivity|]. split; [exact Hc|]. intros j Hj. lia.
Qed.

Lemma NoDup_map_inj {A B} (f : A -> B) l :
  (forall x y, f x = f y -> x = y) -> List.NoDup l -> List.NoDup (map f l).
Proof.
  intros Hf H. induction H as [|x l Hx _ IH]; cbn [map]; constructor;
    [|exact IH].
  intros Hin. apply in_map_iff in Hin as (y & Hy & Hin).
  apply Hf in Hy. subst y. exact (Hx Hin).
Qed.

(** When the first [k] slugs tried are all taken, the table holds at
    least [k] slugs. *)
Lemma taken_slugs_counted h slugBase taken k :
  (forall s, findBySlug h s = true -> In s taken) ->
  (forall j : nat, (j < k)%nat ->
     findBySlug h (tried slugBase (N.of_nat j)) = true) ->
  (k <= length taken)%nat.
Proof.
  intros Hfin Hall.
  set (l := map (fun j => tried slugBase (N.of_nat j)) (seq 0 k)).
  assert (Hlen : length l = k) by (unfold l; rewrite length_map, length_seq; reflexivity).
  rewrite <- Hlen. apply List.NoDup_incl_length.
  - unfold l. apply NoDup_map_inj; [|apply List.seq_NoDup].
    intros x y E. apply tried_inj in E. lia.
  - intros s Hs. unfold l in Hs. apply in_map_iff in Hs as (j & <- & Hj).
    apply in_seq in Hj. apply Hfin, Hall. lia.
Qed.

(** X30. [generateUniqueSlug] ends and returns a free slug.  When the
    projects found by [findBySlug] are finitely many, the loop ends
    within as many turns as there are such slugs, plus one; the slug
    returned is held by no project; it is the base when the base is
    free, else the base followed by the smallest counter, from 1 on, for
    which the numbered slug is free. *)
Theorem generateUniqueSlug_free h base taken turns :
  (forall s, findBySlug h s = true -> In s taken) ->
  (length taken < turns)%nat ->
  exists k : nat,
    (k <= length taken)%nat /\
    generateUniqueSlug turns h base
    = Some (tried (slugBase h base) (N.of_nat k)) /\
    findBySlug h (tried (slugBase h base) (N.of_nat k)) = false /\
    forall j : nat, (j < k)%nat ->
      findBySlug h (tried (slugBase h base) (N.of_nat j)) = true.
Proof.
  intros Hfin Hturns. unfold generateUniqueSlug.
  pose proof (slug_loop_spec h (slugBase h base) turns 0) as Hspec.
  change (tried (slugBase h base) 0) with (slugBase h base) in Hspec.
  destruct (slug_loop turns h (slugBase h base) 0 (slugBase h base)) as [r|].
  - destruct Hspec as (k & Hk & Hr & Hfree & Hbefore).
    rewrite N.add_0_l in Hr. subst r. exists k.
    split; [apply (taken_slugs_counted h (slugBase h base) taken k Hfin);
            intros j Hj; specialize (Hbefore j Hj);
            rewrite N.add_0_l in Hbefore; exact Hbefore|].
    split; [reflexivity|]. split; [exact Hfree|].
    intros j Hj. specialize (Hbefore j Hj).
    rewrite N.add_0_l in Hbefore. exact Hbefore.
  - exfalso.
    assert (turns <= length taken)%nat; [|lia].
    apply (taken_slugs_counted h (slugBase h base) taken turns Hfin).
    intros j Hj. specialize (Hspec j Hj).
    rewrite N.add_0_l in Hspec. exact Hspec.
Qed.

End Slugs.

Lemma generateUniqueSlug_free_witness :
  exists k : nat,
    (k <= 3)%nat /\
    ProjectSlug.generateUniqueSlug 4 SlugSample.three_projects
      (DockerTerminalService.lit "My App")
    = Some (SlugFacts.tried
              (ProjectSlug.slugBase SlugSample.three_projects
                 (DockerTerminalService.lit "My App")) (N.of_nat k)).
Proof.
  destruct (generateUniqueSlug_free SlugSample.three_projects
              (DockerTerminalService.lit "My App") SlugSample.taken 4)
    as (k & Hk & Hrun & _).
  - intros s Hs. unfold SlugSample.three_projects in Hs.
    cbn [ProjectSlug.findBySlug] in Hs.
    apply bool_decide_eq_true_1 in Hs. apply list_elem_of_In. exact Hs.
  - simpl. lia.
  - exists k. split; [exact Hk|exact Hrun].
Defined.

(** * Properties of the terminal route *)

Section Route.
Import DockerTerminalService DockerTerminalShortcuts TerminalFacts
       ShortcutFacts TerminalRoute RouteFacts.
Local Open Scope list_scope.

Lemma validateCommand_ok command :
  validateCommand command = Ok tt ->
  exists base, first_token command = Some base /\ allowed base = true.
Proof.
  intros Hv. destruct (first_token_is_some command) as [base Hb].
  exists base. split; [exact Hb|].
  destruct (trim command) as [|c rest] eqn:Ht.
  - rewrite (validateCommand_blank command Ht) in Hv. discriminate.
  - rewrite (validateCommand_token command base) in Hv;
      [|rewrite Ht; discriminate|exact Hb].
    destruct (allowed base); [reflexivity|discriminate].
Qed.

(** The calls of [executeCommand]: none unless the command is accepted,
    and every exec runs the command. *)
Lemma executeCommand_calls e containerName command :
  fst (executeCommand e containerName command) = [] \/
  (validateCommand command = Ok tt /\
   fst (executeCommand e containerName command)
   = fst (runInContainer e containerName command)).
Proof.
  unfold executeCommand, andThen. cbn [fst snd].
  destruct (validateCommand command) as [[]|err]; [right|left; reflexivity].
  split; reflexivity.
Qed.

Lemma runInContainer_first_call e containerName command :
  head (fst (runInContainer e containerName command))
  = Some (ContainerInspect containerName).
Proof.
  unfold runInContainer, andThen.
  destruct (resolveContainer_calls e containerName) as [H|H];
    destruct (snd (resolveContainer e containerName)); cbn [fst snd];
    rewrite H; reflexivity.
Qed.

Lemma getContainerLogs_first_call rt e containerName tailLines :
  head (fst (getContainerLogs rt e containerName tailLines))
  = Some (Exec (ContainerInspect containerName)).
Proof.
  unfold getContainerLogs, lift, andThen. cbn [fst snd].
  destruct (resolveContainer_calls (engine e) containerName) as [H|H];
    destruct (snd (resolveContainer (engine e) containerName)); cbn [fst snd];
    rewrite H; reflexivity.
Qed.

Lemma executeSlashCommand_first_call rt e containerName slashInput :
  fst (executeSlashCommand rt e containerName slashInput) = [] \/
  head (fst (executeSlashCommand rt e containerName slashInput))
  = Some (Exec (ContainerInspect containerName)).
Proof.
  destruct (first_token_is_some slashInput) as [name Hn].
  rewrite (executeSlashCommand_cases rt e containerName slashInput name Hn).
  assert (Hrun : forall command,
             head (fst (lift (runInContainer (engine e) containerName command)))
             = Some (Exec (ContainerInspect containerName))).
  { intros command. unfold lift. cbn [fst].
    pose proof (runInContainer_first_call (engine e) containerName command) as H.
    destruct (fst (runInContainer (engine e) containerName command));
      [discriminate|].
    cbn [map head] in *. injection H as ->. reflexivity. }
  destruct (jsstring_eqb name (lit "/show-logs"));
    [right; apply getContainerLogs_first_call|].
  destruct (jsstring_eqb name (lit "/tail-logs"));
    [right; apply getContainerLogs_first_call|].
  destruct (jsstring_eqb name (lit "/env")); [right; apply Hrun|].
  destruct (jsstring_eqb name (lit "/files")); [right; apply Hrun|].
  destruct (jsstring_eqb name (lit "/help")); left; reflexivity.
Qed.

(** X26. The route reaches the container engine only with a session, for
    a command of 1 to 1000 code units, on a project that belongs to the
    user of the session and whose latest deployment is DEPLOYED.  The
    first thing asked is then the container named after the slug of that
    project; an exec runs the command itself, which then has an allowed
    first token and does not start with a slash, or one of the two
    commands of the shortcut registry; a logs call asks for the last 500
    or 100 lines. *)
Theorem POST_reaches_engine_only_for_deployed_project rt e req :
  fst (POST rt e req) <> [] ->
  exists uid command project older,
    session req = Ok uid /\
    json req = Ok (CommandString command) /\
    (1 <= length command <= 1000)%nat /\
    findByIdWithDeployments req (params_id req)
    = Ok (Some (project, DEPLOYED :: older)) /\
    userId project = uid /\
    head (fst (POST rt e req))
    = Some (Exec (ContainerInspect (lit ("dropdeploy-" ++ slug project)))) /\
    Forall (permitted_call command) (fst (POST rt e req)).
Proof.
  unfold POST, POST_try, andThen, step. cbn [fst snd].
  destruct (session req) as [uid|err]; cbn [fst snd app];
    [|intros H; contradiction H; reflexivity].
  destruct (json req) as [body|err]; cbn [fst snd app];
    [|intros H; contradiction H; reflexivity].
  destruct (parse_command body) as [command|err] eqn:Hparse; cbn [fst snd app];
    [|intros H; contradiction H; reflexivity].
  assert (Hbody : body = CommandString command /\
                  (1 <= length command <= 1000)%nat).
  { unfold parse_command in Hparse. destruct body as [c|[m|]];
      try discriminate.
    destruct (Nat.ltb_spec (length c) 1); [discriminate|].
    destruct (Nat.ltb_spec 1000 (length c)); [discriminate|].
    injection Hparse as ->. split; [reflexivity|lia]. }
  destruct Hbody as [-> Hlen].
  unfold getByIdWithDeployments.
  destruct (findByIdWithDeployments req (params_id req))
    as [[[project statuses]|]|err] eqn:Hfind; cbn [fst snd app];
    try (intros H; contradiction H; reflexivity).
  destruct (bool_decide (userId project = uid)) eqn:Howner;
    cbn [negb fst snd app]; [|intros H; contradiction H; reflexivity].
  apply bool_decide_eq_true_1 in Howner.
  destruct statuses as [|[] older]; cbn [head fst snd app];
    try (intros H; contradiction H; reflexivity).
  set (containerName := lit ("dropdeploy-" ++ slug project)).
  intros Hcalls.
  exists uid, command, project, older.
  repeat (split; [first [reflexivity|assumption]|]).
  destruct (startsWith command (lit "/")) eqn:Hslash;
    unfold terminal in *; cbn [fst snd] in *.
  - split.
    + destruct (executeSlashCommand_first_call rt e containerName command)
        as [H|H]; [contradiction Hcalls|exact H].
    + eapply List.Forall_impl; [|apply shortcut_calls_fixed].
      intros [[]|] H; cbn [fixed_call permitted_call] in *; tauto.
  - unfold lift in *. cbn [fst] in *.
    destruct (executeCommand_calls (engine e) containerName command)
      as [H|[Hv H]]; [rewrite H in Hcalls; contradiction Hcalls; reflexivity|].
    rewrite H. split.
    + pose proof (runInContainer_first_call (engine e) containerName command)
        as Hfirst.
      destruct (fst (runInContainer (engine e) containerName command));
        [discriminate|].
      cbn [map head] in *. injection Hfirst as ->. reflexivity.
    + pose proof (runInContainer_lift_calls (engine e) containerName command)
        as Hall.
      unfold lift in Hall. cbn [fst] in Hall.
      eapply List.Forall_impl; [|exact Hall].
      intros [[]|] Hc; cbn [permitted_call] in *; try tauto.
      left. split; [exact Hc|]. split; [exact Hslash|].
      apply validateCommand_ok, Hv.
Qed.

End Route.

Lemma POST_reaches_engine_only_for_deployed_project_witness :
  exists uid command project older,
    TerminalRoute.session RouteSample.list_files = Ok uid /\
    TerminalRoute.json RouteSample.list_files
    = Ok (TerminalRoute.CommandString command) /\
    (1 <= length command <= 1000)%nat /\
    TerminalRoute.findByIdWithDeployments RouteSample.list_files
      (TerminalRoute.params_id RouteSample.list_files)
    = Ok (Some (project, DEPLOYED :: older)) /\
    userId project = uid /\
    head (fst (TerminalRoute.POST ShortcutSample.ascii_codec
                 ShortcutSample.with_logs RouteSample.list_files))
    = Some (DockerTerminalShortcuts.Exec
              (DockerTerminalService.ContainerInspect
                 (DockerTerminalService.lit ("dropdeploy-" ++ slug project)))) /\
    Forall (RouteFacts.permitted_call command)
           (fst (TerminalRoute.POST ShortcutSample.ascii_codec
                   ShortcutSample.with_logs RouteSample.list_files)).
Proof.
  apply (POST_reaches_engine_only_for_deployed_project
           ShortcutSample.ascii_codec ShortcutSample.with_logs
           RouteSample.list_files).
  vm_compute. discriminate.
Defined.
